(** * Chunked PDF store, annotation replies and AI suggestion client

    Shallow embedding of
      - [src/components/projects/ProjectViewer.tsx]
        ([load], [handleAddPdf], [selectPdf], [handleDeleteSelectedPdf]),
      - [src/components/projects/PdfEditor.tsx] (the reply handler,
        [addHighlightWithMeta], [updateHighlight], [removeHighlight],
        [severityRank], [visibleHighlights], [load], [persistHighlights]
        and [ask] of the expert box),
      - [src/lib/ai.ts]
        ([extractOutputText], [suggestComment], [searchWebDuckDuckGo],
         [askExpert], [suggestNextFocus]).

    JavaScript strings are modelled as [list ascii] (the payloads handled
    here are base64 text and "binary strings" whose code units are below
    256), byte arrays as [list byte], numbers that count or index as [N].
    Firestore collections are finite maps from document id to record. *)

From Stdlib Require Import NArith Ascii String List Lia QArith.
From Stdlib Require Import Strings.Byte.
From stdpp Require Import gmap strings list sorting.

Local Open Scope N_scope.

Abbreviation jsstring := (list ascii).

(** Linear arithmetic with division and remainder by constants. *)
Ltac arith := zify; Z.to_euclidean_division_equations; lia.

(** String literal of the source, as a JavaScript string. *)
Definition str (s : string) : jsstring := list_ascii_of_string s.

(** ** String primitives of the platform *)

Module JS.

(** [s.length] *)
Definition length (s : jsstring) : N := N.of_nat (List.length s).

(** [s.slice(a, b)] for non-negative [a] and [b]: both are clamped to the
    length, and the result is empty when [b <= a]. *)
Definition slice (s : jsstring) (a b : N) : jsstring :=
  take (N.to_nat (b - a)) (drop (N.to_nat a) s).

(** [parts.join("")] *)
Definition join (parts : list jsstring) : jsstring := concat parts.

(** [Math.ceil(a / b)] on non-negative integers with [b > 0]. The source
    divides doubles; for lengths below 2^53 the rounded quotient has the
    same ceiling as the exact one. *)
Definition ceil_div (a b : N) : N :=
  if a mod b =? 0 then a / b else a / b + 1.

(** [Math.min] on naturals *)
Definition min (a b : N) : N := N.min a b.

(** White space, as [trim] and the regular expression class [\s] see it
    among code units below 256: TAB, LF, VT, FF, CR, SPACE and NBSP. *)
Definition is_white_space (c : ascii) : bool :=
  let x := N_of_ascii c in
  ((9 <=? x) && (x <=? 13)) || (x =? 32) || (x =? 160).

(** [s.trimStart()] *)
Fixpoint trimStart (s : jsstring) : jsstring :=
  match s with
  | c :: s' => if is_white_space c then trimStart s' else s
  | [] => []
  end.

(** [s.trim()] *)
Definition trim (s : jsstring) : jsstring := rev (trimStart (rev (trimStart s))).

(** [s.startsWith(sub)] *)
Fixpoint startsWith (s sub : jsstring) : bool :=
  match sub, s with
  | [], _ => true
  | _ :: _, [] => false
  | d :: sub', c :: s' => Ascii.eqb c d && startsWith s' sub'
  end.

(** [s.includes(sub)] *)
Fixpoint includes (s sub : jsstring) : bool :=
  startsWith s sub ||
  match s with
  | [] => false
  | _ :: s' => includes s' sub
  end.

(** Truthiness of a string: the empty string is falsy. *)
Definition truthy (s : jsstring) : bool :=
  match s with [] => false | _ :: _ => true end.

(** [s || fallback] on strings. *)
Definition or_else (s fallback : jsstring) : jsstring :=
  match s with [] => fallback | _ :: _ => s end.

(** The double quote, which a literal here cannot hold. *)
Definition quote : jsstring := ["034"%char].

Definition quoted (s : jsstring) : jsstring := quote ++ s ++ quote.

End JS.

(** ** Chunk keys: [i.toString().padStart(6, "0")] *)

Module Keys.

Definition digit (d : N) : ascii := ascii_of_N (48 + d).

(** Decimal digits of [n], most significant first, pushed in front of
    [acc]; the loop stops at the leading digit. *)
Fixpoint toString_aux (fuel : nat) (n : N) (acc : jsstring) : jsstring :=
  match fuel with
  | O => acc
  | S f =>
      let acc' := digit (n mod 10) :: acc in
      if n / 10 =? 0 then acc' else toString_aux f (n / 10) acc'
  end.

(** [Number.MAX_SAFE_INTEGER]: up to here every integer is a number of
    its own and [i++] counts exactly, so a loop counter never gets
    past [2^53]; a string has at most this many code units. *)
Definition MAX_SAFE_INTEGER : N := 2 ^ 53 - 1.

(** [n.toString()] for a non-negative integer up to [2^53], where the
    platform prints the digits of the integer itself (beyond, it
    prints the shortest digits that denote the same number, and from
    10^21 on an exponent). A number has no more decimal digits than
    binary ones, which bounds the loop. *)
Definition toString (n : N) : jsstring :=
  toString_aux (S (N.to_nat (N.log2 n))) n [].

(** [s.padStart(targetLength, padString)]: the filler repeats
    [padString] and is cut to the missing length. *)
Definition padStart (s : jsstring) (targetLength : N) (padString : jsstring)
  : jsstring :=
  if (targetLength <=? JS.length s) || (JS.length padString =? 0) then s
  else
    let missing := N.to_nat (targetLength - JS.length s) in
    take missing (concat (replicate missing padString)) ++ s.

(** The chunk document id of index [i]. *)
Definition chunkId (i : N) : jsstring := padStart (toString i) 6 (str "0").

(** Comparison of strings by code units, as the backing store orders
    document ids. *)
Fixpoint lex_compare (s t : jsstring) : comparison :=
  match s, t with
  | [], [] => Eq
  | [], _ :: _ => Lt
  | _ :: _, [] => Gt
  | c :: s', d :: t' =>
      match N_of_ascii c ?= N_of_ascii d with
      | Eq => lex_compare s' t'
      | r => r
      end
  end.

Definition lex_lt (s t : jsstring) : Prop := lex_compare s t = Lt.

End Keys.

(** ** Base64: [btoa] and [atob] *)

Module Base64.

(** The alphabet of RFC 4648, section 4. *)
Definition b64char (n : N) : ascii :=
  if n <? 26 then ascii_of_N (65 + n)
  else if n <? 52 then ascii_of_N (97 + (n - 26))
  else if n <? 62 then ascii_of_N (48 + (n - 52))
  else if n =? 62 then "+"%char
  else "/"%char.

Definition b64val (c : ascii) : option N :=
  let x := N_of_ascii c in
  if (65 <=? x) && (x <=? 90) then Some (x - 65)
  else if (97 <=? x) && (x <=? 122) then Some (x - 97 + 26)
  else if (48 <=? x) && (x <=? 57) then Some (x - 48 + 52)
  else if x =? 43 then Some 62
  else if x =? 47 then Some 63
  else None.

Definition pad : ascii := "="%char.

(** [btoa(binary)]: three code units become four alphabet characters; a
    tail of one or two code units is padded with "=". Code units are
    below 256 by the type, so [btoa] never throws here. *)
Fixpoint btoa (s : jsstring) : jsstring :=
  match s with
  | [] => []
  | [a] =>
      let x := N_of_ascii a in
      [b64char (x / 4); b64char ((x mod 4) * 16); pad; pad]
  | [a; b] =>
      let x := N_of_ascii a in
      let y := N_of_ascii b in
      [b64char (x / 4); b64char ((x mod 4) * 16 + y / 16);
       b64char ((y mod 16) * 4); pad]
  | a :: b :: c :: rest =>
      let x := N_of_ascii a in
      let y := N_of_ascii b in
      let z := N_of_ascii c in
      b64char (x / 4) :: b64char ((x mod 4) * 16 + y / 16) ::
      b64char ((y mod 16) * 4 + z / 64) :: b64char (z mod 64) ::
      btoa rest
  end.

(** ASCII whitespace: TAB, LF, FF, CR, SPACE. *)
Definition is_ascii_whitespace (c : ascii) : bool :=
  let x := N_of_ascii c in
  (x =? 9) || (x =? 10) || (x =? 12) || (x =? 13) || (x =? 32).

Definition remove_whitespace (s : jsstring) : jsstring :=
  List.filter (fun c => negb (is_ascii_whitespace c)) s.

(** When the length is a multiple of four, one or two trailing "=" are
    removed. *)
Definition strip_padding (d : jsstring) : jsstring :=
  if JS.length d mod 4 =? 0 then
    match rev d with
    | c1 :: c2 :: r =>
        if Ascii.eqb c1 pad then
          if Ascii.eqb c2 pad then rev r else rev (c2 :: r)
        else d
    | [c1] => if Ascii.eqb c1 pad then [] else d
    | [] => d
    end
  else d.

Fixpoint sextets (d : jsstring) : option (list N) :=
  match d with
  | [] => Some []
  | c :: d' =>
      match b64val c, sextets d' with
      | Some v, Some vs => Some (v :: vs)
      | _, _ => None
      end
  end.

(** Groups of four sextets give three code units; a tail of two sextets
    gives one (its last four bits are dropped) and a tail of three gives
    two (its last two bits are dropped). *)
Fixpoint decode_sextets (l : list N) : jsstring :=
  match l with
  | s1 :: s2 :: s3 :: s4 :: rest =>
      ascii_of_N (s1 * 4 + s2 / 16) ::
      ascii_of_N ((s2 mod 16) * 16 + s3 / 4) ::
      ascii_of_N ((s3 mod 4) * 64 + s4) ::
      decode_sextets rest
  | [s1; s2; s3] =>
      [ascii_of_N (s1 * 4 + s2 / 16); ascii_of_N ((s2 mod 16) * 16 + s3 / 4)]
  | [s1; s2] => [ascii_of_N (s1 * 4 + s2 / 16)]
  | _ => []
  end.

(** [atob(data)], the forgiving-base64 decode: [None] stands for the
    [InvalidCharacterError] it throws. *)
Definition atob (data : jsstring) : option jsstring :=
  let d := strip_padding (remove_whitespace data) in
  if JS.length d mod 4 =? 1 then None
  else
    match sextets d with
    | Some vs => Some (decode_sextets vs)
    | None => None
    end.

End Base64.



(** ** Annotations ([PdfEditor]) *)

Module Annotations.

(** Geometry and content of a highlight, as [react-pdf-highlighter]
    declares them; coordinates are never computed on here. *)
Record Scaled := {
  x1 : Q; y1 : Q; x2 : Q; y2 : Q; width : Q; height : Q;
  scaledPageNumber : option N }.

Record Position := {
  boundingRect : Scaled; rects : list Scaled; pageNumber : N }.

Record Content := { content_text : option jsstring; image : option jsstring }.

Record Comment := { comment_text : jsstring; emoji : jsstring }.

Record CommentReply := {
  reply_id : jsstring;
  reply_text : jsstring;
  authorUid : option jsstring;
  reply_createdAt : N }.

(** [severity] and [category] are strings at run time; [replies] may be
    absent in a stored record, which the handler guards with [|| []]. *)
Record HighlightMeta := {
  severity : jsstring;
  category : jsstring;
  replies : option (list CommentReply) }.

Record RichHighlight := {
  id : jsstring;
  position : Position;
  content : Content;
  comment : Comment;
  meta : option HighlightMeta }.

Definition defaultMeta : HighlightMeta :=
  {| severity := str "medium"; category := str "general"; replies := Some [] |}.

(** [createReply(text)]: the random id, the signed-in user and the clock
    come from the environment. *)
Definition createReply (random : jsstring) (uid : option jsstring) (now : N)
           (text : jsstring) : CommentReply :=
  {| reply_id := random; reply_text := text; authorUid := uid;
     reply_createdAt := now |}.

(** The state update of the reply handler:
    [prev.map((h) => h.id !== highlightId ? h : { ...h, meta: { ...existing,
     replies: [reply, ...(existing.replies || [])] } })]. *)
Definition appendReply (highlightId : jsstring) (reply : CommentReply)
           (prev : list RichHighlight) : list RichHighlight :=
  map (fun h =>
         if bool_decide (id h <> highlightId) then h
         else
           let existing := default defaultMeta (meta h) in
           {| id := id h; position := position h; content := content h;
              comment := comment h;
              meta := Some {| severity := severity existing;
                              category := category existing;
                              replies := Some (reply :: default [] (replies existing)) |} |})
      prev.

(** The [onClick] handler of the "Reply" button on highlight
    [highlightId]: an empty draft (after trimming) changes nothing;
    otherwise the reply is prepended and the draft cleared. The updated
    list is what [persistHighlights] then writes. *)
Definition replyOnClick (random : jsstring) (uid : option jsstring) (now : N)
           (highlightId : jsstring)
           (replyDrafts : gmap jsstring jsstring)
           (highlights : list RichHighlight)
  : list RichHighlight * gmap jsstring jsstring :=
  let val := JS.trim (default [] (replyDrafts !! highlightId)) in
  match val with
  | [] => (highlights, replyDrafts)
  | _ :: _ =>
      let reply := createReply random uid now val in
      (appendReply highlightId reply highlights, delete highlightId replyDrafts)
  end.

End Annotations.

(** ** The backing store and the viewer state ([ProjectViewer]) *)

Module Store.

Record ChunkDoc := { index : N; data : jsstring }.

Record PdfDoc := {
  name : jsstring;
  createdAt : N;
  ownerUid : option jsstring;
  numChunks : N;
  size : N;
  mimeType : jsstring }.

Record AnnotationDoc := {
  highlights : list Annotations.RichHighlight;
  updatedAt : N }.

(** The collections under one project: [pdfs/{id}],
    [pdfs/{id}/chunks/{chunkId}] and [pdfs/{id}/annotations/default]. *)
Record Firestore := {
  pdfs : gmap jsstring PdfDoc;
  chunks : gmap jsstring (gmap jsstring ChunkDoc);
  annotations : gmap jsstring AnnotationDoc }.

Definition chunksOf (fs : Firestore) (pdf : jsstring) : gmap jsstring ChunkDoc :=
  default ∅ (chunks fs !! pdf).

(** Requests sent to the store. *)
Inductive Op :=
| AddPdf (pdf : jsstring) (d : PdfDoc)
| SetChunk (pdf chunk : jsstring) (d : ChunkDoc)
| ListChunksByIndex (pdf : jsstring)
| ListChunks (pdf : jsstring)
| DeleteChunk (pdf chunk : jsstring)
| DeleteAnnotations (pdf : jsstring)
| DeletePdf (pdf : jsstring).

Inductive exn :=
| FirebaseError (op : Op)
| InvalidCharacterError.

Inductive outcome (A : Type) :=
| Resolved (a : A)
| Rejected (e : exn).
Arguments Resolved {A} a.
Arguments Rejected {A} e.

(** What the user sees in the error line: a literal of the source or the
    message of the exception caught. *)
Inductive ErrorLine :=
| Literal (s : jsstring)
| MessageOf (e : exn).

Record Blob := { blob_bytes : list Byte.byte; blob_type : jsstring }.

Record PdfItem := {
  item_id : jsstring;
  item_name : jsstring;
  item_numChunks : option N;
  item_size : option N;
  item_mimeType : option jsstring }.

(** The component state; an object URL is modelled by the blob behind
    it. *)
Record UI := {
  ui_pdfs : list PdfItem;
  selectedPdfId : option jsstring;
  selectedPdfUrl : option Blob;
  prevObjectUrlRef : option Blob;
  loading : bool;
  error : option ErrorLine }.

Record State := {
  fs : Firestore;
  log : list Op;      (* requests issued so far, oldest first *)
  ui : UI }.

Record File := { file_name : jsstring; file_type : jsstring; file_bytes : list Byte.byte }.

Definition file_size (f : File) : N := N.of_nat (List.length (file_bytes f)).

(** *** State updates *)

Definition setPdfs (f : list PdfItem -> list PdfItem) (st : State) : State :=
  {| fs := fs st; log := log st;
     ui := {| ui_pdfs := f (ui_pdfs (ui st));
              selectedPdfId := selectedPdfId (ui st);
              selectedPdfUrl := selectedPdfUrl (ui st);
              prevObjectUrlRef := prevObjectUrlRef (ui st);
              loading := loading (ui st); error := error (ui st) |} |}.

Definition setSelectedPdfId (v : option jsstring) (st : State) : State :=
  {| fs := fs st; log := log st;
     ui := {| ui_pdfs := ui_pdfs (ui st);
              selectedPdfId := v;
              selectedPdfUrl := selectedPdfUrl (ui st);
              prevObjectUrlRef := prevObjectUrlRef (ui st);
              loading := loading (ui st); error := error (ui st) |} |}.

Definition setSelectedPdfUrl (v : option Blob) (st : State) : State :=
  {| fs := fs st; log := log st;
     ui := {| ui_pdfs := ui_pdfs (ui st);
              selectedPdfId := selectedPdfId (ui st);
              selectedPdfUrl := v;
              prevObjectUrlRef := prevObjectUrlRef (ui st);
              loading := loading (ui st); error := error (ui st) |} |}.

Definition setPrevObjectUrl (v : option Blob) (st : State) : State :=
  {| fs := fs st; log := log st;
     ui := {| ui_pdfs := ui_pdfs (ui st);
              selectedPdfId := selectedPdfId (ui st);
              selectedPdfUrl := selectedPdfUrl (ui st);
              prevObjectUrlRef := v;
              loading := loading (ui st); error := error (ui st) |} |}.

Definition setLoading (v : bool) (st : State) : State :=
  {| fs := fs st; log := log st;
     ui := {| ui_pdfs := ui_pdfs (ui st);
              selectedPdfId := selectedPdfId (ui st);
              selectedPdfUrl := selectedPdfUrl (ui st);
              prevObjectUrlRef := prevObjectUrlRef (ui st);
              loading := v; error := error (ui st) |} |}.

Definition setError (v : option ErrorLine) (st : State) : State :=
  {| fs := fs st; log := log st;
     ui := {| ui_pdfs := ui_pdfs (ui st);
              selectedPdfId := selectedPdfId (ui st);
              selectedPdfUrl := selectedPdfUrl (ui st);
              prevObjectUrlRef := prevObjectUrlRef (ui st);
              loading := loading (ui st); error := v |} |}.

Definition setFs (f : Firestore -> Firestore) (st : State) : State :=
  {| fs := f (fs st); log := log st; ui := ui st |}.

Definition record (op : Op) (st : State) : State :=
  {| fs := fs st; log := log st ++ [op]; ui := ui st |}.

(** *** Effects of the store on its collections *)

Definition add_pdf (pdf : jsstring) (d : PdfDoc) (f : Firestore) : Firestore :=
  {| pdfs := <[pdf := d]> (pdfs f); chunks := chunks f;
     annotations := annotations f |}.

Definition set_chunk (pdf chunk : jsstring) (d : ChunkDoc) (f : Firestore)
  : Firestore :=
  {| pdfs := pdfs f;
     chunks := <[pdf := <[chunk := d]> (chunksOf f pdf)]> (chunks f);
     annotations := annotations f |}.

Definition delete_chunk (pdf chunk : jsstring) (f : Firestore) : Firestore :=
  {| pdfs := pdfs f;
     chunks := <[pdf := delete chunk (chunksOf f pdf)]> (chunks f);
     annotations := annotations f |}.

Definition delete_annotations (pdf : jsstring) (f : Firestore) : Firestore :=
  {| pdfs := pdfs f; chunks := chunks f;
     annotations := delete pdf (annotations f) |}.

Definition delete_pdf (pdf : jsstring) (f : Firestore) : Firestore :=
  {| pdfs := delete pdf (pdfs f); chunks := chunks f;
     annotations := annotations f |}.

(** *** Listing order *)

Definition key_leb (a b : jsstring) : bool :=
  match Keys.lex_compare a b with Gt => false | _ => true end.

(** [orderBy("index", "asc")]: by the [index] field, ties by document
    id. *)
Definition by_index_leb (e1 e2 : jsstring * ChunkDoc) : bool :=
  match index (snd e1) ?= index (snd e2) with
  | Lt => true
  | Gt => false
  | Eq => key_leb (fst e1) (fst e2)
  end.

Definition by_index : relation (jsstring * ChunkDoc) :=
  fun e1 e2 => by_index_leb e1 e2 = true.

(** Without [orderBy], documents come by document id. *)
Definition by_key : relation (jsstring * ChunkDoc) :=
  fun e1 e2 => key_leb (fst e1) (fst e2) = true.

#[export] Instance by_index_dec : RelDecision by_index.
Proof. intros x y. unfold by_index. apply _. Defined.

#[export] Instance by_key_dec : RelDecision by_key.
Proof. intros x y. unfold by_key. apply _. Defined.

(** *** Conversions between bytes and binary strings *)

(** [String.fromCharCode(bytes[i])] *)
Definition fromCharCode (b : Byte.byte) : ascii := ascii_of_N (Byte.to_N b).

(** [s.charCodeAt(i)] *)
Definition charCodeAt (c : ascii) : N := N_of_ascii c.

(** The conversion [new Uint8Array(numbers)] applies to each number. *)
Definition toUint8 (n : N) : Byte.byte :=
  default Byte.x00 (Byte.of_N (n mod 256)).

Section Handlers.

(** The environment: which requests the store rejects, the
    [isFirebaseConfigured] and [db] exports of the Firebase module. *)
Variable rejects : Op -> bool.
Variable isFirebaseConfigured : bool.
Variable db : bool.

(** Asynchronous code that may throw. *)
Definition Async (A : Type) : Type := State -> outcome A * State.

Definition ret {A} (a : A) : Async A := fun st => (Resolved a, st).

Definition bind {A B} (m : Async A) (k : A -> Async B) : Async B :=
  fun st =>
    match m st with
    | (Resolved a, st') => k a st'
    | (Rejected e, st') => (Rejected e, st')
    end.

Definition throw {A} (e : exn) : Async A := fun st => (Rejected e, st).

Definition update (f : State -> State) : Async unit :=
  fun st => (Resolved tt, f st).

Definition get : Async State := fun st => (Resolved st, st).

Local Notation "'let*' x := m 'in' k" := (bind m (fun x => k))
  (at level 10, x name, m at level 99, k at level 200).
Local Notation "'exec' m ;; k" := (bind m (fun _ => k))
  (at level 10, m at level 99, k at level 200).

(** A write or delete: recorded, then applied unless rejected. *)
Definition request (op : Op) (effect : Firestore -> Firestore) : Async unit :=
  fun st =>
    let st' := record op st in
    if rejects op then (Rejected (FirebaseError op), st')
    else (Resolved tt, setFs effect st').

Definition addDoc (newId : jsstring) (d : PdfDoc) : Async jsstring :=
  exec request (AddPdf newId d) (add_pdf newId d) ;; ret newId.

Definition setDoc (pdf chunk : jsstring) (d : ChunkDoc) : Async unit :=
  request (SetChunk pdf chunk d) (set_chunk pdf chunk d).

Definition deleteChunkDoc (pdf chunk : jsstring) : Async unit :=
  request (DeleteChunk pdf chunk) (delete_chunk pdf chunk).

Definition deleteAnnotationsDoc (pdf : jsstring) : Async unit :=
  request (DeleteAnnotations pdf) (delete_annotations pdf).

Definition deletePdfDoc (pdf : jsstring) : Async unit :=
  request (DeletePdf pdf) (delete_pdf pdf).

(** [getDocs(query(collection(..., "chunks"), orderBy("index", "asc")))] *)
Definition getChunksByIndex (pdf : jsstring)
  : Async (list (jsstring * ChunkDoc)) :=
  fun st =>
    let st' := record (ListChunksByIndex pdf) st in
    if rejects (ListChunksByIndex pdf)
    then (Rejected (FirebaseError (ListChunksByIndex pdf)), st')
    else (Resolved (merge_sort by_index (map_to_list (chunksOf (fs st) pdf))), st').

(** [getDocs(collection(..., "chunks"))] *)
Definition getChunks (pdf : jsstring) : Async (list (jsstring * ChunkDoc)) :=
  fun st =>
    let st' := record (ListChunks pdf) st in
    if rejects (ListChunks pdf)
    then (Rejected (FirebaseError (ListChunks pdf)), st')
    else (Resolved (merge_sort by_key (map_to_list (chunksOf (fs st) pdf))), st').

(** [try { body } catch (e) { setError(e.message) }] *)
Definition try_catch (body : Async unit) (st : State) : State :=
  match body st with
  | (Resolved _, st') => st'
  | (Rejected e, st') => setError (Some (MessageOf e)) st'
  end.

(** *** [selectPdf] *)

(** [if (data?.data) parts.push(data.data)] *)
Definition pushedData (e : jsstring * ChunkDoc) : option jsstring :=
  if JS.truthy (data (snd e)) then Some (data (snd e)) else None.

Definition selectPdf_body (item : PdfItem) : Async unit :=
  let* chunksSnap := getChunksByIndex (item_id item) in
  let parts := omap pushedData chunksSnap in
  match parts with
  | [] => update (setSelectedPdfUrl None)
  | _ :: _ =>
      let base64 := JS.join parts in
      match Base64.atob base64 with
      | None => throw InvalidCharacterError
      | Some byteCharacters =>
          let byteNumbers := map charCodeAt byteCharacters in
          let byteArray := map toUint8 byteNumbers in
          let blob :=
            {| blob_bytes := byteArray;
               blob_type := JS.or_else (default [] (item_mimeType item))
                                    (str "application/pdf") |} in
          exec update (setPrevObjectUrl (Some blob)) ;;
          update (setSelectedPdfUrl (Some blob))
      end
  end.

Definition selectPdf (item : PdfItem) (st : State) : State :=
  if negb db then st
  else
    try_catch (selectPdf_body item)
              (setError None (setSelectedPdfId (Some (item_id item)) st)).

(** *** [handleAddPdf] *)

Section Upload.

(** [CHUNK_SIZE], the bound on the characters of one chunk. *)
Variable CHUNK_SIZE : N.

(** The chunk the loop writes at index [i]. *)
Definition chunkAt (base64 : jsstring) (i : N) : jsstring :=
  let start := i * CHUNK_SIZE in
  let end_ := JS.min (JS.length base64) (start + CHUNK_SIZE) in
  JS.slice base64 start end_.

(** [for (let i = ...; i < numChunks; i++) { ...; await setDoc(...) }],
    with [remaining] iterations left. *)
Fixpoint uploadLoop (pdf base64 : jsstring) (remaining : nat) (i : N)
  : Async unit :=
  match remaining with
  | O => ret tt
  | S remaining' =>
      let chunk := chunkAt base64 i in
      let chunkId := Keys.chunkId i in
      exec setDoc pdf chunkId {| index := i; data := chunk |} ;;
      uploadLoop pdf base64 remaining' (i + 1)
  end.

Definition handleAddPdf_body (uid : option jsstring) (now : N)
           (newId : jsstring) (file : File) : Async unit :=
  let bytes := file_bytes file in
  let binary := map fromCharCode bytes in
  let base64 := Base64.btoa binary in
  let numChunks := JS.ceil_div (JS.length base64) CHUNK_SIZE in
  let mime := JS.or_else (file_type file) (str "application/pdf") in
  let* docRef := addDoc newId
              {| name := file_name file; createdAt := now; ownerUid := uid;
                 numChunks := numChunks; size := file_size file;
                 mimeType := mime |} in
  exec uploadLoop docRef base64 (N.to_nat numChunks) 0 ;;
  let newItem :=
    {| item_id := docRef; item_name := file_name file;
       item_numChunks := Some numChunks;
       item_size := Some (file_size file);
       item_mimeType := Some mime |} in
  exec update (setPdfs (fun prev => newItem :: prev)) ;;
  update (selectPdf newItem).

(** [uid] is the signed-in user, [now] the server time, [newId] the
    id [addDoc] assigns, [file] the first selected file if any. *)
Definition handleAddPdf (uid : option jsstring) (now : N)
           (newId : jsstring) (file : option File) (st : State) : State :=
  match file with
  | None => st
  | Some file =>
      if negb (JS.truthy (file_type file))
         || negb (JS.includes (file_type file) (str "pdf"))
      then setError (Some (Literal (str "Please select a PDF file"))) st
      else if negb isFirebaseConfigured || negb db
      then setError (Some (Literal (str "Firebase is not configured"))) st
      else
        setLoading false
          (try_catch (handleAddPdf_body uid now newId file)
                     (setLoading true (setError None st)))
  end.

End Upload.

(** *** [handleDeleteSelectedPdf] *)

(** A request whose promise is only awaited through
    [Promise.allSettled]: its rejection is not thrown. *)
Definition settled (m : Async unit) : Async unit :=
  fun st => (Resolved tt, snd (m st)).

(** The deletes are started one after the other in listing order and
    run in parallel; they act on different documents, so the order in
    which they complete does not show in the store. *)
Definition handleDelete_body (selected : jsstring) : Async unit :=
  let* chunksSnap := getChunks selected in
  let deletions :=
    map (fun e : jsstring * ChunkDoc => deleteChunkDoc selected (fst e))
        chunksSnap
    ++ [deleteAnnotationsDoc selected] in
  exec foldr (fun d k => exec settled d ;; k) (ret tt) deletions ;;
  exec deletePdfDoc selected ;;
  exec update (setPdfs (List.filter
            (fun p => negb (bool_decide (item_id p = selected))))) ;;
  exec update (setSelectedPdfId None) ;;
  update (setSelectedPdfUrl None).

(** [confirmed] is the answer to [window.confirm]. *)
Definition handleDeleteSelectedPdf (confirmed : bool) (st : State) : State :=
  if negb db then st
  else
    match selectedPdfId (ui st) with
    | None | Some [] => st
    | Some (c :: sel) =>
        if negb confirmed then st
        else try_catch (handleDelete_body (c :: sel)) st
    end.

End Handlers.

(** A store that rejects no request. *)
Definition reliable : Op -> bool := fun _ => false.

(** The value of [CHUNK_SIZE] in the source. *)
Definition CHUNK_SIZE : N := 500000.

End Store.

(** ** The suggestion client ([lib/ai.ts]) *)

Module AI.

(** *** Values produced by [JSON.parse] *)

(** Numbers: the finite doubles are rationals; a literal out of range
    parses to an infinity. [JSON.parse] never yields NaN. *)
Inductive jsnumber :=
| Finite (q : Q)
| Infinite (negative : bool).

(** An object keeps its members in source order; a later member with
    the same key overrides an earlier one. *)
#[local] Unset Elimination Schemes.
Inductive json :=
| JNull
| JBool (b : bool)
| JNumber (n : jsnumber)
| JString (s : jsstring)
| JArray (items : list json)
| JObject (members : list (jsstring * json)).
#[local] Set Elimination Schemes.

(** Truthiness, as [||] tests it. *)
Definition truthy (v : json) : bool :=
  match v with
  | JNull => false
  | JBool b => b
  | JNumber (Finite q) => negb (Qnum q =? 0)%Z
  | JNumber (Infinite _) => true
  | JString s => JS.truthy s
  | JArray _ | JObject _ => true
  end.

Fixpoint lookup_member (members : list (jsstring * json)) (key : jsstring)
  : option json :=
  match members with
  | [] => None
  | (k, v) :: rest =>
      match lookup_member rest key with
      | Some v' => Some v'
      | None => if bool_decide (k = key) then Some v else None
      end
  end.

(** A step that may throw. *)
Inductive completion (A : Type) :=
| Returned (a : A)
| Thrown.
Arguments Returned {A} a.
Arguments Thrown {A}.

(** [v.key] for the keys read by the client ([text], [severity],
    [category], [suggestion], [pageNumber]): [None] is [undefined];
    reading a property of [null] throws; no array, string, number or
    boolean has one of these properties. *)
Definition getProp (v : json) (key : jsstring) : completion (option json) :=
  match v with
  | JNull => Thrown
  | JObject members => Returned (lookup_member members key)
  | _ => Returned None
  end.

(** [v || fallback] where [v] may be [undefined]. *)
Definition or_default (v : option json) (fallback : json) : json :=
  match v with
  | Some x => if truthy x then x else fallback
  | None => fallback
  end.

(** The fields hold whatever the parsed JSON held: the declared types
    [Severity] and [Category] are erased at run time. *)
Record CommentSuggestion := {
  text : json;
  severity : json;
  category : json }.

Record NextFocusSuggestion := {
  pageNumber : option jsnumber;
  suggestion : CommentSuggestion }.

(** *** Response shapes *)

Inductive TextNode :=
| TextString (s : jsstring)
| TextObject (value : option jsstring).

Record ContentNode := {
  node_text : option TextNode;
  node_content : option jsstring;
  node_value : option jsstring }.

(** What [for (... of v)] finds in a value [v]: the items it yields
    (an array, or a string, whose characters have none of the properties
    read here), or no iterator at all, and then the loop throws a
    [TypeError]. *)
Inductive iteration (A : Type) :=
| Yields (items : list A)
| NotIterable.
Arguments Yields {A} items.
Arguments NotIterable {A}.

(** [item?.content]: [None] when the item or its [content] is [null]
    or [undefined]. *)
Record OutputItem := { item_content : option (iteration ContentNode) }.

Record Message := { message_content : option jsstring }.

Record Choice := { message : option Message }.

(** The answer as [extractOutputText] reads it, whatever the provider
    sent: [output_text] is [None] unless it is a string; [output] is
    [None] when it is falsy, so that [||] passes on to [outputs];
    [outputs] is [None] when it is [null] or [undefined], so that [??]
    passes on to the empty array. *)
Record ResponsesLike := {
  output_text : option jsstring;
  output : option (iteration OutputItem);
  outputs : option (iteration OutputItem);
  choices : option (list Choice) }.

Definition nonempty (s : option jsstring) : option jsstring :=
  match s with
  | Some (c :: s') => Some (c :: s')
  | _ => None
  end.

(** The text one content node offers, if any. *)
Definition nodeText (c : ContentNode) : option jsstring :=
  match node_text c with
  | Some (TextString (ch :: s)) => Some (ch :: s)
  | Some (TextObject (Some (ch :: s))) => Some (ch :: s)
  | _ =>
      (* [c?.content ?? c?.value] *)
      let alt := match node_content c with
                 | Some s => Some s
                 | None => node_value c
                 end in
      nonempty alt
  end.

Fixpoint firstText (content : list ContentNode) : option jsstring :=
  match content with
  | [] => None
  | c :: rest =>
      match nodeText c with
      | Some s => Some s
      | None => firstText rest
      end
  end.

(** The outer loop: the first text of the first item that offers one;
    it throws at an item whose [content] cannot be iterated, unless a
    text was found before. *)
Fixpoint firstItemText (out : list OutputItem) : completion (option jsstring) :=
  match out with
  | [] => Returned None
  | item :: rest =>
      (* [item?.content ?? []] *)
      match default (Yields []) (item_content item) with
      | NotIterable => Thrown
      | Yields content =>
          match firstText content with
          | Some s => Returned (Some s)
          | None => firstItemText rest
          end
      end
  end.

(** [extractOutputText(res)]; [Thrown] is the [TypeError] of a loop
    over a value that cannot be iterated. *)
Definition extractOutputText (res : option ResponsesLike)
  : completion (option jsstring) :=
  match res with
  | None => Returned None
  | Some r =>
      match nonempty (output_text r) with
      | Some s => Returned (Some s)
      | None =>
          (* [(r.output || r.outputs) ?? []]: an array is truthy *)
          let out := match output r with
                     | Some o => o
                     | None => default (Yields []) (outputs r)
                     end in
          match out with
          | NotIterable => Thrown
          | Yields items =>
              match firstItemText items with
              | Thrown => Thrown
              | Returned (Some s) => Returned (Some s)
              | Returned None =>
                  let choiceContent :=
                    match choices r with
                    | Some (c :: _) =>
                        match message c with
                        | Some m => message_content m
                        | None => None
                        end
                    | _ => None
                    end in
                  Returned (nonempty choiceContent)
              end
          end
      end
  end.

(** *** String helpers *)

Fixpoint indexOf_from (s : jsstring) (c : ascii) (i : N) : option N :=
  match s with
  | [] => None
  | d :: s' => if Ascii.eqb d c then Some i else indexOf_from s' c (i + 1)
  end.

(** [s.indexOf(c)]; [None] is -1. *)
Definition indexOf (s : jsstring) (c : ascii) : option N := indexOf_from s c 0.

Fixpoint lastIndexOf_from (s : jsstring) (c : ascii) (i : N) (found : option N)
  : option N :=
  match s with
  | [] => found
  | d :: s' =>
      lastIndexOf_from s' c (i + 1) (if Ascii.eqb d c then Some i else found)
  end.

(** [s.lastIndexOf(c)]; [None] is -1. *)
Definition lastIndexOf (s : jsstring) (c : ascii) : option N :=
  lastIndexOf_from s c 0 None.

Definition newline : jsstring := ["010"%char].

(** [parts.join(sep)] *)
Fixpoint joinWith (sep : jsstring) (parts : list jsstring) : jsstring :=
  match parts with
  | [] => []
  | [p] => p
  | p :: rest => p ++ sep ++ joinWith sep rest
  end.

Definition toLower (c : ascii) : ascii :=
  let x := N_of_ascii c in
  if (65 <=? x) && (x <=? 90) then ascii_of_N (x + 32) else c.

(** [raw.replace(/^@(search|think)\s*/i, '')] *)
Definition stripCommand (raw : jsstring) : jsstring :=
  let lower := map toLower raw in
  if JS.startsWith lower (str "@search")
  then JS.trimStart (drop 7 raw)
  else if JS.startsWith lower (str "@think")
  then JS.trimStart (drop 6 raw)
  else raw.

(** *** Parameters and environment *)

Record AbortSignal := { aborted : bool }.

Record SuggestParams := {
  sc_pdfText : jsstring;
  sc_highlightText : jsstring;
  sc_pageNumber : option N;
  sc_projectName : option jsstring;
  sc_model : option jsstring;
  sc_apiKey : option jsstring;
  sc_abortSignal : option AbortSignal }.

Inductive Role := user | assistant.

Record ChatMessage := { role : Role; content : jsstring }.

Record AskParams := {
  ae_pdfText : jsstring;
  ae_question : jsstring;
  ae_model : option jsstring;
  ae_apiKey : option jsstring;
  ae_abortSignal : option AbortSignal;
  ae_history : option (list ChatMessage) }.

Record FocusParams := {
  nf_pdfText : jsstring;
  nf_model : option jsstring;
  nf_apiKey : option jsstring }.

(** [import.meta.env] *)
Record Env := {
  VITE_OPENAI_API_KEY : option jsstring;
  VITE_OPENAI_MODEL : option jsstring;
  VITE_OPENAI_FALLBACK_MODEL : option jsstring }.

(** Requests that leave the browser. *)
Inductive Request :=
| ResponsesCreate (apiKey model input : jsstring)
                  (effort verbosity : option jsstring)
| ChatCreate (apiKey model system user_ : jsstring)
| Fetch (url : jsstring).

Inductive reply (A : Type) :=
| Resolves (a : A)
| Rejects.
Arguments Resolves {A} a.
Arguments Rejects {A}.

(** The answer of the search service. *)
Record Topic := { Text : option jsstring; FirstURL : option jsstring }.

Inductive Related :=
| RelatedTopic (t : Topic)
| RelatedGroup (Topics : list Topic).

Record Answer := {
  Abstract : option jsstring;
  AbstractURL : option jsstring;
  RelatedTopics : option (list Related) }.

(** [res.ok] and [await res.json()] ([None] when it throws). *)
Record FetchResponse := { ok : bool; body : option Answer }.

(** [a || b] on optional strings. *)
Definition first_truthy (a b : option jsstring) : option jsstring :=
  match nonempty a with
  | Some s => Some s
  | None => nonempty b
  end.

(** The example object quoted in the prompts. *)
Definition exampleComment : jsstring :=
  str "{" ++ JS.quoted (str "text") ++ str ":" ++ JS.quoted (str "...")
  ++ str "," ++ JS.quoted (str "severity") ++ str ":" ++ JS.quoted (str "medium")
  ++ str "," ++ JS.quoted (str "category") ++ str ":" ++ JS.quoted (str "design")
  ++ str "}".

Section Client.

Variable env : Env.

(** The world outside: the two provider endpoints, the search
    service, [JSON.parse] ([None] when it throws a [SyntaxError]) and
    [encodeURIComponent]. *)
Variable responses_create : Request -> reply ResponsesLike.
Variable chat_create : Request -> reply (list Choice).
Variable fetch : Request -> reply FetchResponse.
Variable JSON_parse : jsstring -> option json.
Variable encodeURIComponent : jsstring -> jsstring.

Definition DEFAULT_MODEL : jsstring :=
  default (str "gpt-5") (nonempty (VITE_OPENAI_MODEL env)).

(** The steps from the extracted text to the suggestion, shared by
    the primary and the fallback path of [suggestComment]. *)
Definition parseComment (content : option jsstring) (excerpt : jsstring)
  : completion (option CommentSuggestion) :=
  match nonempty content with
  | None => Returned None
  | Some content =>
      match indexOf content "{"%char, lastIndexOf content "}"%char with
      | Some jsonStart, Some jsonEnd =>
          let raw := JS.slice content jsonStart (jsonEnd + 1) in
          match JSON_parse raw with
          | None => Thrown
          | Some parsed =>
              match getProp parsed (str "text"),
                    getProp parsed (str "severity"),
                    getProp parsed (str "category") with
              | Returned t, Returned s, Returned c =>
                  Returned (Some
                    {| text := or_default t (JString excerpt);
                       severity := or_default s (JString (str "medium"));
                       category := or_default c (JString (str "general")) |})
              | _, _, _ => Thrown
              end
          end
      | _, _ => Returned None
      end
  end.

Definition commentPrompt (params : SuggestParams) (excerpt pdfContext : jsstring)
  : jsstring :=
  joinWith newline
    [str "You are a professional AEC review assistant (architecture/engineering/construction).";
     str "Write concise, professional comments (no emojis).";
     str "Return STRICT JSON only with keys: text, severity, category.";
     str "severity must be one of: low, medium, high, critical. category must be one of: general, design, safety, spec, cost, schedule, other.";
     str "The comment should be concise and to the point, and should be no more than 100 words.";
     [];
     str "Project: " ++ default (str "Untitled") (nonempty (sc_projectName params));
     str "Page: " ++ match sc_pageNumber params with
                     | Some 0 | None => str "?"
                     | Some p => Keys.toString p
                     end;
     str "Highlighted excerpt:";
     excerpt;
     [];
     str "Full PDF text (truncated):";
     pdfContext;
     [];
     str "Respond with only JSON, e.g. " ++ exampleComment ++ str "."].

(** [chat?.choices?.[0]?.message?.content || undefined] *)
Definition chatContent (chat : list Choice) : option jsstring :=
  match chat with
  | c :: _ =>
      match message c with
      | Some m => nonempty (message_content m)
      | None => None
      end
  | [] => None
  end.

Definition commentModel (params : SuggestParams) : jsstring :=
  default DEFAULT_MODEL (nonempty (sc_model params)).

(** The excerpt, cut to 4,000 characters. *)
Definition commentExcerpt (params : SuggestParams) : jsstring :=
  JS.slice (sc_highlightText params) 0 4000.

Definition commentPromptOf (params : SuggestParams) : jsstring :=
  commentPrompt params (commentExcerpt params)
                (JS.slice (sc_pdfText params) 0 160000).

(** The primary request of [suggestComment]. *)
Definition commentPrimary (apiKey : jsstring) (params : SuggestParams)
  : Request :=
  ResponsesCreate apiKey (commentModel params) (commentPromptOf params)
                  (Some (str "minimal")) (Some (str "low")).

(** The fallback chat request of [suggestComment]. *)
Definition commentFallback (apiKey : jsstring) (params : SuggestParams)
  : Request :=
  ChatCreate apiKey
    (default (commentModel params) (nonempty (VITE_OPENAI_FALLBACK_MODEL env)))
    (str "You are a professional AEC review assistant. Return STRICT JSON with keys: text, severity, category only.")
    (commentPromptOf params).

(** [suggestComment(params)]: the requests issued, oldest first, and
    the value the promise resolves to ([None] is [null]). The SDK
    module is taken to load. *)
Definition suggestComment (params : SuggestParams)
  : list Request * option CommentSuggestion :=
  match first_truthy (sc_apiKey params) (VITE_OPENAI_API_KEY env) with
  | None => ([], None)
  | Some apiKey =>
      let excerpt := commentExcerpt params in
      let primary := commentPrimary apiKey params in
      let fallback (_ : unit) :=
        let chatRequest := commentFallback apiKey params in
        match chat_create chatRequest with
        | Rejects => ([primary; chatRequest], None)
        | Resolves chat =>
            match parseComment (chatContent chat) excerpt with
            | Returned r => ([primary; chatRequest], r)
            | Thrown => ([primary; chatRequest], None)
            end
        end in
      match responses_create primary with
      | Rejects => fallback tt
      | Resolves resp =>
          match extractOutputText (Some resp) with
          | Thrown => fallback tt
          | Returned content =>
              match parseComment content excerpt with
              | Returned r => ([primary], r)
              | Thrown => fallback tt
              end
          end
      end
  end.

(** *** [searchWebDuckDuckGo] *)

Definition topicLine (t : Topic) : list jsstring :=
  match nonempty (Text t), nonempty (FirstURL t) with
  | Some txt, Some url => [str "- " ++ txt ++ str " (" ++ url ++ str ")"]
  | _, _ => []
  end.

Definition relatedLines (rt : Related) : list jsstring :=
  match rt with
  | RelatedGroup topics => concat (map topicLine (take 3 topics))
  | RelatedTopic t => topicLine t
  end.

Definition searchWebDuckDuckGo (query : jsstring)
  : list Request * option jsstring :=
  let url := str "https://api.duckduckgo.com/?q=" ++ encodeURIComponent query
             ++ str "&format=json&no_html=1&skip_disambig=1" in
  let request := Fetch url in
  match fetch request with
  | Rejects => ([request], None)
  | Resolves res =>
      if negb (ok res) then ([request], None)
      else
        match body res with
        | None => ([request], None)
        | Some data =>
            let abstractLine :=
              match nonempty (Abstract data), nonempty (AbstractURL data) with
              | Some a, Some u => [str "- " ++ a ++ str " (" ++ u ++ str ")"]
              | _, _ => []
              end in
            let lines :=
              abstractLine ++
              concat (map relatedLines (default [] (RelatedTopics data))) in
            ([request], Some (joinWith newline (take 5 lines)))
        end
  end.

(** *** [askExpert] *)

Definition historyLine (m : ChatMessage) : jsstring :=
  match role m with
  | user => str "User: " ++ content m
  | assistant => str "Assistant: " ++ content m
  end.

(** [history.slice(-10)] *)
Definition lastTen {A} (l : list A) : list A := drop (List.length l - 10) l.

Definition askExpert (params : AskParams) : list Request * option jsstring :=
  match first_truthy (ae_apiKey params) (VITE_OPENAI_API_KEY env) with
  | None => ([], None)
  | Some apiKey =>
      let model :=
        default (default (str "gpt-5") (nonempty (VITE_OPENAI_MODEL env)))
                (nonempty (ae_model params)) in
      let raw := JS.trim (ae_question params) in
      let isSearch := JS.startsWith raw (str "@search") in
      let isThink := JS.startsWith raw (str "@think") in
      let cleaned := JS.trim (stripCommand raw) in
      let '(searched, searchAppendix) :=
        if isSearch then searchWebDuckDuckGo cleaned else ([], None) in
      let instructions :=
        joinWith (str " ")
          [str "You are an expert AEC assistant. Be precise and cite product names/links when available. Do not reveal chain-of-thought.";
           if isThink then str "Deliberate internally; provide only the final answer."
           else str "Answer succinctly."] in
      let historyText :=
        match ae_history params with
        | Some (m :: h) =>
            str "Chat history (most recent last):" ++ newline ++
            joinWith newline (map historyLine (lastTen (m :: h))) ++
            newline ++ newline
        | _ => []
        end in
      let userPrompt :=
        joinWith newline
          [match (if isSearch then nonempty searchAppendix else None) with
           | Some appendix => str "Recent web results:" ++ newline ++ appendix ++ newline
           | None => []
           end;
           str "Relevant PDF context (truncated):";
           JS.slice (ae_pdfText params) 0 120000;
           [];
           historyText;
           str "Question:";
           cleaned] in
      let primary :=
        ResponsesCreate apiKey model
          (str "System: " ++ instructions ++ newline ++ newline ++ userPrompt)
          (Some (if isThink then str "high" else str "minimal")) None in
      let fallback (_ : unit) :=
        let chatRequest :=
          ChatCreate apiKey
            (default model (nonempty (VITE_OPENAI_FALLBACK_MODEL env)))
            instructions userPrompt in
        match chat_create chatRequest with
        | Rejects => (searched ++ [primary; chatRequest], None)
        | Resolves chat =>
            (searched ++ [primary; chatRequest], chatContent chat)
        end in
      match responses_create primary with
      | Rejects => fallback tt
      | Resolves resp =>
          match extractOutputText (Some resp) with
          | Thrown => fallback tt
          | Returned content => (searched ++ [primary], content)
          end
      end
  end.

(** *** [suggestNextFocus] *)

Definition parseNextFocus (content : option jsstring)
  : completion (option NextFocusSuggestion) :=
  match nonempty content with
  | None => Returned None
  | Some content =>
      match indexOf content "{"%char, lastIndexOf content "}"%char with
      | Some jStart, Some jEnd =>
          match JSON_parse (JS.slice content jStart (jEnd + 1)) with
          | None => Thrown
          | Some parsed =>
              match getProp parsed (str "suggestion"),
                    getProp parsed (str "pageNumber") with
              | Returned sugField, Returned page =>
                  (* [parsed.suggestion || {}] *)
                  let sug := or_default sugField (JObject []) in
                  match getProp sug (str "text"),
                        getProp sug (str "severity"),
                        getProp sug (str "category") with
                  | Returned t, Returned s, Returned c =>
                      Returned (Some
                        {| pageNumber := match page with
                                         | Some (JNumber n) => Some n
                                         | _ => None
                                         end;
                           suggestion :=
                             {| text := or_default t (JString []);
                                severity := or_default s (JString (str "medium"));
                                category := or_default c (JString (str "general")) |} |})
                  | _, _, _ => Thrown
                  end
              | _, _ => Thrown
              end
          end
      | _, _ => Returned None
      end
  end.

(** The request of [suggestNextFocus]. *)
Definition focusPrimary (apiKey : jsstring) (params : FocusParams) : Request :=
      let model :=
        default (default (str "gpt-5") (nonempty (VITE_OPENAI_MODEL env)))
                (nonempty (nf_model params)) in
      let system :=
        joinWith (str " ")
          [str "You are an expert AEC reviewer. Output STRICT JSON only.";
           str "Keys: pageNumber (integer or null), suggestion { text, severity, category }.";
           str "severity in {low,medium,high,critical}, category in {general,design,safety,spec,cost,schedule,other}."] in
      let user_ :=
        joinWith newline
          [str "Given the following PDF text (truncated), recommend the next place to look (a page number if known) and a concise suggested comment.";
           JS.slice (nf_pdfText params) 0 140000;
           str "Respond only with JSON, e.g. {" ++ JS.quoted (str "pageNumber")
           ++ str ": 12, " ++ JS.quoted (str "suggestion") ++ str ": "
           ++ exampleComment ++ str "}"] in
      ResponsesCreate apiKey model
        (str "System: " ++ system ++ newline ++ newline ++ user_) None None.

Definition suggestNextFocus (params : FocusParams)
  : list Request * option NextFocusSuggestion :=
  match first_truthy (nf_apiKey params) (VITE_OPENAI_API_KEY env) with
  | None => ([], None)
  | Some apiKey =>
      let primary := focusPrimary apiKey params in
      match responses_create primary with
      | Rejects => ([primary], None)
      | Resolves resp =>
          match extractOutputText (Some resp) with
          | Thrown => ([primary], None)
          | Returned content =>
              match parseNextFocus content with
              | Returned r => ([primary], r)
              | Thrown => ([primary], None)
              end
          end
      end
  end.

End Client.

End AI.

(** ** The annotation editor ([PdfEditor]) *)

Module Editor.
Import Annotations Store.

(** *** The list of highlights *)

(** What the viewer hands over for a new selection: the handler keeps
    its [position] and [content] and sets every other field itself. *)
Record NewHighlight := {
  new_position : Position;
  new_content : Content }.

(** The state update of [addHighlightWithMeta]:
    [[next, ...prev]] with [next = { ...highlight, id, comment: { text:
    commentText, emoji: "" }, meta }]; [random] is the id drawn. *)
Definition addHighlightWithMeta (random : jsstring) (highlight : NewHighlight)
           (commentText : jsstring) (meta' : HighlightMeta)
           (prev : list RichHighlight) : list RichHighlight :=
  {| id := random;
     position := new_position highlight;
     content := new_content highlight;
     comment := {| comment_text := commentText; emoji := [] |};
     meta := Some meta' |} :: prev.

(** The state update of [updateHighlight]:
    [prev.map((h) => h.id === id ? { ...h, position, content } : h)]. *)
Definition updateHighlight (id' : jsstring) (position' : Position)
           (content' : Content) (prev : list RichHighlight)
  : list RichHighlight :=
  map (fun h =>
         if bool_decide (id h = id')
         then {| id := id h; position := position'; content := content';
                 comment := comment h; meta := meta h |}
         else h)
      prev.

(** The state update of [removeHighlight]:
    [prev.filter((h) => h.id !== id)]. *)
Definition removeHighlight (id' : jsstring) (prev : list RichHighlight)
  : list RichHighlight :=
  List.filter (fun h => bool_decide (id h <> id')) prev.

(** [setReplyDraft] and [clearReplyDraft] on the record of drafts. *)
Definition setReplyDraft (id' value : jsstring)
           (p : gmap jsstring jsstring) : gmap jsstring jsstring :=
  <[id' := value]> p.

Definition clearReplyDraft (id' : jsstring)
           (p : gmap jsstring jsstring) : gmap jsstring jsstring :=
  delete id' p.

(** *** The visible list *)

(** [severityRank(sev)]; [None] is [undefined]. *)
Definition severityRank (sev : option jsstring) : Z :=
  match sev with
  | Some s =>
      if bool_decide (s = str "critical") then 4
      else if bool_decide (s = str "high") then 3
      else if bool_decide (s = str "medium") then 2
      else if bool_decide (s = str "low") then 1
      else 0
  | None => 0
  end.

(** [meta?.severity] *)
Definition severityOf (h : RichHighlight) : option jsstring :=
  match meta h with
  | Some m => Some (severity m)
  | None => None
  end.

(** The comparator handed to [sort]: by rank, highest first, then by
    page, lowest first. *)
Definition compareHighlights (a b : RichHighlight) : Z :=
  let sevDelta := (severityRank (severityOf b) - severityRank (severityOf a))%Z in
  if negb (sevDelta =? 0)%Z then sevDelta
  else
    let ap := pageNumber (position a) in
    let bp := pageNumber (position b) in
    (Z.of_N ap - Z.of_N bp)%Z.

(** [array.sort(compare)]. The platform's sort is stable; with a
    comparator that orders consistently its result is the one obtained
    by putting each element, from the last to the first, in front of
    the first element it does not have to follow. *)
Fixpoint insert_by {A} (compare : A -> A -> Z) (x : A) (l : list A) : list A :=
  match l with
  | [] => [x]
  | y :: l' =>
      if (compare x y <=? 0)%Z then x :: y :: l'
      else y :: insert_by compare x l'
  end.

Definition sort {A} (compare : A -> A -> Z) (l : list A) : list A :=
  foldr (insert_by compare) [] l.

(** The predicate of the filter: everything under ["all"], otherwise
    [(meta?.severity ?? "medium") === severityFilter]. *)
Definition passesFilter (severityFilter : jsstring) (h : RichHighlight) : bool :=
  if bool_decide (severityFilter = str "all") then true
  else bool_decide (default (str "medium") (severityOf h) = severityFilter).

(** [visibleHighlights] *)
Definition visibleHighlights (severityFilter : jsstring)
           (highlights : list RichHighlight) : list RichHighlight :=
  let filtered := List.filter (passesFilter severityFilter) highlights in
  sort compareHighlights filtered.

(** *** Loading and saving *)

(** The requests of the editor: both address the document
    [pdfs/{pdfId}/annotations/default]. *)
Inductive AnnotationOp :=
| GetAnnotations (pdf : jsstring)
| SetAnnotations (pdf : jsstring) (d : AnnotationDoc).

(** The component state next to the store; [ed_error] holds the request
    whose rejection message is shown. *)
Record EditorState := {
  ed_fs : Firestore;
  ed_log : list AnnotationOp;   (* requests issued so far, oldest first *)
  ed_highlights : list RichHighlight;
  ed_isLoading : bool;
  ed_error : option AnnotationOp }.

Section Persistence.

(** The environment: which requests the store rejects, the exports of
    the Firebase module, the document shown and the server time. *)
Variable rejects : AnnotationOp -> bool.
Variable isFirebaseConfigured : bool.
Variable db : bool.
Variable pdfId : jsstring.
Variable now : N.

Definition setHighlights (v : list RichHighlight) (st : EditorState)
  : EditorState :=
  {| ed_fs := ed_fs st; ed_log := ed_log st; ed_highlights := v;
     ed_isLoading := ed_isLoading st; ed_error := ed_error st |}.

(** The effect [load()]: [data?.highlights] of the stored document, or
    the empty list when there is none; the effect is taken to run to its
    end (not cancelled). *)
Definition load (st : EditorState) : EditorState :=
  if negb isFirebaseConfigured || negb db then st
  else
    let op := GetAnnotations pdfId in
    if rejects op then
      {| ed_fs := ed_fs st; ed_log := ed_log st ++ [op];
         ed_highlights := ed_highlights st;
         ed_isLoading := false; ed_error := Some op |}
    else
      let data := annotations (ed_fs st) !! pdfId in
      {| ed_fs := ed_fs st; ed_log := ed_log st ++ [op];
         ed_highlights := match data with
                          | Some d => highlights d
                          | None => []
                          end;
         ed_isLoading := false; ed_error := None |}.

(** [persistHighlights(next)]: [setDoc] with [merge: true] replaces
    both fields of the document; a rejection is only printed to the
    console. *)
Definition persistHighlights (next : list RichHighlight) (st : EditorState)
  : EditorState :=
  if negb isFirebaseConfigured || negb db then st
  else
    let d := {| highlights := next; updatedAt := now |} in
    let op := SetAnnotations pdfId d in
    {| ed_fs := if rejects op then ed_fs st
                else {| pdfs := pdfs (ed_fs st); chunks := chunks (ed_fs st);
                        annotations := <[pdfId := d]> (annotations (ed_fs st)) |};
       ed_log := ed_log st ++ [op];
       ed_highlights := ed_highlights st;
       ed_isLoading := ed_isLoading st; ed_error := ed_error st |}.

(** The shape every handler has:
    [setHighlights((prev) => { const updated = f(prev);
     void persistHighlights(updated); return updated; })]. *)
Definition commit (f : list RichHighlight -> list RichHighlight)
           (st : EditorState) : EditorState :=
  let updated := f (ed_highlights st) in
  persistHighlights updated (setHighlights updated st).

End Persistence.

End Editor.

(** ** The expert box ([ExpertBox] in [PdfEditor]) *)

Module ExpertBox.
Import AI.

(** The state of the box that [ask] reads and writes. *)
Record BoxState := {
  query : jsstring;
  isLoading : bool;
  messages : list ChatMessage }.

(** [setQuery(value)], what typing into the input does. *)
Definition setQuery (value : jsstring) (st : BoxState) : BoxState :=
  {| query := value; isLoading := isLoading st; messages := messages st |}.

Section Box.

Variable env : Env.
Variable responses_create : Request -> reply ResponsesLike.
Variable chat_create : Request -> reply (list Choice).
Variable fetch : Request -> reply FetchResponse.
Variable encodeURIComponent : jsstring -> jsstring.

(** The [pdfText] property of the component. *)
Variable pdfText : jsstring.

(** [ask()] up to its [await]: nothing for a blank question;
    otherwise the parameters handed to [askExpert], built from the
    messages of the last render, and the state with the question
    appended and the input cleared. *)
Definition askStart (st : BoxState) : option (AskParams * BoxState) :=
  let trimmed := JS.trim (query st) in
  match trimmed with
  | [] => None
  | _ :: _ =>
      let apiKey := VITE_OPENAI_API_KEY env in
      let nextHistory := messages st ++ [{| role := user; content := trimmed |}] in
      Some ({| ae_pdfText := pdfText; ae_question := trimmed;
               ae_model := None; ae_apiKey := apiKey;
               ae_abortSignal := None; ae_history := Some nextHistory |},
            {| query := []; isLoading := true; messages := nextHistory |})
  end.

(** [ask()] after its [await], on the state of that moment:
    [setMessages((prev) => [...prev, { role: 'assistant', content: res ||
    "(no answer)" }])], then [setIsLoading(false)]. *)
Definition askSettle (res : option jsstring) (st : BoxState) : BoxState :=
  {| query := query st;
     isLoading := false;
     messages :=
       messages st ++
       [{| role := assistant;
           content := JS.or_else (default [] res) (str "(no answer)") |}] |}.

(** One call of [ask()] during which nothing else changes the state:
    the requests issued and the state when the answer has been
    appended. Nothing in the component keeps a second call from
    starting before the first has settled (the Enter key is not
    disabled while loading); such runs are composed from [askStart]
    and [askSettle]. *)
Definition ask (st : BoxState) : list Request * BoxState :=
  match askStart st with
  | None => ([], st)
  | Some (params, started) =>
      let '(requests, res) :=
        askExpert env responses_create chat_create fetch encodeURIComponent
                  params in
      (requests, askSettle res started)
  end.

(** [clearHistory()] *)
Definition clearHistory (st : BoxState) : BoxState :=
  {| query := query st; isLoading := isLoading st; messages := [] |}.

End Box.

End ExpertBox.

(** ** Loading the document list ([ProjectViewer]) *)

Module Viewer.
Import Store.

(** [orderBy("createdAt", "desc")]: by the [createdAt] field, latest
    first, ties by document id in the same direction. *)
Definition by_createdAt_desc_leb (e1 e2 : jsstring * PdfDoc) : bool :=
  match createdAt (snd e2) ?= createdAt (snd e1) with
  | Lt => true
  | Gt => false
  | Eq => key_leb (fst e2) (fst e1)
  end.

Definition by_createdAt_desc : relation (jsstring * PdfDoc) :=
  fun e1 e2 => by_createdAt_desc_leb e1 e2 = true.

#[export] Instance by_createdAt_desc_dec : RelDecision by_createdAt_desc.
Proof. intros x y. unfold by_createdAt_desc. apply _. Defined.

(** [if (data.name) rows.push({ id: d.id, name: data.name, ... })]; the
    [createdAt] of a row is never read and is left out of [PdfItem]. *)
Definition row (d : jsstring * PdfDoc) : option PdfItem :=
  if JS.truthy (name (snd d))
  then Some {| item_id := fst d; item_name := name (snd d);
               item_numChunks := Some (numChunks (snd d));
               item_size := Some (size (snd d));
               item_mimeType := Some (mimeType (snd d)) |}
  else None.

Section Load.

Variable rejects : Op -> bool.
Variable isFirebaseConfigured : bool.
Variable db : bool.

(** The exception the listing of the documents is rejected with, if it
    is; this request is not among those the log records. *)
Variable listing : option exn.

(** [getDocs(query(collection(..., "pdfs"), orderBy("createdAt", "desc")))] *)
Definition getPdfs : Async (list (jsstring * PdfDoc)) :=
  fun st =>
    match listing with
    | Some e => (Rejected e, st)
    | None =>
        (Resolved (merge_sort by_createdAt_desc (map_to_list (pdfs (fs st)))), st)
    end.

Definition load_body : Async unit :=
  bind getPdfs (fun snap =>
  let rows := omap row snap in
  bind (update (setPdfs (fun _ => rows))) (fun _ =>
  match rows with
  | first :: _ => update (selectPdf rejects db first)
  | [] =>
      bind (update (setSelectedPdfId None)) (fun _ =>
      update (setSelectedPdfUrl None))
  end)).

(** The effect [load()] that runs when the project is opened.
    [selectPdf] is started without being awaited and does not touch
    [loading], so the state once both have finished is the one of
    running it before the [finally] block. *)
Definition load (st : State) : State :=
  if negb isFirebaseConfigured || negb db then st
  else
    setLoading false
      (try_catch load_body (setError None (setLoading true st))).

End Load.

End Viewer.

(** ** Quantities the statements speak about *)

Module Derived.
Import Store Annotations AI.

(** The values [i, i+1, ...] the loop counter of [uploadLoop] takes in
    [n] iterations. *)
Fixpoint indices (n : nat) (i : N) : list N :=
  match n with
  | O => []
  | S n' => i :: indices n' (i + 1)
  end.

Definition is_digit (c : ascii) : Prop := 48 <= N_of_ascii c <= 57.

(** The number a string of digits denotes. *)
Fixpoint value (s : jsstring) : N :=
  match s with
  | [] => 0
  | c :: s' => (N_of_ascii c - 48) * 10 ^ JS.length s' + value s'
  end.

(** The base64 text [handleAddPdf] computes for a file, and the chunk
    count it derives from it. *)
Definition base64Of (file : File) : jsstring :=
  Base64.btoa (map fromCharCode (file_bytes file)).

Definition numChunksOf (k : N) (file : File) : N :=
  JS.ceil_div (JS.length (base64Of file)) k.

(** The effect of a request on the store, when it may be rejected. *)
Definition unless_rejected (rejects : Op -> bool) (op : Op)
           (effect : Firestore -> Firestore) (f : Firestore) : Firestore :=
  if rejects op then f else effect f.

(** The replies a highlight holds, oldest last; none when the record has
    no [meta] or no [replies]. *)
Definition repliesOf (h : RichHighlight) : list CommentReply :=
  default [] (replies (default defaultMeta (meta h))).

(** [v.key], with [undefined] for a value that is no object. *)
Definition memberOf (v : json) (key : jsstring) : option json :=
  match v with
  | JObject members => lookup_member members key
  | _ => None
  end.

(** The primary call answers with a text whose first "{" and last "}"
    enclose the JSON text of an object with the given members. *)
Definition answers_object (responses_create : Request -> reply ResponsesLike)
           (JSON_parse : jsstring -> option json) (request : Request)
           (members : list (jsstring * json)) : Prop :=
  exists resp content s e,
    responses_create request = Resolves resp /\
    extractOutputText (Some resp) = Returned (Some content) /\
    content !! s = Some "{"%char /\
    (forall j, (j < s)%nat -> content !! j <> Some "{"%char) /\
    content !! e = Some "}"%char /\
    (forall j, (e < j)%nat -> content !! j <> Some "}"%char) /\
    JSON_parse (JS.slice content (N.of_nat s) (N.of_nat e + 1)) = Some (JObject members).

End Derived.

(** ** Further quantities the statements speak about *)

Module Further.
Import Store Annotations Editor Viewer.

(** The records of document [other] are the same in [f] and [g]. *)
Definition untouched (other : jsstring) (f g : Firestore) : Prop :=
  pdfs f !! other = pdfs g !! other /\
  chunksOf f other = chunksOf g other /\
  annotations f !! other = annotations g !! other.

(** A character [atob] neither decodes nor skips. *)
Definition outside_alphabet (c : ascii) : Prop :=
  Base64.b64val c = None /\ c <> Base64.pad /\
  Base64.is_ascii_whitespace c = false.

(** The rows the listing of [load] yields for a store. *)
Definition rowsOf (f : Firestore) : list PdfItem :=
  omap Viewer.row
       (merge_sort Viewer.by_createdAt_desc (map_to_list (pdfs f))).

(** The number of replies in a list of highlights. *)
Definition replyCount (l : list RichHighlight) : nat :=
  sum_list (map (fun h => List.length (Derived.repliesOf h)) l).

(** [a] may stand before [b] in the visible list: a higher rank, or
    the same rank and no later page. *)
Definition precedes (a b : RichHighlight) : Prop :=
  (severityRank (severityOf b) < severityRank (severityOf a))%Z \/
  (severityRank (severityOf a) = severityRank (severityOf b) /\
   pageNumber (position a) <= pageNumber (position b)).

(** The text [suggestComment] hands to [JSON.parse]: from the first "{"
    to the last "}" of a non-empty answer. *)
Definition jsonSlice (content : option jsstring) : option jsstring :=
  match AI.nonempty content with
  | None => None
  | Some content =>
      match AI.indexOf content "{"%char, AI.lastIndexOf content "}"%char with
      | Some jsonStart, Some jsonEnd =>
          Some (JS.slice content jsonStart (jsonEnd + 1))
      | _, _ => None
      end
  end.

(** A request to the primary endpoint with the given reasoning effort
    and no verbosity setting, and a request to the chat endpoint. *)
Definition isResponses (effort : jsstring) (r : AI.Request) : Prop :=
  exists apiKey model input,
    r = AI.ResponsesCreate apiKey model input (Some effort) None.

Definition isChat (r : AI.Request) : Prop :=
  exists apiKey model system user_, r = AI.ChatCreate apiKey model system user_.

(** The parameters with another history, and with other texts. *)
Definition with_history (params : AI.AskParams) (h : list AI.ChatMessage)
  : AI.AskParams :=
  {| AI.ae_pdfText := AI.ae_pdfText params;
     AI.ae_question := AI.ae_question params;
     AI.ae_model := AI.ae_model params;
     AI.ae_apiKey := AI.ae_apiKey params;
     AI.ae_abortSignal := AI.ae_abortSignal params;
     AI.ae_history := Some h |}.

Definition with_texts (params : AI.SuggestParams)
           (pdfText highlightText : jsstring) : AI.SuggestParams :=
  {| AI.sc_pdfText := pdfText; AI.sc_highlightText := highlightText;
     AI.sc_pageNumber := AI.sc_pageNumber params;
     AI.sc_projectName := AI.sc_projectName params;
     AI.sc_model := AI.sc_model params;
     AI.sc_apiKey := AI.sc_apiKey params;
     AI.sc_abortSignal := AI.sc_abortSignal params |}.

(** A conversation whose turns alternate, the user first, and in which
    no message is empty. *)
Definition turns_ok (l : list AI.ChatMessage) : Prop :=
  Nat.Even (List.length l) /\
  (forall (i : nat) m, l !! i = Some m ->
     AI.role m = (if Nat.even i then AI.user else AI.assistant) /\
     AI.content m <> []).

End Further.

(** ** Sample inputs *)

Module Samples.
Import Store.

Definition empty_store : Firestore :=
  {| pdfs := ∅; chunks := ∅; annotations := ∅ |}.

Definition initial_ui : UI :=
  {| ui_pdfs := []; selectedPdfId := None; selectedPdfUrl := None;
     prevObjectUrlRef := None; loading := false; error := None |}.

Definition initial_state : State :=
  {| fs := empty_store; log := []; ui := initial_ui |}.

Definition bytes_of (s : string) : list Byte.byte :=
  map byte_of_ascii (list_ascii_of_string s).

(** A twelve-byte file: sixteen base64 characters. *)
Definition hello_pdf : File :=
  {| file_name := str "hello.pdf"; file_type := str "application/pdf";
     file_bytes := bytes_of "Hello, world" |}.

(** A file of zero bytes. *)
Definition empty_pdf : File :=
  {| file_name := str "empty.pdf"; file_type := str "application/pdf";
     file_bytes := [] |}.

(** A file of 750,001 zero bytes: 1,000,004 base64 characters. *)
Definition large_pdf : File :=
  {| file_name := str "large.pdf"; file_type := str "application/pdf";
     file_bytes := replicate (N.to_nat 750001) Byte.x00 |}.

Definition doc1 : jsstring := str "doc1".

(** [hello_pdf] uploaded with chunk bound 4: chunks 0 to 3. *)
Definition hello_uploaded : State :=
  handleAddPdf reliable true true 4 None 0 doc1 (Some hello_pdf) initial_state.

(** The same store with chunk 2 gone: indices 0, 1 and 3 remain. *)
Definition hello_gap : State :=
  setFs (delete_chunk doc1 (Keys.chunkId 2)) hello_uploaded.

(** A store that rejects every chunk delete and the annotation delete. *)
Definition rejects_partial_deletes (op : Op) : bool :=
  match op with
  | DeleteChunk _ _ | DeleteAnnotations _ => true
  | _ => false
  end.

(** A store that rejects the unordered chunk listing only. *)
Definition rejects_listing (op : Op) : bool :=
  match op with
  | ListChunks _ => true
  | _ => false
  end.

(** The list item of the document, recording four chunks. *)
Definition hello_item : PdfItem :=
  {| item_id := doc1; item_name := str "hello.pdf";
     item_numChunks := Some 4; item_size := Some 12;
     item_mimeType := Some (str "application/pdf") |}.

(** *** Mock provider *)

Import AI.

Definition env_with_key : Env :=
  {| VITE_OPENAI_API_KEY := Some (str "sk-test");
     VITE_OPENAI_MODEL := None;
     VITE_OPENAI_FALLBACK_MODEL := None |}.

Definition env_without_key : Env :=
  {| VITE_OPENAI_API_KEY := None;
     VITE_OPENAI_MODEL := None;
     VITE_OPENAI_FALLBACK_MODEL := None |}.

Definition member (key value : jsstring) : jsstring :=
  JS.quoted key ++ str ":" ++ JS.quoted value.

(** An object whose severity and category lie outside the
    enumerations. *)
Definition urgent_json : jsstring :=
  str "{" ++ member (str "text") (str "ok") ++ str ","
  ++ member (str "severity") (str "urgent") ++ str ","
  ++ member (str "category") (str "legal") ++ str "}".

Definition urgent_object : json :=
  JObject [(str "text", JString (str "ok"));
           (str "severity", JString (str "urgent"));
           (str "category", JString (str "legal"))].

(** An object with only a [text] member. *)
Definition partial_json : jsstring :=
  str "{" ++ member (str "text") (str "check slab") ++ str "}".

Definition partial_object : json :=
  JObject [(str "text", JString (str "check slab"))].

(** The answer of a provider that talks before the object. *)
Definition partial_answer : jsstring := str "Sure: " ++ partial_json.

(** A next-focus answer. *)
Definition focus_json : jsstring :=
  str "{" ++ JS.quoted (str "pageNumber") ++ str ":3,"
  ++ JS.quoted (str "suggestion") ++ str ":" ++ urgent_json ++ str "}".

Definition focus_object : json :=
  JObject [(str "pageNumber", JNumber (Finite 3));
           (str "suggestion", urgent_object)].

(** [JSON.parse] on the texts used here. *)
Definition parse_samples (raw : jsstring) : option json :=
  if bool_decide (raw = urgent_json) then Some urgent_object
  else if bool_decide (raw = partial_json) then Some partial_object
  else if bool_decide (raw = focus_json) then Some focus_object
  else None.

Definition answer_with (content : jsstring) : ResponsesLike :=
  {| output_text := Some content; output := None; outputs := None;
     choices := None |}.

Definition chat_with (content : jsstring) : list Choice :=
  [{| message := Some {| message_content := Some content |} |}].

Definition primary_answers (content : jsstring) (_ : Request)
  : reply ResponsesLike := Resolves (answer_with content).

Definition primary_rejects (_ : Request) : reply ResponsesLike := Rejects.

Definition chat_answers (content : jsstring) (_ : Request)
  : reply (list Choice) := Resolves (chat_with content).

Definition chat_rejects (_ : Request) : reply (list Choice) := Rejects.

Definition fetch_rejects (_ : Request) : reply FetchResponse := Rejects.

Definition encode_identity (s : jsstring) : jsstring := s.

Definition comment_params (signal : option AbortSignal) : SuggestParams :=
  {| sc_pdfText := str "General notes. Slab on grade, 150 mm.";
     sc_highlightText := str "Slab on grade";
     sc_pageNumber := Some 2;
     sc_projectName := Some (str "Depot");
     sc_model := None;
     sc_apiKey := None;
     sc_abortSignal := signal |}.

Definition ask_params : AskParams :=
  {| ae_pdfText := str "General notes."; ae_question := str "@search rebar";
     ae_model := None; ae_apiKey := None; ae_abortSignal := None;
     ae_history := None |}.

Definition focus_params : FocusParams :=
  {| nf_pdfText := str "General notes."; nf_model := None; nf_apiKey := None |}.

(** *** Highlights *)

Import Annotations.

Definition origin : Scaled :=
  {| x1 := 0; y1 := 0; x2 := 1; y2 := 1; width := 1; height := 1;
     scaledPageNumber := Some 1 |}.

Definition reply_old : CommentReply :=
  {| reply_id := str "r0"; reply_text := str "noted"; authorUid := None;
     reply_createdAt := 1 |}.

Definition highlight_a : RichHighlight :=
  {| id := str "a";
     position := {| boundingRect := origin; rects := []; pageNumber := 1 |};
     content := {| content_text := Some (str "Slab"); image := None |};
     comment := {| comment_text := str "thickness?"; emoji := [] |};
     meta := Some {| severity := str "high"; category := str "design";
                     replies := Some [reply_old] |} |}.

Definition highlight_b : RichHighlight :=
  {| id := str "b";
     position := {| boundingRect := origin; rects := []; pageNumber := 2 |};
     content := {| content_text := None; image := None |};
     comment := {| comment_text := str "ok"; emoji := [] |};
     meta := None |}.

Definition drafts : gmap jsstring jsstring := {[ str "a" := str "  agreed " ]}.

End Samples.

(** ** Further sample inputs *)

Module Cases.
Import Store Samples.

(** A store that rejects the write of the chunk with index 2. *)
Definition rejects_chunk_2 (op : Op) : bool :=
  match op with
  | SetChunk _ _ d => index d =? 2
  | _ => false
  end.

(** Document ids in the reverse order of the indices. *)
Definition reversed_key (j : N) : jsstring :=
  match j with
  | 0 => str "d"
  | 1 => str "c"
  | 2 => str "b"
  | _ => str "a"
  end.

(** The chunks of [hello_pdf] at chunk bound 4, stored under
    [reversed_key]. *)
Definition hello_reversed : State :=
  {| fs := {| pdfs := ∅;
              chunks := {[ doc1 :=
                list_to_map
                  [(str "d", {| index := 0; data := str "SGVs" |});
                   (str "c", {| index := 1; data := str "bG8s" |});
                   (str "b", {| index := 2; data := str "IHdv" |});
                   (str "a", {| index := 3; data := str "cmxk" |})] ]};
              annotations := ∅ |};
     log := []; ui := initial_ui |}.

(** The same document with an asterisk in its second chunk. *)
Definition hello_corrupt : State :=
  setFs (set_chunk doc1 (Keys.chunkId 1) {| index := 1; data := str "bG*s" |})
        hello_uploaded.

Definition doc2 : jsstring := str "doc2".

(** A second document, uploaded at a later server time. *)
Definition both_uploaded : State :=
  handleAddPdf reliable true true 4 None 7 doc2 (Some hello_pdf) hello_uploaded.

End Cases.

(** ** Sample highlights and conversations *)

Module EditorCases.
Import Annotations Samples.

(** A highlight of low severity on page 3. *)
Definition highlight_c : RichHighlight :=
  {| id := str "c";
     position := {| boundingRect := origin; rects := []; pageNumber := 3 |};
     content := {| content_text := Some (str "Rebar"); image := None |};
     comment := {| comment_text := str "spacing"; emoji := [] |};
     meta := Some {| severity := str "low"; category := str "spec";
                     replies := None |} |}.

(** A critical highlight on page 5. *)
Definition highlight_d : RichHighlight :=
  {| id := str "d";
     position := {| boundingRect := origin; rects := []; pageNumber := 5 |};
     content := {| content_text := Some (str "Exit"); image := None |};
     comment := {| comment_text := str "blocked"; emoji := [] |};
     meta := Some {| severity := str "critical"; category := str "safety";
                     replies := Some [] |} |}.

(** The highlights in the order they were made, the latest first. *)
Definition all_highlights : list RichHighlight :=
  [highlight_b; highlight_c; highlight_a; highlight_d].

Definition moved : Position :=
  {| boundingRect := origin; rects := [origin]; pageNumber := 4 |}.

Definition retyped : Content :=
  {| content_text := Some (str "Slab on grade"); image := None |}.

Definition selection : Editor.NewHighlight :=
  {| Editor.new_position := moved; Editor.new_content := retyped |}.

(** An editor whose store holds [highlight_d] for document [doc1]. *)
Definition editor_state : Editor.EditorState :=
  {| Editor.ed_fs :=
       {| Store.pdfs := ∅; Store.chunks := ∅;
          Store.annotations :=
            {[ doc1 := {| Store.highlights := [highlight_d];
                          Store.updatedAt := 1 |} ]} |};
     Editor.ed_log := [];
     Editor.ed_highlights := [highlight_d];
     Editor.ed_isLoading := false;
     Editor.ed_error := None |}.

(** A store that rejects every write of annotations. *)
Definition rejects_saves (op : Editor.AnnotationOp) : bool :=
  match op with
  | Editor.SetAnnotations _ _ => true
  | Editor.GetAnnotations _ => false
  end.

Definition accepts_all (_ : Editor.AnnotationOp) : bool := false.

(** The uploaded document of [hello_uploaded] with one stored
    highlight. *)
Definition hello_annotated : Store.State :=
  Store.setFs
    (fun f => {| Store.pdfs := Store.pdfs f; Store.chunks := Store.chunks f;
                 Store.annotations :=
                   {[ doc1 := {| Store.highlights := [highlight_d];
                                 Store.updatedAt := 1 |} ]} |})
    hello_uploaded.

End EditorCases.

(** ** Sample conversations *)

Module ChatCases.
Import AI Samples.

Definition turn (r : Role) (s : string) : ChatMessage :=
  {| role := r; content := str s |}.

(** Ten recent messages after two old ones. *)
Definition recent : list ChatMessage :=
  [turn user "q1"; turn assistant "a1"; turn user "q2"; turn assistant "a2";
   turn user "q3"; turn assistant "a3"; turn user "q4"; turn assistant "a4";
   turn user "q5"; turn assistant "a5"].

Definition old : list ChatMessage := [turn user "q0"; turn assistant "a0"].

(** Two excerpts that differ only after their first 4,000 characters. *)
Definition long_x : jsstring := replicate 4000 "a"%char ++ str "x".
Definition long_y : jsstring := replicate 4000 "a"%char ++ str "y".

(** An answer whose [output] is an object that cannot be iterated,
    such as [{}], and a provider that sends a given answer. *)
Definition not_iterable : ResponsesLike :=
  {| output_text := None; output := Some NotIterable; outputs := None;
     choices := None |}.

Definition primary_sends (resp : ResponsesLike) (_ : Request)
  : reply ResponsesLike := Resolves resp.

(** A box with a question typed in and no history. *)
Definition box : ExpertBox.BoxState :=
  {| ExpertBox.query := str " what slab? "; ExpertBox.isLoading := false;
     ExpertBox.messages := [] |}.

End ChatCases.

(** ** The codec is lossless *)

Module Base64Facts.
Import Base64.

(** Induction in steps of three, following the recursion of [btoa]. *)
Lemma list_ind3 {A} (P : list A -> Prop) :
  P [] -> (forall a, P [a]) -> (forall a b, P [a; b]) ->
  (forall a b c l, P l -> P (a :: b :: c :: l)) ->
  forall l, P l.
Proof.
  intros H0 H1 H2 H3 l.
  enough (P l /\ (forall a, P (a :: l)) /\ (forall a b, P (a :: b :: l)))
    by tauto.
  induction l as [|x l IH]; [auto|].
  destruct IH as (IH0 & IH1 & IH2). auto.
Qed.

(** The sextets [btoa] emits, before they are mapped to characters. *)
Fixpoint enc_sextets (s : jsstring) : list N :=
  match s with
  | [] => []
  | [a] =>
      let x := N_of_ascii a in [x / 4; (x mod 4) * 16]
  | [a; b] =>
      let x := N_of_ascii a in
      let y := N_of_ascii b in
      [x / 4; (x mod 4) * 16 + y / 16; (y mod 16) * 4]
  | a :: b :: c :: rest =>
      let x := N_of_ascii a in
      let y := N_of_ascii b in
      let z := N_of_ascii c in
      x / 4 :: (x mod 4) * 16 + y / 16 :: (y mod 16) * 4 + z / 64 ::
      z mod 64 :: enc_sextets rest
  end.

Fixpoint padding (s : jsstring) : jsstring :=
  match s with
  | [] => []
  | [_] => [pad; pad]
  | [_; _] => [pad]
  | _ :: _ :: _ :: rest => padding rest
  end.

Lemma btoa_split s : btoa s = map b64char (enc_sextets s) ++ padding s.
Proof.
  induction s as [| | |a b c l IH] using list_ind3; try reflexivity.
  cbn [btoa enc_sextets padding map app]. now rewrite IH.
Qed.

Lemma enc_sextets_bound s : Forall (fun v => v < 64) (enc_sextets s).
Proof.
  induction s as [|a|a b|a b c l IH] using list_ind3;
    cbn [enc_sextets]; repeat (apply Forall_cons; split);
    try (apply List.Forall_nil); try assumption;
    try pose proof (N_ascii_bounded a); try pose proof (N_ascii_bounded b);
    try pose proof (N_ascii_bounded c); arith.
Qed.

Lemma b64val_b64char n : n < 64 -> b64val (b64char n) = Some n.
Proof.
  intros Hn.
  assert (Hall : forallb (fun k => match b64val (b64char k) with
                                   | Some k' => k' =? k
                                   | None => false
                                   end)
                   (map N.of_nat (seq 0 64)) = true) by (vm_compute; reflexivity).
  rewrite forallb_forall in Hall.
  specialize (Hall n).
  destruct (b64val (b64char n)) as [k'|].
  - f_equal. apply N.eqb_eq, Hall.
    apply in_map_iff. exists (N.to_nat n). split; [lia|].
    apply in_seq. lia.
  - exfalso. enough (false = true) by discriminate. apply Hall.
    apply in_map_iff. exists (N.to_nat n). split; [lia|].
    apply in_seq. lia.
Qed.

Lemma whitespace_not_alphabet c :
  is_ascii_whitespace c = true -> b64val c = None.
Proof.
  destruct c as [[] [] [] [] [] [] [] []]; vm_compute; congruence.
Qed.

Lemma b64char_not_pad n : n < 64 -> b64char n <> pad.
Proof.
  intros Hn E. apply b64val_b64char in Hn. rewrite E in Hn. discriminate.
Qed.

Lemma b64char_not_whitespace n :
  n < 64 -> is_ascii_whitespace (b64char n) = false.
Proof.
  intros Hn. destruct (is_ascii_whitespace (b64char n)) eqn:E; [|reflexivity].
  apply whitespace_not_alphabet in E.
  rewrite (b64val_b64char n Hn) in E. discriminate.
Qed.

Lemma sextets_map_b64char vs :
  Forall (fun v => v < 64) vs -> sextets (map b64char vs) = Some vs.
Proof.
  induction 1 as [|v vs Hv _ IH]; [reflexivity|].
  cbn [map sextets]. now rewrite (b64val_b64char v Hv), IH.
Qed.

Lemma ascii_of_N_eq a e : e = N_of_ascii a -> ascii_of_N e = a.
Proof. intros ->. apply ascii_N_embedding. Qed.

Lemma decode_enc_sextets s : decode_sextets (enc_sextets s) = s.
Proof.
  induction s as [|a|a b|a b c l IH] using list_ind3;
    cbn [enc_sextets decode_sextets]; rewrite ?IH;
    try pose proof (N_ascii_bounded a); try pose proof (N_ascii_bounded b);
    try pose proof (N_ascii_bounded c);
    repeat match goal with
           | |- _ :: _ = _ :: _ => f_equal
           end;
    try reflexivity; apply ascii_of_N_eq; arith.
Qed.

Lemma length_btoa s : JS.length (btoa s) = 4 * ((JS.length s + 2) / 3).
Proof.
  unfold JS.length.
  induction s as [|a|a b|a b c l IH] using list_ind3; try reflexivity.
  cbn [btoa List.length]. revert IH.
  generalize (List.length (btoa l)) (List.length l). intros n m IH. arith.
Qed.

Lemma length_enc_sextets s :
  N.of_nat (List.length (enc_sextets s)) mod 4 <> 1.
Proof.
  induction s as [|a|a b|a b c l IH] using list_ind3;
    cbn [enc_sextets List.length]; try (vm_compute; discriminate).
  revert IH. generalize (List.length (enc_sextets l)). intros n IH. arith.
Qed.

Lemma padding_cases s :
  padding s = [] \/
  (enc_sextets s <> [] /\ (padding s = [pad] \/ padding s = [pad; pad])).
Proof.
  induction s as [|a|a b|a b c l IH] using list_ind3;
    cbn [padding enc_sextets].
  - now left.
  - right. split; [discriminate|auto].
  - right. split; [discriminate|auto].
  - destruct IH as [IH|[_ IH]]; [now left|].
    right. split; [discriminate|exact IH].
Qed.

Lemma btoa_no_whitespace s : remove_whitespace (btoa s) = btoa s.
Proof.
  unfold remove_whitespace. rewrite btoa_split.
  rewrite List.filter_app. f_equal.
  - pose proof (enc_sextets_bound s) as Hb.
    induction Hb as [|v vs Hv _ IH]; [reflexivity|].
    cbn [map List.filter]. rewrite (b64char_not_whitespace v Hv). cbn.
    now rewrite IH.
  - destruct (padding_cases s) as [E|[_ [E|E]]]; rewrite E; reflexivity.
Qed.

Lemma rev_alphabet_head vs :
  Forall (fun v => v < 64) vs ->
  match rev (map b64char vs) with
  | [] => vs = []
  | c :: _ => Ascii.eqb c pad = false
  end.
Proof.
  intros Hvs. destruct (rev (map b64char vs)) as [|c r] eqn:E.
  - apply (f_equal (@rev ascii)) in E. rewrite rev_involutive in E.
    now destruct vs.
  - assert (Hin : In c (map b64char vs)).
    { apply in_rev. rewrite E. now left. }
    apply in_map_iff in Hin. destruct Hin as (v & <- & Hv).
    rewrite List.Forall_forall in Hvs. apply Hvs in Hv.
    apply Ascii.eqb_neq. now apply b64char_not_pad.
Qed.

Lemma strip_padding_btoa s :
  strip_padding (btoa s) = map b64char (enc_sextets s).
Proof.
  unfold strip_padding. rewrite length_btoa.
  replace (4 * ((JS.length s + 2) / 3) mod 4 =? 0) with true
    by (symmetry; apply N.eqb_eq; arith).
  rewrite btoa_split, rev_app_distr.
  pose proof (rev_alphabet_head _ (enc_sextets_bound s)) as Hhd.
  destruct (padding_cases s) as [E|[Hne [E|E]]]; rewrite E; cbn [rev app].
  - rewrite app_nil_r.
    destruct (rev (map b64char (enc_sextets s))) as [|c1 [|c2 r]];
      try rewrite Hhd; reflexivity.
  - destruct (rev (map b64char (enc_sextets s))) as [|c2 r] eqn:R;
      [contradiction|].
    change (Ascii.eqb pad pad) with true. cbv iota. rewrite Hhd.
    change (rev r ++ [c2]) with (rev (c2 :: r)). rewrite <- R. apply rev_involutive.
  - change (Ascii.eqb pad pad) with true. cbv iota.
    apply rev_involutive.
Qed.

(** [atob] inverts [btoa] on every binary string. *)
Lemma atob_btoa s : atob (btoa s) = Some s.
Proof.
  unfold atob. rewrite btoa_no_whitespace, strip_padding_btoa.
  assert (Hlen : (JS.length (map b64char (enc_sextets s)) mod 4 =? 1) = false).
  { apply N.eqb_neq. unfold JS.length. rewrite length_map.
    apply length_enc_sextets. }
  rewrite Hlen, (sextets_map_b64char _ (enc_sextets_bound s)).
  now rewrite decode_enc_sextets.
Qed.

(** Whole groups of three code units are encoded on their own. *)
Lemma btoa_app x : forall m y,
  List.length x = (3 * m)%nat -> btoa (x ++ y) = btoa x ++ btoa y.
Proof.
  induction x as [|a|a b|a b c x IH] using list_ind3; intros m y Hlen;
    cbn [List.length] in Hlen; try lia.
  - reflexivity.
  - cbn [app btoa]. rewrite (IH (m - 1)%nat) by lia. reflexivity.
Qed.

Lemma take_btoa m : forall y,
  (3 * m <= List.length y)%nat ->
  take (4 * m) (btoa y) = btoa (take (3 * m) y).
Proof.
  induction m as [|m IH]; intros y Hlen; [reflexivity|].
  destruct y as [|a [|b [|c y]]]; cbn [List.length] in Hlen; try lia.
  replace (4 * S m)%nat with (S (S (S (S (4 * m))))) by lia.
  replace (3 * S m)%nat with (S (S (S (3 * m)))) by lia.
  cbn [btoa take]. rewrite IH by lia. reflexivity.
Qed.

Lemma drop_btoa m : forall y,
  (3 * m <= List.length y)%nat ->
  drop (4 * m) (btoa y) = btoa (drop (3 * m) y).
Proof.
  induction m as [|m IH]; intros y Hlen; [reflexivity|].
  destruct y as [|a [|b [|c y]]]; cbn [List.length] in Hlen; try lia.
  replace (4 * S m)%nat with (S (S (S (S (4 * m))))) by lia.
  replace (3 * S m)%nat with (S (S (S (3 * m)))) by lia.
  cbn [btoa drop]. rewrite IH by lia. reflexivity.
Qed.

(** Cutting a whole number of four-character groups out of a base64
    text leaves the encoding of the bytes outside the cut. *)
Lemma btoa_cut y a b :
  (a <= b)%nat -> (3 * b <= List.length y)%nat ->
  take (4 * a) (btoa y) ++ drop (4 * b) (btoa y) =
  btoa (take (3 * a) y ++ drop (3 * b) y).
Proof.
  intros Hab Hb. rewrite take_btoa, drop_btoa by lia.
  symmetry. apply (btoa_app _ a). rewrite length_take. lia.
Qed.

End Base64Facts.

(** ** Facts about chunk keys *)

Module KeysFacts.
Import Keys Derived.

Lemma N_of_ascii_digit d : d < 10 -> N_of_ascii (digit d) = 48 + d.
Proof. intros Hd. unfold digit. apply N_ascii_embedding. lia. Qed.

Lemma length_snoc {A} (s : list A) (c : A) :
  N.of_nat (List.length (s ++ [c])) = N.of_nat (List.length s) + 1.
Proof. rewrite length_app. cbn. lia. Qed.

Lemma value_snoc s c :
  value (s ++ [c]) = value s * 10 + (N_of_ascii c - 48).
Proof.
  induction s as [|a s IH]; cbn [app value].
  - change (10 ^ JS.length []) with 1. lia.
  - rewrite IH. unfold JS.length. rewrite length_snoc.
    rewrite N.pow_add_r. lia.
Qed.

Lemma value_bound s : Forall is_digit s -> value s < 10 ^ JS.length s.
Proof.
  unfold JS.length.
  induction 1 as [|c s Hc _ IH]; [cbn; lia|].
  cbn [value List.length]. unfold JS.length.
  replace (N.of_nat (S (List.length s))) with (N.of_nat (List.length s) + 1) by lia.
  rewrite N.pow_add_r. unfold is_digit in Hc.
  generalize dependent (10 ^ N.of_nat (List.length s)). intros p IH. nia.
Qed.

Lemma toString_aux_S f n acc :
  toString_aux (S f) n acc =
  if n / 10 =? 0 then digit (n mod 10) :: acc
  else toString_aux f (n / 10) (digit (n mod 10) :: acc).
Proof. reflexivity. Qed.

(** What the digit loop computes, when its fuel covers the binary size
    of [n]. *)
Lemma toString_aux_spec f : forall n acc,
  n < 2 ^ N.of_nat (S f) ->
  exists ds,
    toString_aux (S f) n acc = ds ++ acc /\
    Forall is_digit ds /\ value ds = n /\
    (ds <> []) /\
    (forall m, 0 < m -> n < 10 ^ m -> JS.length ds <= m).
Proof.
  induction f as [|f IH]; intros n acc Hn.
  - assert (n / 10 = 0) by (change (2 ^ N.of_nat 1) with 2 in Hn; arith).
    exists [digit (n mod 10)]. rewrite toString_aux_S, H. cbn [N.eqb].
    assert (Hd : n mod 10 < 10) by arith.
    repeat split.
    + constructor; [|constructor]. unfold is_digit.
      rewrite (N_of_ascii_digit _ Hd). arith.
    + cbn [value]. rewrite (N_of_ascii_digit _ Hd).
      change (10 ^ JS.length []) with 1. arith.
    + discriminate.
    + intros m Hm _. unfold JS.length. cbn [List.length]. lia.
  - rewrite toString_aux_S. destruct (n / 10 =? 0) eqn:E.
    + apply N.eqb_eq in E.
      exists [digit (n mod 10)].
      assert (Hd : n mod 10 < 10) by arith.
      repeat split.
      * constructor; [|constructor]. unfold is_digit.
        rewrite (N_of_ascii_digit _ Hd). arith.
      * cbn [value]. rewrite (N_of_ascii_digit _ Hd).
      change (10 ^ JS.length []) with 1. arith.
      * discriminate.
      * intros m Hm _. unfold JS.length. cbn [List.length]. lia.
    + apply N.eqb_neq in E.
      assert (Hn' : n / 10 < 2 ^ N.of_nat (S f)).
      { replace (N.of_nat (S (S f))) with (N.of_nat (S f) + 1) in Hn by lia.
        rewrite N.pow_add_r in Hn. change (2 ^ 1) with 2 in Hn.
        generalize dependent (2 ^ N.of_nat (S f)). intros p Hp. arith. }
      destruct (IH (n / 10) (digit (n mod 10) :: acc) Hn')
        as (ds & Hrun & Hdig & Hval & Hne & Hlen).
      exists (ds ++ [digit (n mod 10)]).
      assert (Hd : n mod 10 < 10) by arith.
      repeat split.
      * rewrite Hrun. now rewrite <- app_assoc.
      * apply Forall_app. split; [assumption|].
        constructor; [|constructor]. unfold is_digit.
        rewrite (N_of_ascii_digit _ Hd). arith.
      * rewrite value_snoc, Hval, (N_of_ascii_digit _ Hd). arith.
      * destruct ds; discriminate.
      * intros m Hm Hlt. unfold JS.length in *. rewrite length_snoc.
        assert (Hm1 : 0 < m - 1).
        { destruct (N.eq_dec m 1) as [->|]; [|lia].
          change (10 ^ 1) with 10 in Hlt. arith. }
        specialize (Hlen (m - 1) Hm1).
        assert (n / 10 < 10 ^ (m - 1)).
        { replace m with (m - 1 + 1) in Hlt by lia.
          rewrite N.pow_add_r in Hlt. change (10 ^ 1) with 10 in Hlt.
          generalize dependent (10 ^ (m - 1)). intros p _ Hp. arith. }
        specialize (Hlen H). lia.
Qed.

Lemma toString_spec n :
  Forall is_digit (toString n) /\ value (toString n) = n /\
  toString n <> [] /\
  (forall m, 0 < m -> n < 10 ^ m -> JS.length (toString n) <= m).
Proof.
  unfold toString.
  assert (Hn : n < 2 ^ N.of_nat (S (N.to_nat (N.log2 n)))).
  { replace (N.of_nat (S (N.to_nat (N.log2 n)))) with (N.succ (N.log2 n)) by lia.
    destruct (N.eq_dec n 0) as [->|Hpos]; [cbn; lia|].
    apply N.log2_spec. lia. }
  destruct (toString_aux_spec _ n [] Hn) as (ds & Hrun & H).
  rewrite Hrun, app_nil_r. exact H.
Qed.

Lemma zero_fill m :
  take m (concat (replicate m (str "0"))) = replicate m "0"%char.
Proof.
  assert (E : concat (replicate m (str "0")) = replicate m "0"%char).
  { induction m as [|m IH]; [reflexivity|].
    cbn [replicate concat]. now rewrite IH. }
  rewrite E. apply firstn_all2. now rewrite length_replicate.
Qed.

Lemma chunkId_unfold i :
  chunkId i =
  if 6 <=? JS.length (toString i) then toString i
  else replicate (N.to_nat (6 - JS.length (toString i))) "0"%char ++ toString i.
Proof.
  unfold chunkId, padStart. change (JS.length (str "0") =? 0) with false.
  rewrite orb_false_r. cbv zeta.
  destruct (6 <=? JS.length (toString i)); [reflexivity|].
  now rewrite zero_fill.
Qed.

Lemma value_zeros m s : value (replicate m "0"%char ++ s) = value s.
Proof. induction m as [|m IH]; [reflexivity|]. cbn [replicate app value]. rewrite IH. cbn. lia. Qed.

Lemma chunkId_value i : value (chunkId i) = i.
Proof.
  rewrite chunkId_unfold. destruct (toString_spec i) as (_ & Hv & _).
  destruct (6 <=? JS.length (toString i)); [assumption|].
  now rewrite value_zeros.
Qed.

Lemma chunkId_inj i j : chunkId i = chunkId j -> i = j.
Proof.
  intros E. rewrite <- (chunkId_value i), <- (chunkId_value j). now rewrite E.
Qed.

Lemma chunkId_digits i : Forall is_digit (chunkId i).
Proof.
  rewrite chunkId_unfold. destruct (toString_spec i) as (Hd & _).
  destruct (6 <=? JS.length (toString i)); [assumption|].
  apply Forall_app. split; [|assumption].
  apply Forall_replicate. unfold is_digit. cbn. lia.
Qed.

Lemma chunkId_length i : i < 1000000 -> JS.length (chunkId i) = 6.
Proof.
  intros Hi. rewrite chunkId_unfold.
  destruct (toString_spec i) as (_ & _ & _ & Hlen).
  specialize (Hlen 6 ltac:(lia) Hi).
  destruct (6 <=? JS.length (toString i)) eqn:E.
  - apply N.leb_le in E. lia.
  - unfold JS.length in *. rewrite length_app, length_replicate. lia.
Qed.

(** Among digit strings of one length, the order of the strings is the
    order of the numbers. *)
Lemma lex_compare_digits s : forall t,
  Forall is_digit s -> Forall is_digit t ->
  List.length s = List.length t ->
  value s < value t -> lex_compare s t = Lt.
Proof.
  induction s as [|c s IH]; intros [|d t] Hs Ht Hlen Hv; try discriminate.
  apply Forall_cons in Hs as [Hc Hs]. apply Forall_cons in Ht as [Hd Ht].
  injection Hlen as Hlen.
  pose proof (value_bound s Hs) as Bs. pose proof (value_bound t Ht) as Bt.
  cbn [value] in Hv. unfold JS.length in *. rewrite Hlen in *.
  unfold is_digit in Hc, Hd. cbn [lex_compare].
  destruct (N.compare_spec (N_of_ascii c) (N_of_ascii d)) as [E|L|G].
  - apply IH; auto. rewrite E in Hv. lia.
  - reflexivity.
  - exfalso. generalize dependent (10 ^ N.of_nat (List.length t)).
    intros p Hv Bs Bt. nia.
Qed.

(** Below one million, key order is index order. *)
Lemma chunkId_lt i j :
  i < j -> j < 1000000 -> lex_lt (chunkId i) (chunkId j).
Proof.
  intros Hij Hj. apply lex_compare_digits.
  - apply chunkId_digits.
  - apply chunkId_digits.
  - pose proof (chunkId_length i ltac:(lia)) as Li.
    pose proof (chunkId_length j Hj) as Lj. unfold JS.length in *. lia.
  - now rewrite !chunkId_value.
Qed.

End KeysFacts.

(** ** Facts about the listing order *)

Module OrderFacts.
Import Keys Store.

Lemma N_of_ascii_inj c d : N_of_ascii c = N_of_ascii d -> c = d.
Proof.
  intros E. rewrite <- (ascii_N_embedding c), <- (ascii_N_embedding d).
  now rewrite E.
Qed.

Lemma lex_compare_antisym s : forall t,
  lex_compare t s = CompOpp (lex_compare s t).
Proof.
  induction s as [|c s IH]; intros [|d t]; try reflexivity.
  cbn [lex_compare]. rewrite (N.compare_antisym (N_of_ascii c) (N_of_ascii d)).
  destruct (N_of_ascii c ?= N_of_ascii d); cbn; auto.
Qed.

Lemma lex_compare_eq s : forall t, lex_compare s t = Eq -> s = t.
Proof.
  induction s as [|c s IH]; intros [|d t] E; try discriminate; [reflexivity|].
  cbn [lex_compare] in E.
  destruct (N.compare_spec (N_of_ascii c) (N_of_ascii d)) as [Hc| |];
    try discriminate.
  f_equal; [now apply N_of_ascii_inj | now apply IH].
Qed.

Lemma lex_compare_refl s : lex_compare s s = Eq.
Proof.
  induction s as [|c s IH]; [reflexivity|].
  cbn [lex_compare]. now rewrite N.compare_refl.
Qed.

Lemma key_leb_trans a : forall b c,
  key_leb a b = true -> key_leb b c = true -> key_leb a c = true.
Proof.
  unfold key_leb.
  induction a as [|x a IH]; intros [|y b] [|z c]; cbn [lex_compare];
    try reflexivity; try discriminate.
  destruct (N.compare_spec (N_of_ascii x) (N_of_ascii y)) as [E1|L1|G1];
    destruct (N.compare_spec (N_of_ascii y) (N_of_ascii z)) as [E2|L2|G2];
    try discriminate; intros H1 H2.
  - rewrite E1, E2, N.compare_refl. now apply (IH b c).
  - rewrite E1. now apply N.compare_lt_iff in L2 as ->.
  - rewrite <- E2. now apply N.compare_lt_iff in L1 as ->.
  - assert (L : N_of_ascii x < N_of_ascii z) by lia.
    now apply N.compare_lt_iff in L as ->.
Qed.

Lemma key_leb_total a b : key_leb a b = true \/ key_leb b a = true.
Proof.
  unfold key_leb. rewrite (lex_compare_antisym a b).
  destruct (lex_compare a b); cbn; auto.
Qed.

Lemma key_leb_antisym a b :
  key_leb a b = true -> key_leb b a = true -> a = b.
Proof.
  unfold key_leb. rewrite (lex_compare_antisym a b).
  destruct (lex_compare a b) eqn:E; cbn; try discriminate.
  intros _ _. now apply lex_compare_eq.
Qed.

#[export] Instance by_index_total : Total by_index.
Proof.
  intros [k1 d1] [k2 d2]. unfold by_index, by_index_leb. cbn [fst snd].
  rewrite (N.compare_antisym (index d1) (index d2)).
  destruct (index d1 ?= index d2); cbn; auto using key_leb_total.
Qed.

#[export] Instance by_index_trans : Transitive by_index.
Proof.
  intros [k1 d1] [k2 d2] [k3 d3]. unfold by_index, by_index_leb.
  cbn [fst snd].
  destruct (N.compare_spec (index d1) (index d2)) as [E1|L1|G1];
    destruct (N.compare_spec (index d2) (index d3)) as [E2|L2|G2];
    try discriminate; intros H1 H2.
  - rewrite E1, E2, N.compare_refl. eauto using key_leb_trans.
  - rewrite E1. now apply N.compare_lt_iff in L2 as ->.
  - rewrite <- E2. now apply N.compare_lt_iff in L1 as ->.
  - assert (L : index d1 < index d3) by lia.
    now apply N.compare_lt_iff in L as ->.
Qed.

Lemma by_index_antisym e1 e2 :
  by_index e1 e2 -> by_index e2 e1 -> fst e1 = fst e2.
Proof.
  destruct e1 as [k1 d1], e2 as [k2 d2]. unfold by_index, by_index_leb.
  cbn [fst snd]. rewrite (N.compare_antisym (index d1) (index d2)).
  destruct (index d1 ?= index d2); cbn; try discriminate.
  apply key_leb_antisym.
Qed.

#[export] Instance by_key_total : Total by_key.
Proof. intros [k1 d1] [k2 d2]. apply key_leb_total. Qed.

#[export] Instance by_key_trans : Transitive by_key.
Proof. intros [k1 d1] [k2 d2] [k3 d3]. apply key_leb_trans. Qed.

(** A listing is determined by the documents and their order: a sorted
    list holding exactly the entries of the collection is what the
    query returns. *)
Lemma listing_by_index (m : gmap jsstring ChunkDoc) l :
  map_to_list m ≡ₚ l -> Sorted by_index l ->
  merge_sort by_index (map_to_list m) = l.
Proof.
  intros Hperm Hsorted.
  apply (Sorted_unique_strong by_index).
  - intros [k1 d1] [k2 d2] H1 H2 R12 R21.
    pose proof (by_index_antisym _ _ R12 R21) as Ek. cbn in Ek. subst k2.
    rewrite merge_sort_Permutation in H1. rewrite <- Hperm in H2.
    apply elem_of_map_to_list in H1, H2. congruence.
  - apply Sorted_merge_sort. apply _.
  - assumption.
  - now rewrite merge_sort_Permutation.
Qed.

Lemma listing_by_key (m : gmap jsstring ChunkDoc) l :
  map_to_list m ≡ₚ l -> Sorted by_key l ->
  merge_sort by_key (map_to_list m) = l.
Proof.
  intros Hperm Hsorted.
  apply (Sorted_unique_strong by_key).
  - intros [k1 d1] [k2 d2] H1 H2 R12 R21.
    pose proof (key_leb_antisym _ _ R12 R21) as Ek. cbn in Ek. subst k2.
    rewrite merge_sort_Permutation in H1. rewrite <- Hperm in H2.
    apply elem_of_map_to_list in H1, H2. congruence.
  - apply Sorted_merge_sort. apply _.
  - assumption.
  - now rewrite merge_sort_Permutation.
Qed.

(** Inserting entries with new, distinct keys one after the other. *)
Lemma map_to_list_inserts (l : list (jsstring * ChunkDoc)) :
  forall m : gmap jsstring ChunkDoc,
  NoDup (map fst l) ->
  (forall e, e ∈ l -> m !! fst e = None) ->
  map_to_list (foldl (fun acc e => <[fst e := snd e]> acc) m l)
    ≡ₚ l ++ map_to_list m.
Proof.
  induction l as [|[k d] l IH]; intros m Hnd Hfresh; [reflexivity|].
  cbn [foldl fst snd]. apply NoDup_cons in Hnd as [Hk Hnd].
  rewrite IH; [| assumption |].
  - rewrite map_to_list_insert by (apply (Hfresh (k, d)); left).
    cbn [app]. now rewrite Permutation_middle.
  - intros e He. rewrite lookup_insert_ne.
    + apply Hfresh. now right.
    + intros ->. apply Hk. apply list_elem_of_fmap. exists e. split; auto.
Qed.

End OrderFacts.

(** ** Facts about slicing into chunks *)

Module ChunkFacts.
Import Store Derived.

Lemma length_indices n : forall i, List.length (indices n i) = n.
Proof. induction n as [|n IH]; intros i; cbn; [reflexivity|now rewrite IH]. Qed.

Lemma elem_of_indices n : forall i j,
  j ∈ indices n i <-> i <= j < i + N.of_nat n.
Proof.
  induction n as [|n IH]; intros i j; cbn [indices].
  - rewrite elem_of_nil. lia.
  - rewrite elem_of_cons, IH. lia.
Qed.

Lemma lookup_indices n : forall i m,
  (m < n)%nat -> indices n i !! m = Some (i + N.of_nat m).
Proof.
  induction n as [|n IH]; intros i m Hm; [lia|].
  destruct m as [|m]; cbn [indices lookup list_lookup].
  - f_equal. lia.
  - rewrite IH by lia. f_equal. lia.
Qed.

Lemma indices_app n1 n2 : forall i,
  indices (n1 + n2) i = indices n1 i ++ indices n2 (i + N.of_nat n1).
Proof.
  induction n1 as [|n1 IH]; intros i; cbn [indices Nat.add app].
  - f_equal. lia.
  - rewrite IH. do 3 f_equal. lia.
Qed.

Lemma indices_hd_rel n : forall i j, j < i -> HdRel N.lt j (indices n i).
Proof. destruct n; intros; constructor. assumption. Qed.

Lemma indices_sorted n : forall i, Sorted N.lt (indices n i).
Proof.
  induction n as [|n IH]; intros i; constructor; [apply IH|].
  apply indices_hd_rel. lia.
Qed.

Lemma indices_NoDup n i : NoDup (indices n i).
Proof.
  revert i. induction n as [|n IH]; intros i; constructor; [|apply IH].
  rewrite elem_of_indices. lia.
Qed.

Lemma take_take_drop {A} (l : list A) : forall n m,
  take n l ++ take m (drop n l) = take (n + m) l.
Proof.
  induction l as [|x l IH]; intros [|n] m; cbn; try reflexivity.
  - now destruct m.
  - now rewrite IH.
Qed.

Lemma slice_app s a b c :
  a <= b -> b <= c -> JS.slice s a b ++ JS.slice s b c = JS.slice s a c.
Proof.
  intros Hab Hbc. unfold JS.slice.
  replace (N.to_nat b) with (N.to_nat a + N.to_nat (b - a))%nat by lia.
  rewrite <- drop_drop, take_take_drop. f_equal. lia.
Qed.

Lemma slice_all s b : JS.length s <= b -> JS.slice s 0 b = s.
Proof.
  unfold JS.slice, JS.length. intros H. cbn [N.to_nat drop].
  rewrite drop_0. apply take_ge. lia.
Qed.

Lemma slice_from_start s a : JS.slice s 0 a = take (N.to_nat a) s.
Proof. unfold JS.slice. now rewrite N.sub_0_r. Qed.

Lemma slice_to_end s b c :
  JS.length s <= c -> JS.slice s b c = drop (N.to_nat b) s.
Proof.
  unfold JS.slice, JS.length. intros H.
  apply take_ge. rewrite length_drop. lia.
Qed.

Lemma indices_gap_sorted g m : forall i,
  Sorted N.lt (indices g i ++ indices m (i + N.of_nat g + 1)).
Proof.
  induction g as [|g IH]; intros i; cbn [indices app].
  - apply indices_sorted.
  - constructor.
    + replace (i + N.of_nat (S g) + 1) with (i + 1 + N.of_nat g + 1) by lia.
      apply IH.
    + destruct g; cbn [indices app].
      * apply indices_hd_rel. lia.
      * constructor. lia.
Qed.

(** The indices of an upload, split around index [g]. *)
Lemma indices_split n g :
  (g < n)%nat ->
  indices n 0 = indices g 0 ++ N.of_nat g :: indices (n - g - 1) (N.of_nat g + 1).
Proof.
  intros Hg. replace n with (g + S (n - g - 1))%nat at 1 by lia.
  rewrite indices_app. cbn [indices]. now rewrite N.add_0_l.
Qed.

Lemma length_slice s a b :
  JS.length (JS.slice s a b) = N.min (b - a) (JS.length s - a).
Proof.
  unfold JS.slice, JS.length. rewrite length_take, length_drop. lia.
Qed.

Section Bound.

Variable k : N.
Hypothesis Hk : 1 <= k.

Lemma chunkAt_slice s i : chunkAt k s i = JS.slice s (i * k) (i * k + k).
Proof.
  unfold chunkAt, JS.min, JS.slice.
  destruct (N.le_gt_cases (i * k + k) (JS.length s)) as [Hle|Hgt].
  - now rewrite N.min_r by assumption.
  - rewrite N.min_l by lia.
    rewrite !take_ge; [reflexivity| |];
      rewrite length_drop; unfold JS.length in *; lia.
Qed.

Lemma length_chunkAt s i :
  JS.length (chunkAt k s i) = N.min k (JS.length s - i * k).
Proof. rewrite chunkAt_slice, length_slice. f_equal. lia. Qed.

(** Consecutive chunks concatenate to the slice they cover. *)
Lemma concat_chunks s n : forall i,
  concat (map (chunkAt k s) (indices n i)) =
  JS.slice s (i * k) ((i + N.of_nat n) * k).
Proof.
  induction n as [|n IH]; intros i; cbn [indices map concat].
  - unfold JS.slice. replace ((i + N.of_nat 0) * k - i * k) with 0 by lia.
    reflexivity.
  - rewrite IH, chunkAt_slice.
    replace ((i + 1) * k) with (i * k + k) by lia.
    rewrite slice_app by lia. f_equal. lia.
Qed.

Lemma ceil_div_spec L :
  L <= JS.ceil_div L k * k /\ (0 < L -> (JS.ceil_div L k - 1) * k < L) /\
  (L = 0 -> JS.ceil_div L k = 0).
Proof.
  unfold JS.ceil_div. destruct (L mod k =? 0) eqn:E.
  - apply N.eqb_eq in E. repeat split; intros;
      zify; Z.to_euclidean_division_equations; nia.
  - apply N.eqb_neq in E. repeat split; intros;
      zify; Z.to_euclidean_division_equations; nia.
Qed.

(** Every chunk the loop writes is non-empty. *)
Lemma chunkAt_nonempty s i :
  i < JS.ceil_div (JS.length s) k -> chunkAt k s i <> [].
Proof.
  intros Hi E. pose proof (length_chunkAt s i) as Hlen. rewrite E in Hlen.
  destruct (ceil_div_spec (JS.length s)) as (_ & Hlast & Hzero).
  change (JS.length []) with 0 in Hlen.
  assert (0 < JS.length s) by (destruct (N.eq_dec (JS.length s) 0); [rewrite Hzero in Hi|]; lia).
  specialize (Hlast H). nia.
Qed.

End Bound.

End ChunkFacts.

(** ** Running the handlers against a reliable store *)

Module StoreFacts.
Import Keys Store Derived ChunkFacts OrderFacts KeysFacts.

(** The document [uploadLoop] writes at index [j], and its entry in the
    chunk collection. *)
Definition chunkDoc (k : N) (s : jsstring) (j : N) : ChunkDoc :=
  {| index := j; data := chunkAt k s j |}.

Definition entry (k : N) (s : jsstring) (j : N) : jsstring * ChunkDoc :=
  (chunkId j, chunkDoc k s j).

Lemma state_eta st : {| fs := fs st; log := log st; ui := ui st |} = st.
Proof. now destruct st. Qed.

Lemma uploadLoop_run k pdf s n : forall i st,
  uploadLoop reliable k pdf s n i st =
  (Resolved tt,
   {| fs := foldl (fun f j => set_chunk pdf (chunkId j) (chunkDoc k s j) f)
                  (fs st) (indices n i);
      log := log st ++
             map (fun j => SetChunk pdf (chunkId j) (chunkDoc k s j))
                 (indices n i);
      ui := ui st |}).
Proof.
  induction n as [|n IH]; intros i st.
  - cbn. now rewrite app_nil_r, state_eta.
  - cbn [uploadLoop indices foldl map]. unfold bind at 1.
    unfold setDoc, request, reliable. cbn [fst snd].
    rewrite IH. cbn [fs log ui setFs record].
    now rewrite <- app_assoc.
Qed.

Lemma chunksOf_set_chunk pdf c d f :
  chunksOf (set_chunk pdf c d f) pdf = <[c := d]> (chunksOf f pdf).
Proof. unfold chunksOf at 1, set_chunk. cbn. now rewrite lookup_insert_eq. Qed.

Lemma chunksOf_uploads k pdf s l : forall f,
  chunksOf (foldl (fun f j => set_chunk pdf (chunkId j) (chunkDoc k s j) f) f l) pdf =
  foldl (fun acc e => <[fst e := snd e]> acc) (chunksOf f pdf) (map (entry k s) l).
Proof.
  induction l as [|j l IH]; intros f; [reflexivity|].
  cbn [foldl map]. rewrite IH, chunksOf_set_chunk. reflexivity.
Qed.

Lemma entry_keys_NoDup k s l : NoDup l -> NoDup (map fst (map (entry k s) l)).
Proof.
  rewrite map_map. cbn [entry fst].
  induction 1 as [|j l Hj _ IH]; constructor; [|assumption].
  intros Hin. apply Hj. apply list_elem_of_fmap in Hin as (j' & E & Hj').
  apply chunkId_inj in E. now subst.
Qed.

Lemma entries_sorted k s l : Sorted N.lt l -> Sorted by_index (map (entry k s) l).
Proof.
  induction 1 as [|j l _ IH Hhd]; constructor; [assumption|].
  destruct Hhd as [|j' l Hlt]; constructor.
  unfold by_index, by_index_leb, entry. cbn [fst snd index chunkDoc].
  now apply N.compare_lt_iff in Hlt as ->.
Qed.

(** The chunks a listing contributes, when none of them is empty. *)
Lemma pushed_entries k s l :
  (forall j, j ∈ l -> chunkAt k s j <> []) ->
  omap pushedData (map (entry k s) l) = map (chunkAt k s) l.
Proof.
  induction l as [|j l IH]; intros Hne; [reflexivity|].
  cbn [map omap list_omap]. unfold pushedData at 1. cbn [entry snd chunkDoc data].
  destruct (chunkAt k s j) eqn:E.
  - exfalso. apply (Hne j); [left|assumption].
  - cbn [JS.truthy]. rewrite <- E. f_equal. apply IH.
    intros j' Hj'. apply Hne. now right.
Qed.

(** What [selectPdf] does once the listing has arrived. *)
Definition selectPdf_finish (item : PdfItem) (parts : list jsstring)
           (st : State) : State :=
  match parts with
  | [] => setSelectedPdfUrl None st
  | _ :: _ =>
      match Base64.atob (JS.join parts) with
      | None => setError (Some (MessageOf InvalidCharacterError)) st
      | Some byteCharacters =>
          let blob :=
            {| blob_bytes := map toUint8 (map charCodeAt byteCharacters);
               blob_type := JS.or_else (default [] (item_mimeType item))
                                    (str "application/pdf") |} in
          setSelectedPdfUrl (Some blob) (setPrevObjectUrl (Some blob) st)
      end
  end.

Lemma selectPdf_run item st l :
  map_to_list (chunksOf (fs st) (item_id item)) ≡ₚ l ->
  Sorted by_index l ->
  selectPdf reliable true item st =
  selectPdf_finish item (omap pushedData l)
    (record (ListChunksByIndex (item_id item))
            (setError None (setSelectedPdfId (Some (item_id item)) st))).
Proof.
  intros Hperm Hsorted.
  unfold selectPdf, try_catch, selectPdf_body, bind, getChunksByIndex, reliable.
  cbn [negb fst snd fs setError setSelectedPdfId record].
  rewrite (listing_by_index _ _ Hperm Hsorted).
  unfold selectPdf_finish.
  destruct (omap pushedData l); [reflexivity|].
  destruct (Base64.atob _); reflexivity.
Qed.

(** Bytes survive the trip through a binary string. *)
Lemma bytes_of_binary bytes :
  map toUint8 (map charCodeAt (map fromCharCode bytes)) = bytes.
Proof.
  rewrite !map_map. rewrite <- (map_id bytes) at 2.
  apply map_ext. intros b. unfold toUint8, charCodeAt, fromCharCode.
  pose proof (Byte.to_N_bounded b) as Hb.
  rewrite N_ascii_embedding by lia.
  rewrite N.mod_small by lia. now rewrite Byte.of_to_N.
Qed.

(** *** The upload, step by step *)

Definition mimeOf (file : File) : jsstring :=
  JS.or_else (file_type file) (str "application/pdf").

Definition metaOf (k : N) (uid : option jsstring) (now : N) (file : File)
  : PdfDoc :=
  {| name := file_name file; createdAt := now; ownerUid := uid;
     numChunks := numChunksOf k file; size := file_size file;
     mimeType := mimeOf file |}.

Definition itemOf (k : N) (newId : jsstring) (file : File) : PdfItem :=
  {| item_id := newId; item_name := file_name file;
     item_numChunks := Some (numChunksOf k file);
     item_size := Some (file_size file);
     item_mimeType := Some (mimeOf file) |}.

(** The requests of one upload, in the order they are issued. *)
Definition uploadRequests (k : N) (uid : option jsstring) (now : N)
           (newId : jsstring) (file : File) : list Op :=
  AddPdf newId (metaOf k uid now file) ::
  map (fun j => SetChunk newId (chunkId j) (chunkDoc k (base64Of file) j))
      (indices (N.to_nat (numChunksOf k file)) 0).

(** The state when the last chunk has been written. *)
Definition uploaded (k : N) (uid : option jsstring) (now : N)
           (newId : jsstring) (file : File) (st : State) : State :=
  {| fs := foldl (fun f j => set_chunk newId (chunkId j)
                               (chunkDoc k (base64Of file) j) f)
                 (add_pdf newId (metaOf k uid now file) (fs st))
                 (indices (N.to_nat (numChunksOf k file)) 0);
     log := log st ++ uploadRequests k uid now newId file;
     ui := ui (setLoading true (setError None st)) |}.

Lemma includes_truthy s sub : sub <> [] -> JS.includes s sub = true -> JS.truthy s = true.
Proof. destruct s, sub; cbn; congruence. Qed.

Lemma handleAddPdf_run k uid now newId file st :
  JS.includes (file_type file) (str "pdf") = true ->
  handleAddPdf reliable true true k uid now newId (Some file) st =
  setLoading false
    (selectPdf reliable true (itemOf k newId file)
       (setPdfs (fun prev => itemOf k newId file :: prev)
                (uploaded k uid now newId file st))).
Proof.
  intros Hpdf. unfold handleAddPdf.
  rewrite Hpdf, (includes_truthy _ (str "pdf")) by (assumption || discriminate).
  cbn [negb orb]. f_equal.
  unfold try_catch, handleAddPdf_body, bind at 1, addDoc, bind at 1,
    request, reliable, ret.
  unfold bind at 1. rewrite uploadLoop_run.
  unfold bind, update. cbn [fs log ui setFs record setLoading setError].
  unfold uploaded, uploadRequests, metaOf, itemOf, numChunksOf, mimeOf, base64Of.
  cbn [fs log ui setFs record setLoading setError].
  now rewrite <- app_assoc.
Qed.

(** The chunk collection of the new document after the upload. *)
Lemma uploaded_chunks k uid now newId file st :
  chunks (fs st) !! newId = None ->
  map_to_list (chunksOf (fs (uploaded k uid now newId file st)) newId)
    ≡ₚ map (entry k (base64Of file))
           (indices (N.to_nat (numChunksOf k file)) 0).
Proof.
  intros Hfresh. unfold uploaded. cbn [fs].
  rewrite chunksOf_uploads.
  assert (E : chunksOf (add_pdf newId (metaOf k uid now file) (fs st)) newId = ∅).
  { unfold chunksOf, add_pdf. cbn [chunks]. now rewrite Hfresh. }
  rewrite E, map_to_list_inserts.
  - now rewrite map_to_list_empty, app_nil_r.
  - apply entry_keys_NoDup, indices_NoDup.
  - intros e _. apply lookup_empty.
Qed.

End StoreFacts.

(** * Properties of the document store *)

Import Keys Store Derived ChunkFacts OrderFacts KeysFacts StoreFacts.

Lemma length_base64Of file :
  JS.length (base64Of file) = 4 * ((file_size file + 2) / 3).
Proof.
  unfold base64Of, file_size. rewrite Base64Facts.length_btoa.
  unfold JS.length. now rewrite length_map.
Qed.

Lemma atob_base64Of file :
  Base64.atob (base64Of file) = Some (map fromCharCode (file_bytes file)).
Proof. apply Base64Facts.atob_btoa. Qed.

(** The chunks of an upload, joined, are the base64 text again. *)
Lemma join_uploaded_chunks k file :
  1 <= k ->
  JS.join (map (chunkAt k (base64Of file))
               (indices (N.to_nat (numChunksOf k file)) 0)) = base64Of file.
Proof.
  intros Hk. unfold JS.join. rewrite (concat_chunks k Hk).
  rewrite N.mul_0_l. apply slice_all.
  destruct (ceil_div_spec k Hk (JS.length (base64Of file))) as (Hle & _).
  unfold numChunksOf. lia.
Qed.

Lemma selectPdf_finish_blob item parts st byteCharacters :
  parts <> [] ->
  Base64.atob (JS.join parts) = Some byteCharacters ->
  selectPdf_finish item parts st =
  let blob :=
    {| blob_bytes := map toUint8 (map charCodeAt byteCharacters);
       blob_type := JS.or_else (default [] (item_mimeType item))
                            (str "application/pdf") |} in
  setSelectedPdfUrl (Some blob) (setPrevObjectUrl (Some blob) st).
Proof.
  intros Hne Hatob. unfold selectPdf_finish.
  destruct parts; [contradiction|]. now rewrite Hatob.
Qed.

(** What [selectPdf] shows right after an upload: the listing holds the
    written chunks in index order. *)
Lemma select_after_upload k uid now newId file st :
  1 <= k ->
  chunks (fs st) !! newId = None ->
  selectPdf reliable true (itemOf k newId file)
    (setPdfs (fun prev => itemOf k newId file :: prev)
             (uploaded k uid now newId file st)) =
  selectPdf_finish (itemOf k newId file)
    (map (chunkAt k (base64Of file)) (indices (N.to_nat (numChunksOf k file)) 0))
    (record (ListChunksByIndex newId)
       (setError None
          (setSelectedPdfId (Some newId)
             (setPdfs (fun prev => itemOf k newId file :: prev)
                      (uploaded k uid now newId file st))))).
Proof.
  intros Hk Hfresh.
  rewrite (selectPdf_run _ _
             (map (entry k (base64Of file))
                  (indices (N.to_nat (numChunksOf k file)) 0))).
  - rewrite pushed_entries; [reflexivity|].
    intros j Hj. apply (chunkAt_nonempty k Hk).
    apply elem_of_indices in Hj. unfold numChunksOf in Hj. lia.
  - apply (uploaded_chunks k uid now newId file st Hfresh).
  - apply entries_sorted, indices_sorted.
Qed.

(** C1 (amended). Uploading a non-empty file and then reading it back
    shows exactly the bytes of the file, for every chunk bound [k >= 1];
    an empty file leaves no chunk and the viewer shows no document; the
    codec alone (join, then decode) returns the bytes in both cases. *)
Theorem roundtrip_upload_select k uid now newId file st :
  1 <= k ->
  JS.includes (file_type file) (str "pdf") = true ->
  chunks (fs st) !! newId = None ->
  (file_bytes file <> [] ->
   selectedPdfUrl (ui (handleAddPdf reliable true true k uid now newId (Some file) st))
   = Some {| blob_bytes := file_bytes file; blob_type := file_type file |} /\
   error (ui (handleAddPdf reliable true true k uid now newId (Some file) st)) = None)
  /\
  (file_bytes file = [] ->
   selectedPdfUrl (ui (handleAddPdf reliable true true k uid now newId (Some file) st))
   = None)
  /\
  option_map (fun byteCharacters => map toUint8 (map charCodeAt byteCharacters))
    (Base64.atob
       (JS.join (map (chunkAt k (base64Of file))
                     (indices (N.to_nat (numChunksOf k file)) 0))))
  = Some (file_bytes file).
Proof.
  intros Hk Hpdf Hfresh.
  rewrite (handleAddPdf_run k uid now newId file st Hpdf).
  rewrite (select_after_upload k uid now newId file st Hk Hfresh).
  pose proof (join_uploaded_chunks k file Hk) as Hjoin.
  pose proof (length_base64Of file) as HL.
  destruct (ceil_div_spec k Hk (JS.length (base64Of file))) as (Hle & Hlast & Hzero).
  fold (numChunksOf k file) in Hle, Hlast, Hzero.
  split; [|split].
  - intros Hne.
    assert (Hsize : 0 < file_size file).
    { unfold file_size. destruct (file_bytes file); [contradiction|cbn; lia]. }
    assert (Hn : 0 < numChunksOf k file) by (zify; Z.to_euclidean_division_equations; nia).
    rewrite (selectPdf_finish_blob _ _ _ (map fromCharCode (file_bytes file))).
    + cbn. rewrite bytes_of_binary. split; [|reflexivity].
      do 2 f_equal. unfold mimeOf.
      apply (includes_truthy _ (str "pdf")) in Hpdf; [|discriminate].
      destruct (file_type file); [discriminate|reflexivity].
    + destruct (N.to_nat (numChunksOf k file)) eqn:E; [lia|discriminate].
    + rewrite Hjoin. apply atob_base64Of.
  - intros Hempty.
    assert (Hn : numChunksOf k file = 0).
    { apply Hzero. rewrite HL. unfold file_size. rewrite Hempty. reflexivity. }
    rewrite Hn. reflexivity.
  - rewrite Hjoin, atob_base64Of. cbn [option_map]. now rewrite bytes_of_binary.
Qed.

Lemma roundtrip_upload_select_witness :
  selectedPdfUrl
    (ui (handleAddPdf reliable true true CHUNK_SIZE None 0 Samples.doc1
           (Some Samples.hello_pdf) Samples.initial_state))
  = Some {| blob_bytes := Samples.bytes_of "Hello, world";
            blob_type := str "application/pdf" |}.
Proof.
  destruct (roundtrip_upload_select CHUNK_SIZE None 0 Samples.doc1
              Samples.hello_pdf Samples.initial_state) as [H _].
  - unfold CHUNK_SIZE. lia.
  - reflexivity.
  - apply lookup_empty.
  - apply H. discriminate.
Defined.

(** C1, as stated, fails on the empty byte sequence: after uploading a
    file of zero bytes the viewer holds no document, not an empty one. *)
Lemma roundtrip_empty_file_counterexample :
  selectedPdfUrl
    (ui (handleAddPdf reliable true true CHUNK_SIZE None 0 Samples.doc1
           (Some Samples.empty_pdf) Samples.initial_state))
  <> Some {| blob_bytes := file_bytes Samples.empty_pdf;
             blob_type := file_type Samples.empty_pdf |}.
Proof. vm_compute. discriminate. Qed.

(** The requests [selectPdf] adds to the log, whatever the listing
    holds. *)
Lemma selectPdf_log item st :
  log (selectPdf reliable true item st) =
  log st ++ [ListChunksByIndex (item_id item)].
Proof.
  unfold selectPdf, try_catch, selectPdf_body, bind, getChunksByIndex, reliable.
  cbn [negb fst snd].
  destruct (omap pushedData _); [reflexivity|].
  destruct (Base64.atob _); reflexivity.
Qed.

Lemma selectPdf_fs item st : fs (selectPdf reliable true item st) = fs st.
Proof.
  unfold selectPdf, try_catch, selectPdf_body, bind, getChunksByIndex, reliable.
  cbn [negb fst snd].
  destruct (omap pushedData _); [reflexivity|].
  destruct (Base64.atob _); reflexivity.
Qed.

(** The requests of one run of [handleAddPdf]: the metadata, the chunks
    in index order, then the listing of [selectPdf]. *)
Lemma handleAddPdf_log k uid now newId file st :
  JS.includes (file_type file) (str "pdf") = true ->
  log (handleAddPdf reliable true true k uid now newId (Some file) st) =
  log st ++ uploadRequests k uid now newId file ++ [ListChunksByIndex newId].
Proof.
  intros Hpdf. rewrite (handleAddPdf_run k uid now newId file st Hpdf).
  cbn [setLoading log]. rewrite selectPdf_log. cbn [setPdfs uploaded log item_id itemOf].
  now rewrite <- app_assoc.
Qed.

(** C4. For every file and every chunk bound [k >= 1], the upload writes
    exactly [ceil(L / k)] chunks, [L] the length of the base64 text; every
    chunk but the last holds exactly [k] characters and the last holds
    between 1 and [k]. *)
Theorem upload_chunk_count_and_sizes k uid now newId file st :
  1 <= k ->
  JS.includes (file_type file) (str "pdf") = true ->
  exists (meta : PdfDoc) (written : list ChunkDoc),
    let L := JS.length (Base64.btoa (map fromCharCode (file_bytes file))) in
    let n := N.of_nat (List.length written) in
    log (handleAddPdf reliable true true k uid now newId (Some file) st) =
      log st ++ [AddPdf newId meta]
             ++ map (fun d => SetChunk newId (chunkId (index d)) d) written
             ++ [ListChunksByIndex newId] /\
    numChunks meta = n /\
    (* [n] is the ceiling of [L / k]: the least [m] with [L <= m * k] *)
    L <= n * k /\ (forall m, L <= m * k -> n <= m) /\
    forall i d, written !! i = Some d ->
      index d = N.of_nat i /\
      (N.of_nat i + 1 < n -> JS.length (data d) = k) /\
      (N.of_nat i + 1 = n -> 1 <= JS.length (data d) <= k).
Proof.
  intros Hk Hpdf.
  exists (metaOf k uid now file).
  exists (map (chunkDoc k (base64Of file)) (indices (N.to_nat (numChunksOf k file)) 0)).
  cbv zeta. fold (base64Of file).
  destruct (ceil_div_spec k Hk (JS.length (base64Of file))) as (Hle & Hlast & Hzero).
  fold (numChunksOf k file) in Hle, Hlast, Hzero.
  rewrite length_map, length_indices, N2Nat.id.
  split; [|split; [|split; [|split]]].
  - rewrite (handleAddPdf_log k uid now newId file st Hpdf).
    unfold uploadRequests. cbn [app]. rewrite map_map. reflexivity.
  - reflexivity.
  - exact Hle.
  - intros m Hm.
    destruct (N.eq_dec (JS.length (base64Of file)) 0) as [E|E].
    + rewrite (Hzero E). lia.
    + specialize (Hlast ltac:(lia)). nia.
  - intros i d Hd.
    apply list_lookup_fmap_Some in Hd as (j & -> & Hj).
    assert (Hi : (i < N.to_nat (numChunksOf k file))%nat).
    { apply lookup_lt_Some in Hj. now rewrite length_indices in Hj. }
    rewrite lookup_indices in Hj by assumption. injection Hj as <-.
    cbn [chunkDoc index data]. rewrite (length_chunkAt k Hk).
    rewrite N.add_0_l.
    assert (0 < JS.length (base64Of file)).
    { destruct (N.eq_dec (JS.length (base64Of file)) 0) as [E|]; [|lia].
      rewrite (Hzero E) in Hi. lia. }
    specialize (Hlast H).
    split; [reflexivity|]. split; intros Hn; nia.
Qed.

Lemma upload_chunk_count_and_sizes_witness :
  exists (meta : PdfDoc) (written : list ChunkDoc),
    log (handleAddPdf reliable true true 4 None 0 Samples.doc1
           (Some Samples.hello_pdf) Samples.initial_state) =
      [] ++ [AddPdf Samples.doc1 meta]
         ++ map (fun d => SetChunk Samples.doc1 (chunkId (index d)) d) written
         ++ [ListChunksByIndex Samples.doc1] /\
    numChunks meta = N.of_nat (List.length written) /\
    List.length written = 4%nat.
Proof.
  destruct (upload_chunk_count_and_sizes 4 None 0 Samples.doc1
              Samples.hello_pdf Samples.initial_state)
    as (meta & written & Hlog & Hn & Hhi & Hleast & _).
  - lia.
  - reflexivity.
  - exists meta, written. split; [exact Hlog|]. split; [exact Hn|].
    change (JS.length (Base64.btoa (map fromCharCode (file_bytes Samples.hello_pdf))))
      with 16 in Hhi, Hleast.
    specialize (Hleast 4 ltac:(lia)). lia.
Defined.

(** An upload at the chunk size of the source writes fewer than
    1,000,000 chunks unless the file has more than 375,000,000,000
    bytes. *)
Lemma chunk_count_bound file :
  file_size file <= 375000000000 ->
  JS.ceil_div (JS.length (base64Of file)) CHUNK_SIZE <= 1000000.
Proof.
  intros Hsize. rewrite length_base64Of. unfold CHUNK_SIZE, JS.ceil_div.
  set (s := file_size file) in *.
  destruct (N.eqb_spec ((4 * ((s + 2) / 3)) mod 500000) 0) as [E|E];
    zify; Z.to_euclidean_division_equations; lia.
Qed.

(** C5. One upload first writes the metadata record, then the chunks
    one after the other in index order, chunk [i] under the key
    [chunkId i]; that key is the index padded with zeros to exactly six
    digits, and for every two chunks [i < j] of the upload the key of
    chunk [i] is lexicographically smaller than the key of chunk [j].
    This is so for every file of at most 375,000,000,000 bytes, far
    more than the one array buffer and the one string that hold the
    file during the upload can take. *)
Theorem upload_order_and_keys uid now newId file st :
  JS.includes (file_type file) (str "pdf") = true ->
  file_size file <= 375000000000 ->
  let base64 := Base64.btoa (map fromCharCode (file_bytes file)) in
  let n := JS.ceil_div (JS.length base64) CHUNK_SIZE in
  (exists meta,
     log (handleAddPdf reliable true true CHUNK_SIZE uid now newId (Some file) st) =
     log st ++ AddPdf newId meta ::
       map (fun i => SetChunk newId (chunkId i)
                       {| index := i; data := chunkAt CHUNK_SIZE base64 i |})
           (indices (N.to_nat n) 0)
       ++ [ListChunksByIndex newId]) /\
  (forall i, i < n ->
     JS.length (chunkId i) = 6 /\ Forall is_digit (chunkId i) /\
     value (chunkId i) = i) /\
  (forall i j, i < j -> j < n -> lex_lt (chunkId i) (chunkId j)).
Proof.
  intros Hpdf Hsize base64 n.
  assert (Hn : n <= 1000000) by apply (chunk_count_bound file Hsize).
  split; [|split].
  - exists (metaOf CHUNK_SIZE uid now file).
    rewrite (handleAddPdf_log CHUNK_SIZE uid now newId file st Hpdf). reflexivity.
  - intros i Hi.
    assert (Hi' : i < 1000000) by lia.
    auto using chunkId_length, chunkId_digits, chunkId_value.
  - intros i j Hij Hj. apply chunkId_lt; [assumption|lia].
Qed.

Lemma upload_order_and_keys_witness :
  lex_lt (chunkId 0) (chunkId 2).
Proof.
  assert (Hsize : file_size Samples.large_pdf = 750001).
  { unfold file_size, Samples.large_pdf. cbn [file_bytes].
    now rewrite length_replicate, N2Nat.id. }
  destruct (upload_order_and_keys None 0 Samples.doc1 Samples.large_pdf
              Samples.initial_state) as (_ & _ & H).
  - reflexivity.
  - rewrite Hsize. lia.
  - apply H; [lia|].
    fold (base64Of Samples.large_pdf).
    rewrite length_base64Of, Hsize. vm_compute. reflexivity.
Defined.

(** * Reading a document with a missing chunk *)

Lemma chunksOf_delete_chunk pdf c f :
  chunksOf (delete_chunk pdf c f) pdf = delete c (chunksOf f pdf).
Proof. unfold chunksOf at 1, delete_chunk. cbn. now rewrite lookup_insert_eq. Qed.

Lemma handleAddPdf_fs k uid now newId file st :
  JS.includes (file_type file) (str "pdf") = true ->
  fs (handleAddPdf reliable true true k uid now newId (Some file) st) =
  fs (uploaded k uid now newId file st).
Proof.
  intros Hpdf. rewrite (handleAddPdf_run k uid now newId file st Hpdf).
  cbn [setLoading fs]. now rewrite selectPdf_fs.
Qed.

(** The listing after chunk [g] has been removed from an uploaded
    document. *)
Lemma chunks_without k uid now newId file st g :
  chunks (fs st) !! newId = None ->
  (g < N.to_nat (numChunksOf k file))%nat ->
  map_to_list
    (delete (chunkId (N.of_nat g))
            (chunksOf (fs (uploaded k uid now newId file st)) newId))
    ≡ₚ map (entry k (base64Of file))
           (indices g 0 ++
            indices (N.to_nat (numChunksOf k file) - g - 1) (N.of_nat g + 1)).
Proof.
  intros Hfresh Hg.
  pose proof (uploaded_chunks k uid now newId file st Hfresh) as Hall.
  rewrite (indices_split _ g Hg), map_app in Hall. cbn [map] in Hall.
  rewrite <- Permutation_middle in Hall.
  assert (Hin : chunksOf (fs (uploaded k uid now newId file st)) newId
                  !! chunkId (N.of_nat g)
                = Some (chunkDoc k (base64Of file) (N.of_nat g))).
  { apply elem_of_map_to_list. rewrite Hall. left. }
  rewrite <- (map_to_list_delete _ _ _ Hin) in Hall.
  apply Permutation_cons_inv in Hall. now rewrite Hall, map_app.
Qed.

Lemma bytes_of_binary_cut bytes a b :
  map toUint8 (map charCodeAt
    (take a (map fromCharCode bytes) ++ drop b (map fromCharCode bytes))) =
  take a bytes ++ drop b bytes.
Proof.
  rewrite firstn_map, skipn_map, <- map_app. apply bytes_of_binary.
Qed.

(** [selectPdf] reads the id and the MIME type of the item only: the
    chunk count recorded in the metadata plays no part. *)
Lemma selectPdf_ignores_numChunks rejects db item item' st :
  item_id item = item_id item' ->
  item_mimeType item = item_mimeType item' ->
  selectPdf rejects db item st = selectPdf rejects db item' st.
Proof.
  destruct item, item'. cbn [item_id item_mimeType]. intros -> ->. reflexivity.
Qed.

(** C2 (amended). Reading performs no gap check and never reports a
    missing chunk: when a chunk other than the last is missing from a
    document uploaded with a chunk bound that is a multiple of four (as
    500,000 is), reading reports no error, whatever chunk count the item
    records, and shows the original bytes without the block of the
    missing chunk. *)
Theorem select_with_missing_chunk k uid now newId file st g :
  1 <= k -> k mod 4 = 0 ->
  JS.includes (file_type file) (str "pdf") = true ->
  chunks (fs st) !! newId = None ->
  g + 1 < JS.ceil_div (JS.length (Base64.btoa (map fromCharCode (file_bytes file)))) k ->
  let st1 := handleAddPdf reliable true true k uid now newId (Some file) st in
  let st2 := setFs (delete_chunk newId (chunkId g)) st1 in
  (forall item,
     item_id item = newId -> item_mimeType item = Some (file_type file) ->
     selectedPdfUrl (ui (selectPdf reliable true item st2)) =
       Some {| blob_bytes :=
                 take (N.to_nat (g * k / 4 * 3)) (file_bytes file) ++
                 drop (N.to_nat ((g + 1) * k / 4 * 3)) (file_bytes file);
               blob_type := file_type file |} /\
     error (ui (selectPdf reliable true item st2)) = None).
Proof.
  intros Hk Hk4 Hpdf Hfresh Hg st1 st2 item Hid Hmime.
  fold (base64Of file) in Hg. fold (numChunksOf k file) in Hg.
  assert (Hgn : (N.to_nat g < N.to_nat (numChunksOf k file))%nat) by lia.
  pose proof (chunks_without k uid now newId file st (N.to_nat g) Hfresh Hgn) as Hperm.
  rewrite N2Nat.id in Hperm.
  set (pre := indices (N.to_nat g) 0) in *.
  set (post := indices (N.to_nat (numChunksOf k file) - N.to_nat g - 1) (g + 1)) in *.
  assert (Hfs : chunksOf (fs st2) (item_id item) =
                delete (chunkId g)
                  (chunksOf (fs (uploaded k uid now newId file st)) newId)).
  { rewrite Hid. unfold st2, st1. cbn [setFs fs].
    now rewrite chunksOf_delete_chunk, (handleAddPdf_fs _ _ _ _ _ _ Hpdf). }
  rewrite <- Hfs in Hperm.
  assert (Hsorted : Sorted by_index (map (entry k (base64Of file)) (pre ++ post))).
  { apply entries_sorted. unfold pre, post.
    replace (g + 1) with (0 + N.of_nat (N.to_nat g) + 1) by lia.
    apply indices_gap_sorted. }
  rewrite (selectPdf_run item st2 _ Hperm Hsorted).
  assert (Hin : forall j, j ∈ pre ++ post -> j < numChunksOf k file).
  { intros j Hj. apply elem_of_app in Hj as [Hj|Hj];
      apply elem_of_indices in Hj; lia. }
  rewrite pushed_entries
    by (intros j Hj; apply (chunkAt_nonempty k Hk); apply Hin, Hj).
  destruct (ceil_div_spec k Hk (JS.length (base64Of file))) as (Hle & Hlast & Hzero).
  fold (numChunksOf k file) in Hle, Hlast, Hzero.
  assert (Hpos : 0 < JS.length (base64Of file)).
  { destruct (N.eq_dec (JS.length (base64Of file)) 0) as [E|]; [|lia].
    rewrite (Hzero E) in Hg. lia. }
  specialize (Hlast Hpos).
  pose proof (length_base64Of file) as HL.
  (* the remaining chunks, joined *)
  assert (Hjoin : JS.join (map (chunkAt k (base64Of file)) (pre ++ post)) =
                  Base64.btoa
                    (take (N.to_nat (g * k / 4 * 3)) (map fromCharCode (file_bytes file)) ++
                     drop (N.to_nat ((g + 1) * k / 4 * 3)) (map fromCharCode (file_bytes file)))).
  { unfold JS.join. rewrite map_app, concat_app. unfold pre, post.
    rewrite !(concat_chunks k Hk).
    rewrite N.mul_0_l, N.add_0_l, slice_from_start, slice_to_end by lia.
    rewrite N2Nat.id.
    replace (N.to_nat (g * k)) with (4 * N.to_nat (g * k / 4))%nat
      by (zify; Z.to_euclidean_division_equations; nia).
    replace (N.to_nat ((g + 1) * k)) with (4 * N.to_nat ((g + 1) * k / 4))%nat
      by (zify; Z.to_euclidean_division_equations; nia).
    replace (N.to_nat (g * k / 4 * 3)) with (3 * N.to_nat (g * k / 4))%nat by lia.
    replace (N.to_nat ((g + 1) * k / 4 * 3)) with (3 * N.to_nat ((g + 1) * k / 4))%nat by lia.
    unfold base64Of. apply Base64Facts.btoa_cut.
    - zify; Z.to_euclidean_division_equations; nia.
    - rewrite length_map. unfold file_size in HL.
      zify; Z.to_euclidean_division_equations; nia. }
  assert (Hne : map (chunkAt k (base64Of file)) (pre ++ post) <> []).
  { unfold post.
    destruct (N.to_nat (numChunksOf k file) - N.to_nat g - 1)%nat eqn:E; [lia|].
    cbn [indices]. intros Habs. apply (f_equal (@List.length _)) in Habs.
    rewrite length_map, length_app in Habs. cbn in Habs. lia. }
  assert (Hatob : Base64.atob (JS.join (map (chunkAt k (base64Of file)) (pre ++ post))) =
                  Some (take (N.to_nat (g * k / 4 * 3)) (map fromCharCode (file_bytes file)) ++
                        drop (N.to_nat ((g + 1) * k / 4 * 3)) (map fromCharCode (file_bytes file)))).
  { rewrite Hjoin. apply Base64Facts.atob_btoa. }
  rewrite (selectPdf_finish_blob _ _ _ _ Hne Hatob).
  cbn. rewrite bytes_of_binary_cut, Hmime. cbn [default].
  split; [|reflexivity]. do 2 f_equal.
  apply (includes_truthy _ (str "pdf")) in Hpdf; [|discriminate].
  destruct (file_type file); [discriminate|reflexivity].
Qed.

Lemma select_with_missing_chunk_witness :
  selectedPdfUrl (ui (selectPdf reliable true Samples.hello_item Samples.hello_gap)) =
    Some {| blob_bytes := Samples.bytes_of "Hello,rld";
            blob_type := str "application/pdf" |} /\
  error (ui (selectPdf reliable true Samples.hello_item Samples.hello_gap)) = None.
Proof.
  apply (select_with_missing_chunk 4 None 0 Samples.doc1 Samples.hello_pdf
           Samples.initial_state 2).
  - lia.
  - reflexivity.
  - reflexivity.
  - apply lookup_empty.
  - vm_compute. reflexivity.
  - reflexivity.
  - reflexivity.
Defined.

(** C2, as stated, fails: with indices 0, 1 and 3 stored for a document
    whose metadata records four chunks, reading returns bytes and sets no
    error. *)
Lemma missing_chunk_counterexample :
  option_map numChunks (pdfs (fs Samples.hello_gap) !! Samples.doc1) = Some 4 /\
  map (fun e => index (snd e))
      (merge_sort by_index (map_to_list (chunksOf (fs Samples.hello_gap) Samples.doc1)))
    = [0; 1; 3] /\
  selectedPdfUrl (ui (selectPdf reliable true Samples.hello_item Samples.hello_gap)) =
    Some {| blob_bytes := Samples.bytes_of "Hello,rld";
            blob_type := str "application/pdf" |} /\
  error (ui (selectPdf reliable true Samples.hello_item Samples.hello_gap)) = None.
Proof. vm_compute. repeat split; reflexivity. Qed.

(** * Deleting a document *)

Section Delete.

Variable rejects : Op -> bool.

Lemma settled_request op effect st :
  settled (request rejects op effect) st =
  (Resolved tt, setFs (unless_rejected rejects op effect) (record op st)).
Proof.
  unfold settled, request, unless_rejected.
  destruct (rejects op); cbn [snd]; [|reflexivity].
  unfold setFs, record. cbn. reflexivity.
Qed.

(** All chunk deletes and the annotation delete are issued and settle;
    none of them throws. *)
Lemma settle_all_run pdf keys : forall st,
  foldr (fun d k => bind (settled d) (fun _ => k)) (ret tt)
        (map (deleteChunkDoc rejects pdf) keys
         ++ [deleteAnnotationsDoc rejects pdf]) st =
  (Resolved tt,
   {| fs := unless_rejected rejects (DeleteAnnotations pdf) (delete_annotations pdf)
              (foldl (fun f c => unless_rejected rejects (DeleteChunk pdf c)
                                   (delete_chunk pdf c) f)
                     (fs st) keys);
      log := log st ++ map (DeleteChunk pdf) keys ++ [DeleteAnnotations pdf];
      ui := ui st |}).
Proof.
  induction keys as [|c keys IH]; intros st.
  - cbn [map app foldr foldl]. unfold bind at 1, deleteAnnotationsDoc.
    rewrite settled_request. reflexivity.
  - cbn [map app foldr foldl]. unfold bind at 1, deleteChunkDoc at 1.
    rewrite settled_request, IH. cbn [fs log ui setFs record].
    now rewrite <- app_assoc.
Qed.

Lemma chunksOf_unless_delete pdf c f c' :
  chunksOf (unless_rejected rejects (DeleteChunk pdf c) (delete_chunk pdf c) f) pdf !! c' =
  if bool_decide (c' = c) && negb (rejects (DeleteChunk pdf c)) then None
  else chunksOf f pdf !! c'.
Proof.
  unfold unless_rejected. destruct (rejects (DeleteChunk pdf c)); cbn [negb].
  - now rewrite andb_false_r.
  - rewrite andb_true_r, chunksOf_delete_chunk. case_bool_decide as E.
    + subst. apply lookup_delete_eq.
    + now apply lookup_delete_ne.
Qed.

Lemma chunksOf_after_deletes pdf keys c' : forall f,
  chunksOf (foldl (fun f c => unless_rejected rejects (DeleteChunk pdf c)
                                (delete_chunk pdf c) f) f keys) pdf !! c' =
  if bool_decide (c' ∈ keys) && negb (rejects (DeleteChunk pdf c')) then None
  else chunksOf f pdf !! c'.
Proof.
  induction keys as [|c keys IH]; intros f; cbn [foldl].
  - reflexivity.
  - rewrite IH, chunksOf_unless_delete.
    destruct (decide (c' = c)) as [->|Hne].
    + rewrite (bool_decide_eq_true_2 (c ∈ c :: keys)) by (left).
      rewrite (bool_decide_eq_true_2 (c = c)) by reflexivity.
      cbn [andb]. destruct (bool_decide (c ∈ keys)); cbn [andb];
        destruct (rejects (DeleteChunk pdf c)); reflexivity.
    + rewrite (bool_decide_eq_false_2 (c' = c)) by assumption. cbn [andb].
      destruct (decide (c' ∈ keys)) as [Hin|Hnin].
      * rewrite !bool_decide_eq_true_2; [reflexivity|now right|assumption].
      * rewrite !bool_decide_eq_false_2; [reflexivity| |assumption].
        intros Hin. apply elem_of_cons in Hin as [?|?]; contradiction.
Qed.

End Delete.

Lemma listed_keys (m : gmap jsstring ChunkDoc) c :
  c ∉ map fst (merge_sort by_key (map_to_list m)) -> m !! c = None.
Proof.
  intros Hnot. destruct (m !! c) as [d|] eqn:E; [|reflexivity].
  exfalso. apply Hnot. apply list_elem_of_fmap. exists (c, d). split; [reflexivity|].
  rewrite merge_sort_Permutation. now apply elem_of_map_to_list.
Qed.

Lemma handleDelete_body_rejected rejects pdf st :
  rejects (ListChunks pdf) = true ->
  handleDelete_body rejects pdf st =
  (Rejected (FirebaseError (ListChunks pdf)), record (ListChunks pdf) st).
Proof.
  intros Hlist. unfold handleDelete_body, bind at 1, getChunks.
  now rewrite Hlist.
Qed.

(** The run of [handleDelete_body] once the listing has arrived. *)
Lemma handleDelete_body_run rejects pdf st :
  rejects (ListChunks pdf) = false ->
  handleDelete_body rejects pdf st =
  let keys := map fst (merge_sort by_key (map_to_list (chunksOf (fs st) pdf))) in
  let st1 :=
    {| fs := unless_rejected rejects (DeleteAnnotations pdf) (delete_annotations pdf)
               (foldl (fun f c => unless_rejected rejects (DeleteChunk pdf c)
                                    (delete_chunk pdf c) f) (fs st) keys);
       log := log st ++ ListChunks pdf :: map (DeleteChunk pdf) keys
                     ++ [DeleteAnnotations pdf; DeletePdf pdf];
       ui := ui st |} in
  if rejects (DeletePdf pdf)
  then (Rejected (FirebaseError (DeletePdf pdf)), st1)
  else (Resolved tt,
        setSelectedPdfUrl None
          (setSelectedPdfId None
             (setPdfs (List.filter (fun p => negb (bool_decide (item_id p = pdf))))
                      (setFs (delete_pdf pdf) st1)))).
Proof.
  intros Hlist. unfold handleDelete_body, bind at 1, getChunks.
  rewrite Hlist. unfold bind at 1. rewrite <- map_map.
  rewrite (settle_all_run rejects pdf).
  unfold bind at 1, deletePdfDoc, request. cbn [fs log ui record].
  cbv zeta.
  destruct (rejects (DeletePdf pdf)).
  - unfold record. cbn [fs log ui]. rewrite <- !app_assoc. reflexivity.
  - unfold bind, update, record, setSelectedPdfUrl, setSelectedPdfId, setPdfs, setFs.
    cbn [fs log ui]. rewrite <- !app_assoc. reflexivity.
Qed.

(** C6 (amended). Deleting lists the chunks first; if that listing is
    rejected the call fails and nothing is deleted. Otherwise a delete is
    issued for every listed chunk and for the annotation record, each
    settles on its own (a rejected one leaves its record and stops nothing),
    the metadata record is deleted last, and the call fails exactly when
    that last delete is rejected. *)
Theorem delete_settles_all rejects st pdf :
  selectedPdfId (ui st) = Some pdf -> pdf <> [] ->
  let st' := handleDeleteSelectedPdf rejects true true st in
  let keys := map fst (merge_sort by_key (map_to_list (chunksOf (fs st) pdf))) in
  if rejects (ListChunks pdf) then
    log st' = log st ++ [ListChunks pdf] /\
    fs st' = fs st /\
    error (ui st') = Some (MessageOf (FirebaseError (ListChunks pdf)))
  else
    log st' = log st ++ ListChunks pdf :: map (DeleteChunk pdf) keys
                     ++ [DeleteAnnotations pdf; DeletePdf pdf] /\
    (forall c, chunksOf (fs st') pdf !! c =
               if rejects (DeleteChunk pdf c) then chunksOf (fs st) pdf !! c
               else None) /\
    annotations (fs st') !! pdf =
      (if rejects (DeleteAnnotations pdf) then annotations (fs st) !! pdf
       else None) /\
    pdfs (fs st') !! pdf =
      (if rejects (DeletePdf pdf) then pdfs (fs st) !! pdf else None) /\
    error (ui st') =
      (if rejects (DeletePdf pdf)
       then Some (MessageOf (FirebaseError (DeletePdf pdf)))
       else error (ui st)).
Proof.
  intros Hsel Hne st' keys. subst st'.
  unfold handleDeleteSelectedPdf. rewrite Hsel. cbn [negb].
  destruct pdf as [|c0 pdf0]; [contradiction|]. set (pdf := c0 :: pdf0) in *.
  unfold try_catch.
  destruct (rejects (ListChunks pdf)) eqn:Hlist.
  - rewrite (handleDelete_body_rejected rejects pdf st Hlist).
    repeat split; reflexivity.
  - rewrite (handleDelete_body_run rejects pdf st Hlist). fold keys.
    cbv zeta. fold keys.
    remember (unless_rejected rejects (DeleteAnnotations pdf) (delete_annotations pdf)
                 (foldl (fun f c => unless_rejected rejects (DeleteChunk pdf c)
                                      (delete_chunk pdf c) f) (fs st) keys))
      as f1 eqn:Ef1.
    assert (Hchunks : forall c,
      chunksOf f1 pdf !! c =
      if rejects (DeleteChunk pdf c) then chunksOf (fs st) pdf !! c else None).
    { intros c. rewrite Ef1.
      assert (Hskip : forall f,
        chunksOf (unless_rejected rejects (DeleteAnnotations pdf)
                    (delete_annotations pdf) f) pdf = chunksOf f pdf).
      { intros f. unfold unless_rejected.
        now destruct (rejects (DeleteAnnotations pdf)). }
      rewrite Hskip, chunksOf_after_deletes.
      case_bool_decide as Hin; destruct (rejects (DeleteChunk pdf c)); cbn [andb negb];
        try reflexivity.
      now apply listed_keys. }
    assert (Hfold_ann : forall l f,
      annotations (foldl (fun f c => unless_rejected rejects (DeleteChunk pdf c)
                                       (delete_chunk pdf c) f) f l) = annotations f).
    { induction l as [|x l IH]; intros f; [reflexivity|]. cbn [foldl].
      rewrite IH. unfold unless_rejected.
      destruct (rejects (DeleteChunk pdf x)); reflexivity. }
    assert (Hfold_pdfs : forall l f,
      pdfs (foldl (fun f c => unless_rejected rejects (DeleteChunk pdf c)
                                (delete_chunk pdf c) f) f l) = pdfs f).
    { induction l as [|x l IH]; intros f; [reflexivity|]. cbn [foldl].
      rewrite IH. unfold unless_rejected.
      destruct (rejects (DeleteChunk pdf x)); reflexivity. }
    assert (Hann : annotations f1 !! pdf =
      if rejects (DeleteAnnotations pdf) then annotations (fs st) !! pdf else None).
    { rewrite Ef1. unfold unless_rejected at 1.
      destruct (rejects (DeleteAnnotations pdf)).
      - now rewrite Hfold_ann.
      - cbn. apply lookup_delete_eq. }
    assert (Hpdfs : pdfs f1 = pdfs (fs st)).
    { rewrite Ef1. unfold unless_rejected at 1.
      destruct (rejects (DeleteAnnotations pdf)); cbn; apply Hfold_pdfs. }
    destruct (rejects (DeletePdf pdf)) eqn:Hpdf.
    + cbn [fs log ui setError error].
      split; [reflexivity|]. split; [exact Hchunks|].
      split; [exact Hann|]. split; [now rewrite Hpdfs|reflexivity].
    + cbn [fs log ui setFs setPdfs setSelectedPdfId setSelectedPdfUrl error].
      split; [reflexivity|]. split; [exact Hchunks|].
      split; [exact Hann|]. split; [|reflexivity].
      cbn [delete_pdf pdfs]. apply lookup_delete_eq.
Qed.

Lemma delete_settles_all_witness :
  log (handleDeleteSelectedPdf Samples.rejects_partial_deletes true true
         Samples.hello_uploaded) =
    log Samples.hello_uploaded ++
    [ListChunks Samples.doc1;
     DeleteChunk Samples.doc1 (chunkId 0); DeleteChunk Samples.doc1 (chunkId 1);
     DeleteChunk Samples.doc1 (chunkId 2); DeleteChunk Samples.doc1 (chunkId 3);
     DeleteAnnotations Samples.doc1; DeletePdf Samples.doc1] /\
  pdfs (fs (handleDeleteSelectedPdf Samples.rejects_partial_deletes true true
              Samples.hello_uploaded)) !! Samples.doc1 = None /\
  error (ui (handleDeleteSelectedPdf Samples.rejects_partial_deletes true true
               Samples.hello_uploaded)) = None.
Proof.
  pose proof (delete_settles_all Samples.rejects_partial_deletes
                Samples.hello_uploaded Samples.doc1 eq_refl ltac:(discriminate))
    as H.
  cbv zeta in H.
  change (Samples.rejects_partial_deletes (ListChunks Samples.doc1)) with false in H.
  change (Samples.rejects_partial_deletes (DeletePdf Samples.doc1)) with false in H.
  cbv iota in H. destruct H as (Hlog & _ & _ & Hpdfs & Herr).
  split; [|split; [exact Hpdfs|exact Herr]].
  rewrite Hlog. reflexivity.
Defined.

(** C6, as stated, fails when the chunk listing is rejected: the call
    fails although the metadata delete was never rejected (it was never
    issued), and no delete is attempted. *)
Lemma delete_listing_rejected_counterexample :
  Samples.rejects_listing (DeletePdf Samples.doc1) = false /\
  error (ui (handleDeleteSelectedPdf Samples.rejects_listing true true
               Samples.hello_uploaded))
    = Some (MessageOf (FirebaseError (ListChunks Samples.doc1))) /\
  log (handleDeleteSelectedPdf Samples.rejects_listing true true
         Samples.hello_uploaded)
    = log Samples.hello_uploaded ++ [ListChunks Samples.doc1].
Proof. vm_compute. repeat split; reflexivity. Qed.

(** * Replies on a highlight *)

Import Annotations.

Lemma appendReply_lookup highlightId reply prev i h :
  prev !! i = Some h ->
  appendReply highlightId reply prev !! i =
  Some (if bool_decide (id h <> highlightId) then h
        else {| id := id h; position := position h; content := content h;
                comment := comment h;
                meta := Some {| severity := severity (default defaultMeta (meta h));
                                category := category (default defaultMeta (meta h));
                                replies := Some (reply :: repliesOf h) |} |}).
Proof.
  intros Hi. unfold appendReply.
  change (@map) with (@fmap list _) at 1. now rewrite list_lookup_fmap, Hi.
Qed.

(** C9. The reply handler puts the new reply at the head of the reply
    list of every highlight with the given id, keeps the replies already
    there in their order, keeps the other fields of that highlight, and
    leaves every other highlight as it is; the list keeps its length and
    order. *)
Theorem reply_is_prepended random uid now highlightId replyDrafts highlights
        draft i h :
  replyDrafts !! highlightId = Some draft ->
  JS.trim draft <> [] ->
  highlights !! i = Some h ->
  let reply := createReply random uid now (JS.trim draft) in
  let updated := fst (replyOnClick random uid now highlightId replyDrafts highlights) in
  List.length updated = List.length highlights /\
  (id h <> highlightId -> updated !! i = Some h) /\
  (id h = highlightId ->
   exists h' m,
     updated !! i = Some h' /\ meta h' = Some m /\
     replies m = Some (reply :: repliesOf h) /\
     severity m = severity (default defaultMeta (meta h)) /\
     category m = category (default defaultMeta (meta h)) /\
     id h' = id h /\ position h' = position h /\ content h' = content h /\
     comment h' = comment h).
Proof.
  intros Hdraft Htrim Hi reply updated.
  assert (E : updated = appendReply highlightId reply highlights).
  { unfold updated, reply, replyOnClick. rewrite Hdraft.
    change (default [] (Some draft)) with draft.
    destruct (JS.trim draft) eqn:T; [contradiction|reflexivity]. }
  rewrite E. split; [|split].
  - unfold appendReply. apply length_map.
  - intros Hne. rewrite (appendReply_lookup _ _ _ _ _ Hi).
    now rewrite bool_decide_eq_true_2.
  - intros Heq. rewrite (appendReply_lookup _ _ _ _ _ Hi).
    rewrite bool_decide_eq_false_2 by (intros Hne; contradiction).
    eexists. eexists. repeat split.
Qed.

(** * Properties of the suggestion client *)

Import AI.

Lemma indexOf_from_first s c : forall k n,
  s !! n = Some c -> (forall j, (j < n)%nat -> s !! j <> Some c) ->
  indexOf_from s c k = Some (k + N.of_nat n).
Proof.
  induction s as [|d s IH]; intros k n Hn Hfirst; [discriminate|].
  cbn [indexOf_from]. destruct n as [|n].
  - injection Hn as ->. rewrite Ascii.eqb_refl. f_equal. lia.
  - assert (Hd : Ascii.eqb d c = false).
    { apply Ascii.eqb_neq. intros ->. apply (Hfirst 0%nat); [lia|reflexivity]. }
    rewrite Hd, (IH (k + 1) n Hn).
    + f_equal. lia.
    + intros j Hj. apply (Hfirst (S j)). lia.
Qed.

Lemma lastIndexOf_from_absent s c : forall k found,
  (forall j, s !! j <> Some c) -> lastIndexOf_from s c k found = found.
Proof.
  induction s as [|d s IH]; intros k found Habs; [reflexivity|].
  cbn [lastIndexOf_from].
  assert (Hd : Ascii.eqb d c = false).
  { apply Ascii.eqb_neq. intros ->. now apply (Habs 0%nat). }
  rewrite Hd. apply IH. intros j. apply (Habs (S j)).
Qed.

Lemma lastIndexOf_from_last s c : forall k found n,
  s !! n = Some c -> (forall j, (n < j)%nat -> s !! j <> Some c) ->
  lastIndexOf_from s c k found = Some (k + N.of_nat n).
Proof.
  induction s as [|d s IH]; intros k found n Hn Hlast; [discriminate|].
  cbn [lastIndexOf_from]. destruct n as [|n].
  - injection Hn as ->. rewrite Ascii.eqb_refl, lastIndexOf_from_absent.
    + f_equal. lia.
    + intros j. apply (Hlast (S j)). lia.
  - rewrite (IH (k + 1) _ n Hn).
    + f_equal. lia.
    + intros j Hj. apply (Hlast (S j)). lia.
Qed.

(** The parse step of [suggestComment] on a text that holds both
    braces. *)
Lemma parseComment_braces parse content excerpt s e :
  content !! s = Some "{"%char ->
  (forall j, (j < s)%nat -> content !! j <> Some "{"%char) ->
  content !! e = Some "}"%char ->
  (forall j, (e < j)%nat -> content !! j <> Some "}"%char) ->
  parseComment parse (Some content) excerpt =
  match parse (JS.slice content (N.of_nat s) (N.of_nat e + 1)) with
  | None | Some JNull => Thrown
  | Some parsed =>
      Returned (Some
        {| text := or_default (memberOf parsed (str "text")) (JString excerpt);
           severity := or_default (memberOf parsed (str "severity"))
                                  (JString (str "medium"));
           category := or_default (memberOf parsed (str "category"))
                                  (JString (str "general")) |})
  end.
Proof.
  intros Hs Hfirst He Hlast. unfold parseComment.
  assert (Hne : nonempty (Some content) = Some content).
  { destruct content; [discriminate|reflexivity]. }
  rewrite Hne. unfold indexOf, lastIndexOf.
  rewrite (indexOf_from_first _ _ 0 s Hs Hfirst).
  rewrite (lastIndexOf_from_last _ _ 0 None e He Hlast).
  rewrite !N.add_0_l.
  destruct (parse _) as [[| | | | |]|]; reflexivity.
Qed.

(** C7. Without a credential, neither in the parameters nor in the
    environment, each of the three operations resolves to [null] and
    issues no request. *)
Theorem no_credential_no_request env responses_create chat_create fetch
        JSON_parse encodeURIComponent
        (cp : SuggestParams) (ap : AskParams) (fp : FocusParams) :
  nonempty (VITE_OPENAI_API_KEY env) = None ->
  nonempty (sc_apiKey cp) = None ->
  nonempty (ae_apiKey ap) = None ->
  nonempty (nf_apiKey fp) = None ->
  suggestComment env responses_create chat_create JSON_parse cp = ([], None) /\
  askExpert env responses_create chat_create fetch encodeURIComponent ap = ([], None) /\
  suggestNextFocus env responses_create JSON_parse fp = ([], None).
Proof.
  intros Henv Hc Ha Hf.
  unfold suggestComment, askExpert, suggestNextFocus, first_truthy.
  now rewrite Henv, Hc, Ha, Hf.
Qed.

Lemma no_credential_no_request_witness :
  suggestComment Samples.env_without_key
    (Samples.primary_answers Samples.urgent_json)
    (Samples.chat_answers Samples.urgent_json) Samples.parse_samples
    (Samples.comment_params None) = ([], None) /\
  askExpert Samples.env_without_key
    (Samples.primary_answers Samples.urgent_json)
    (Samples.chat_answers Samples.urgent_json) Samples.fetch_rejects
    Samples.encode_identity Samples.ask_params = ([], None) /\
  suggestNextFocus Samples.env_without_key
    (Samples.primary_answers Samples.urgent_json) Samples.parse_samples
    Samples.focus_params = ([], None).
Proof.
  apply no_credential_no_request; reflexivity.
Defined.

(** The outcome of [suggestComment] when the primary call answers with
    a text whose braces enclose an object. *)
Lemma suggestComment_object env responses_create chat_create JSON_parse
      params apiKey resp content s e members :
  first_truthy (sc_apiKey params) (VITE_OPENAI_API_KEY env) = Some apiKey ->
  responses_create (commentPrimary env apiKey params) = Resolves resp ->
  extractOutputText (Some resp) = Returned (Some content) ->
  content !! s = Some "{"%char ->
  (forall j, (j < s)%nat -> content !! j <> Some "{"%char) ->
  content !! e = Some "}"%char ->
  (forall j, (e < j)%nat -> content !! j <> Some "}"%char) ->
  JSON_parse (JS.slice content (N.of_nat s) (N.of_nat e + 1)) = Some (JObject members) ->
  suggestComment env responses_create chat_create JSON_parse params =
    ([commentPrimary env apiKey params],
     Some {| text := or_default (lookup_member members (str "text"))
                                (JString (commentExcerpt params));
             severity := or_default (lookup_member members (str "severity"))
                                    (JString (str "medium"));
             category := or_default (lookup_member members (str "category"))
                                    (JString (str "general")) |}).
Proof.
  intros Hkey Hresp Hcontent Hs Hfirst He Hlast Hparse.
  unfold suggestComment. rewrite Hkey, Hresp, Hcontent.
  rewrite (parseComment_braces _ _ _ s e Hs Hfirst He Hlast), Hparse.
  reflexivity.
Qed.



Lemma suggestComment_answers_object env responses_create chat_create JSON_parse
      params apiKey members :
  first_truthy (sc_apiKey params) (VITE_OPENAI_API_KEY env) = Some apiKey ->
  answers_object responses_create JSON_parse (commentPrimary env apiKey params) members ->
  snd (suggestComment env responses_create chat_create JSON_parse params) =
    Some {| text := or_default (lookup_member members (str "text"))
                               (JString (commentExcerpt params));
            severity := or_default (lookup_member members (str "severity"))
                                   (JString (str "medium"));
            category := or_default (lookup_member members (str "category"))
                                   (JString (str "general")) |}.
Proof.
  intros Hkey (resp & content & s & e & Hresp & Hcontent & Hs & Hfirst & He & Hlast & Hparse).
  now rewrite (suggestComment_object env responses_create chat_create JSON_parse
                 params apiKey resp content s e members).
Qed.

Lemma suggestNextFocus_answers_object env responses_create JSON_parse
      params apiKey members :
  first_truthy (nf_apiKey params) (VITE_OPENAI_API_KEY env) = Some apiKey ->
  answers_object responses_create JSON_parse (focusPrimary env apiKey params) members ->
  snd (suggestNextFocus env responses_create JSON_parse params) =
    match or_default (lookup_member members (str "suggestion")) (JObject []) with
    | JNull => None
    | sug =>
        Some {| pageNumber := match lookup_member members (str "pageNumber") with
                              | Some (JNumber n) => Some n
                              | _ => None
                              end;
                suggestion :=
                  {| text := or_default (memberOf sug (str "text")) (JString []);
                     severity := or_default (memberOf sug (str "severity"))
                                            (JString (str "medium"));
                     category := or_default (memberOf sug (str "category"))
                                            (JString (str "general")) |} |}
    end.
Proof.
  intros Hkey (resp & content & s & e & Hresp & Hcontent & Hs & Hfirst & He & Hlast & Hparse).
  unfold suggestNextFocus. rewrite Hkey, Hresp, Hcontent.
  unfold parseNextFocus.
  assert (Hne : nonempty (Some content) = Some content).
  { destruct content; [discriminate|reflexivity]. }
  rewrite Hne. unfold indexOf, lastIndexOf.
  rewrite (indexOf_from_first _ _ 0 s Hs Hfirst).
  rewrite (lastIndexOf_from_last _ _ 0 None e He Hlast).
  rewrite !N.add_0_l, Hparse. cbn [getProp].
  destruct (or_default (lookup_member members (str "suggestion")) (JObject []))
    as [| | | | |]; reflexivity.
Qed.

(** C10. Severity and category are not checked against their
    enumerations: a non-empty string found in the parsed object is
    returned as it is by [suggestComment], and likewise by
    [suggestNextFocus], whatever it spells; "medium" and "general"
    stand in only when the member is missing or falsy. The two
    operations are taken one by one: what is said of one asks nothing
    of the provider's answer to the other. *)
Theorem enumerations_not_validated env responses_create chat_create JSON_parse :
  (forall (cp : SuggestParams) ckey (members : list (jsstring * json)),
     first_truthy (sc_apiKey cp) (VITE_OPENAI_API_KEY env) = Some ckey ->
     answers_object responses_create JSON_parse (commentPrimary env ckey cp) members ->
     exists sug,
       snd (suggestComment env responses_create chat_create JSON_parse cp) = Some sug /\
       (forall sev, sev <> [] ->
          lookup_member members (str "severity") = Some (JString sev) ->
          severity sug = JString sev) /\
       (forall cat, cat <> [] ->
          lookup_member members (str "category") = Some (JString cat) ->
          category sug = JString cat) /\
       ((lookup_member members (str "severity") = None \/
         exists x, lookup_member members (str "severity") = Some x /\ truthy x = false) ->
        severity sug = JString (str "medium")) /\
       ((lookup_member members (str "category") = None \/
         exists x, lookup_member members (str "category") = Some x /\ truthy x = false) ->
        category sug = JString (str "general"))) /\
  (forall (fp : FocusParams) fkey (fmembers smembers : list (jsstring * json)),
     first_truthy (nf_apiKey fp) (VITE_OPENAI_API_KEY env) = Some fkey ->
     answers_object responses_create JSON_parse (focusPrimary env fkey fp) fmembers ->
     lookup_member fmembers (str "suggestion") = Some (JObject smembers) ->
     exists focus,
       snd (suggestNextFocus env responses_create JSON_parse fp) = Some focus /\
       (forall sev, sev <> [] ->
          lookup_member smembers (str "severity") = Some (JString sev) ->
          severity (suggestion focus) = JString sev) /\
       (forall cat, cat <> [] ->
          lookup_member smembers (str "category") = Some (JString cat) ->
          category (suggestion focus) = JString cat) /\
       ((lookup_member smembers (str "severity") = None \/
         exists x, lookup_member smembers (str "severity") = Some x /\ truthy x = false) ->
        severity (suggestion focus) = JString (str "medium")) /\
       ((lookup_member smembers (str "category") = None \/
         exists x, lookup_member smembers (str "category") = Some x /\ truthy x = false) ->
        category (suggestion focus) = JString (str "general"))).
Proof.
  assert (Hverbatim : forall (v : option json) d str0,
            str0 <> [] -> v = Some (JString str0) -> or_default v d = JString str0).
  { intros v d str0 Hne ->. cbn. destruct str0; [contradiction|reflexivity]. }
  assert (Hdefault : forall (v : option json) d,
            (v = None \/ exists x, v = Some x /\ truthy x = false) ->
            or_default v d = d).
  { intros v d [->|(x & -> & Hx)]; [reflexivity|]. cbn. now rewrite Hx. }
  split.
  - intros cp ckey members Hck Hc.
    pose proof (suggestComment_answers_object _ _ chat_create _ _ _ _ Hck Hc) as Ec.
    eexists. split; [exact Ec|]. cbn [severity category].
    repeat split; intros; auto.
  - intros fp fkey fmembers smembers Hfk Hf Hsug.
    pose proof (suggestNextFocus_answers_object _ _ _ _ _ _ Hfk Hf) as Ef.
    rewrite Hsug in Ef. cbn [or_default truthy memberOf] in Ef.
    eexists. split; [exact Ef|]. cbn [severity category suggestion].
    repeat split; intros; auto.
Qed.

Lemma enumerations_not_validated_witness :
  (exists sug,
     snd (suggestComment Samples.env_with_key
            (Samples.primary_answers Samples.urgent_json)
            Samples.chat_rejects Samples.parse_samples
            (Samples.comment_params None)) = Some sug /\
     severity sug = JString (str "urgent") /\
     category sug = JString (str "legal")) /\
  (exists focus,
     snd (suggestNextFocus Samples.env_with_key
            (Samples.primary_answers Samples.focus_json)
            Samples.parse_samples Samples.focus_params) = Some focus /\
     severity (suggestion focus) = JString (str "urgent") /\
     category (suggestion focus) = JString (str "legal")).
Proof.
  split.
  - destruct (enumerations_not_validated Samples.env_with_key
                (Samples.primary_answers Samples.urgent_json)
                Samples.chat_rejects Samples.parse_samples) as [H _].
    destruct (H (Samples.comment_params None) (str "sk-test")
                [(str "text", JString (str "ok"));
                 (str "severity", JString (str "urgent"));
                 (str "category", JString (str "legal"))])
      as (sug & Hs & Hsev & Hcat & _).
    + reflexivity.
    + exists (Samples.answer_with Samples.urgent_json), Samples.urgent_json,
        0%nat, 51%nat.
      do 3 (split; [reflexivity|]). split; [intros j Hj; lia|].
      split; [reflexivity|]. split; [|reflexivity].
      intros j Hj. rewrite (lookup_ge_None_2 Samples.urgent_json j).
      * discriminate.
      * change (List.length Samples.urgent_json) with 52%nat. lia.
    + exists sug. split; [exact Hs|].
      split; [apply Hsev|apply Hcat]; (discriminate || reflexivity).
  - destruct (enumerations_not_validated Samples.env_with_key
                (Samples.primary_answers Samples.focus_json)
                Samples.chat_rejects Samples.parse_samples) as [_ H].
    destruct (H Samples.focus_params (str "sk-test")
                [(str "pageNumber", JNumber (Finite 3));
                 (str "suggestion", Samples.urgent_object)]
                [(str "text", JString (str "ok"));
                 (str "severity", JString (str "urgent"));
                 (str "category", JString (str "legal"))])
      as (focus & Hf & Hsev & Hcat & _).
    + reflexivity.
    + exists (Samples.answer_with Samples.focus_json), Samples.focus_json,
        0%nat, 81%nat.
      do 3 (split; [reflexivity|]). split; [intros j Hj; lia|].
      split; [reflexivity|]. split; [|reflexivity].
      intros j Hj. rewrite (lookup_ge_None_2 Samples.focus_json j).
      * discriminate.
      * change (List.length Samples.focus_json) with 82%nat. lia.
    + reflexivity.
    + exists focus. split; [exact Hf|].
      split; [apply Hsev|apply Hcat]; (discriminate || reflexivity).
Defined.

(** The abort signal is no input of [suggestComment]: two calls that
    differ in the signal only issue the same requests and resolve to the
    same value. *)
Lemma suggestComment_ignores_abortSignal env responses_create chat_create
      JSON_parse pdfText highlightText page project model apiKey signal signal' :
  suggestComment env responses_create chat_create JSON_parse
    {| sc_pdfText := pdfText; sc_highlightText := highlightText;
       sc_pageNumber := page; sc_projectName := project; sc_model := model;
       sc_apiKey := apiKey; sc_abortSignal := signal |} =
  suggestComment env responses_create chat_create JSON_parse
    {| sc_pdfText := pdfText; sc_highlightText := highlightText;
       sc_pageNumber := page; sc_projectName := project; sc_model := model;
       sc_apiKey := apiKey; sc_abortSignal := signal' |}.
Proof. reflexivity. Qed.

(** C3 (the code departs from it). A request whose abort signal is
    already aborted is carried out like any other: when its primary call
    rejects, the fallback chat request is issued and its answer, parsed,
    is what the call resolves to; no cancellation outcome exists. *)
Theorem aborted_request_still_falls_back env responses_create chat_create
        JSON_parse params apiKey :
  first_truthy (sc_apiKey params) (VITE_OPENAI_API_KEY env) = Some apiKey ->
  sc_abortSignal params = Some {| aborted := true |} ->
  responses_create (commentPrimary env apiKey params) = Rejects ->
  suggestComment env responses_create chat_create JSON_parse params =
    ([commentPrimary env apiKey params; commentFallback env apiKey params],
     match chat_create (commentFallback env apiKey params) with
     | Rejects => None
     | Resolves chat =>
         match parseComment JSON_parse (chatContent chat) (commentExcerpt params) with
         | Returned r => r
         | Thrown => None
         end
     end).
Proof.
  intros Hkey _ Hreject. unfold suggestComment. rewrite Hkey, Hreject.
  destruct (chat_create _) as [chat|]; [|reflexivity].
  destruct (parseComment _ _ _); reflexivity.
Qed.

Lemma aborted_request_still_falls_back_witness :
  suggestComment Samples.env_with_key Samples.primary_rejects
    (Samples.chat_answers Samples.urgent_json) Samples.parse_samples
    (Samples.comment_params (Some {| aborted := true |})) =
  ([commentPrimary Samples.env_with_key (str "sk-test")
      (Samples.comment_params (Some {| aborted := true |}));
    commentFallback Samples.env_with_key (str "sk-test")
      (Samples.comment_params (Some {| aborted := true |}))],
   Some {| text := JString (str "ok");
           severity := JString (str "urgent");
           category := JString (str "legal") |}).
Proof.
  rewrite (aborted_request_still_falls_back Samples.env_with_key
             Samples.primary_rejects (Samples.chat_answers Samples.urgent_json)
             Samples.parse_samples
             (Samples.comment_params (Some {| aborted := true |}))
             (str "sk-test") eq_refl eq_refl eq_refl).
  reflexivity.
Defined.

Lemma reply_is_prepended_witness :
  fst (replyOnClick (str "r1") None 5 (str "a") Samples.drafts
         [Samples.highlight_a; Samples.highlight_b]) !! 1%nat
    = Some Samples.highlight_b /\
  exists h' m,
    fst (replyOnClick (str "r1") None 5 (str "a") Samples.drafts
           [Samples.highlight_a; Samples.highlight_b]) !! 0%nat = Some h' /\
    meta h' = Some m /\
    replies m = Some [createReply (str "r1") None 5 (str "agreed");
                      Samples.reply_old].
Proof.
  split.
  - destruct (reply_is_prepended (str "r1") None 5 (str "a") Samples.drafts
                [Samples.highlight_a; Samples.highlight_b] (str "  agreed ")
                1%nat Samples.highlight_b) as (_ & H & _).
    + reflexivity.
    + discriminate.
    + reflexivity.
    + apply H. discriminate.
  - destruct (reply_is_prepended (str "r1") None 5 (str "a") Samples.drafts
                [Samples.highlight_a; Samples.highlight_b] (str "  agreed ")
                0%nat Samples.highlight_a) as (_ & _ & H).
    + reflexivity.
    + discriminate.
    + reflexivity.
    + destruct (H eq_refl) as (h' & m & H1 & H2 & H3 & _).
      exists h', m. repeat split; assumption.
Defined.

(** * Further properties of the document store *)

Import Further.

(** ** An upload that the store interrupts *)

(** The run of the chunk loop when the store rejects the write at
    offset [j] and none before it. *)
Lemma uploadLoop_rejected rejects k pdf s j : forall n i st,
  (j < n)%nat ->
  (forall m, (m < j)%nat ->
     rejects (SetChunk pdf (chunkId (i + N.of_nat m))
                       (chunkDoc k s (i + N.of_nat m))) = false) ->
  rejects (SetChunk pdf (chunkId (i + N.of_nat j))
                    (chunkDoc k s (i + N.of_nat j))) = true ->
  uploadLoop rejects k pdf s n i st =
  (Rejected (FirebaseError (SetChunk pdf (chunkId (i + N.of_nat j))
                                     (chunkDoc k s (i + N.of_nat j)))),
   {| fs := foldl (fun f j => set_chunk pdf (chunkId j) (chunkDoc k s j) f)
                  (fs st) (indices j i);
      log := log st ++
             map (fun j => SetChunk pdf (chunkId j) (chunkDoc k s j))
                 (indices (S j) i);
      ui := ui st |}).
Proof.
  induction j as [|j IH]; intros n i st Hn Hok Hrej.
  - destruct n as [|n]; [lia|].
    rewrite N.add_0_r in Hrej.
    cbn [uploadLoop indices foldl map]. unfold bind, setDoc, request.
    fold (chunkDoc k s i). rewrite Hrej. rewrite N.add_0_r. reflexivity.
  - destruct n as [|n]; [lia|].
    cbn [uploadLoop]. unfold bind at 1, setDoc, request.
    fold (chunkDoc k s i).
    pose proof (Hok 0%nat ltac:(lia)) as H0. rewrite N.add_0_r in H0.
    rewrite H0.
    rewrite (IH n (i + 1)); [| lia | |].
    + replace (i + 1 + N.of_nat j) with (i + N.of_nat (S j)) by lia.
      cbn [fs log ui setFs record indices foldl map].
      now rewrite <- app_assoc.
    + intros m Hm. replace (i + 1 + N.of_nat m) with (i + N.of_nat (S m)) by lia.
      apply Hok. lia.
    + now replace (i + 1 + N.of_nat j) with (i + N.of_nat (S j)) by lia.
Qed.

Lemma handleAddPdf_rejected_run rejects k uid now newId file st j :
  JS.includes (file_type file) (str "pdf") = true ->
  rejects (AddPdf newId (metaOf k uid now file)) = false ->
  (j < N.to_nat (numChunksOf k file))%nat ->
  (forall m, (m < j)%nat ->
     rejects (SetChunk newId (chunkId (N.of_nat m))
                (chunkDoc k (base64Of file) (N.of_nat m))) = false) ->
  rejects (SetChunk newId (chunkId (N.of_nat j))
             (chunkDoc k (base64Of file) (N.of_nat j))) = true ->
  handleAddPdf rejects true true k uid now newId (Some file) st =
  setLoading false
    (setError
       (Some (MessageOf (FirebaseError
          (SetChunk newId (chunkId (N.of_nat j))
                    (chunkDoc k (base64Of file) (N.of_nat j))))))
       {| fs := foldl (fun f i => set_chunk newId (chunkId i)
                                    (chunkDoc k (base64Of file) i) f)
                      (add_pdf newId (metaOf k uid now file) (fs st))
                      (indices j 0);
          log := log st ++
                 AddPdf newId (metaOf k uid now file) ::
                 map (fun i => SetChunk newId (chunkId i)
                                 (chunkDoc k (base64Of file) i))
                     (indices (S j) 0);
          ui := ui st |}).
Proof.
  intros Hpdf Hadd Hj Hok Hrej. unfold handleAddPdf.
  rewrite Hpdf, (includes_truthy _ (str "pdf")) by (assumption || discriminate).
  cbn [negb orb].
  unfold try_catch, handleAddPdf_body, bind at 1, addDoc, bind at 1, request, ret.
  fold (base64Of file). fold (numChunksOf k file). fold (mimeOf file).
  fold (metaOf k uid now file). rewrite Hadd.
  unfold bind at 1.
  rewrite (uploadLoop_rejected rejects k newId (base64Of file) j); try assumption.
  cbn [N.add fs log ui setFs record setLoading setError error loading ui_pdfs
       selectedPdfId selectedPdfUrl].
  now rewrite <- app_assoc.
Qed.

Lemma pdfs_uploads k pdf s l : forall f,
  pdfs (foldl (fun f j => set_chunk pdf (chunkId j) (chunkDoc k s j) f) f l)
  = pdfs f.
Proof.
  induction l as [|j l IH]; intros f; cbn [foldl]; [reflexivity|].
  now rewrite IH.
Qed.

(** X1. When the store accepts the metadata record and the chunks before
    index [j] and rejects the write of chunk [j], the upload stops there:
    no later chunk is requested, the chunks written so far and the
    metadata record (which promises the full chunk count) stay in the
    store, the error line shows the rejection, the loading flag is reset,
    and neither the list nor the selection changes. *)
Theorem upload_stops_at_first_rejection rejects k uid now newId file st j :
  JS.includes (file_type file) (str "pdf") = true ->
  chunks (fs st) !! newId = None ->
  rejects (AddPdf newId (metaOf k uid now file)) = false ->
  (j < N.to_nat (numChunksOf k file))%nat ->
  (forall m, (m < j)%nat ->
     rejects (SetChunk newId (chunkId (N.of_nat m))
                (chunkDoc k (base64Of file) (N.of_nat m))) = false) ->
  rejects (SetChunk newId (chunkId (N.of_nat j))
             (chunkDoc k (base64Of file) (N.of_nat j))) = true ->
  let st' := handleAddPdf rejects true true k uid now newId (Some file) st in
  log st' = log st ++
            AddPdf newId (metaOf k uid now file) ::
            map (fun i => SetChunk newId (chunkId i) (chunkDoc k (base64Of file) i))
                (indices (S j) 0) /\
  pdfs (fs st') !! newId = Some (metaOf k uid now file) /\
  map_to_list (chunksOf (fs st') newId)
    ≡ₚ map (entry k (base64Of file)) (indices j 0) /\
  error (ui st') =
    Some (MessageOf (FirebaseError
            (SetChunk newId (chunkId (N.of_nat j))
                      (chunkDoc k (base64Of file) (N.of_nat j))))) /\
  loading (ui st') = false /\
  ui_pdfs (ui st') = ui_pdfs (ui st) /\
  selectedPdfId (ui st') = selectedPdfId (ui st) /\
  selectedPdfUrl (ui st') = selectedPdfUrl (ui st).
Proof.
  intros Hpdf Hfresh Hadd Hj Hok Hrej. cbv zeta.
  rewrite (handleAddPdf_rejected_run rejects k uid now newId file st j)
    by assumption.
  cbn [setLoading setError fs log ui error loading ui_pdfs selectedPdfId
       selectedPdfUrl].
  split; [reflexivity|]. split; [|split; [|repeat split]].
  - rewrite pdfs_uploads. cbn [add_pdf pdfs]. apply lookup_insert_eq.
  - rewrite chunksOf_uploads.
    assert (E : chunksOf (add_pdf newId (metaOf k uid now file) (fs st)) newId = ∅).
    { unfold chunksOf, add_pdf. cbn [chunks]. now rewrite Hfresh. }
    rewrite E, map_to_list_inserts.
    + now rewrite map_to_list_empty, app_nil_r.
    + apply entry_keys_NoDup, indices_NoDup.
    + intros e _. apply lookup_empty.
Qed.

Lemma upload_stops_at_first_rejection_witness :
  error (ui (handleAddPdf Cases.rejects_chunk_2 true true 4 None 0 Samples.doc1
               (Some Samples.hello_pdf) Samples.initial_state))
  = Some (MessageOf (FirebaseError
            (SetChunk Samples.doc1 (chunkId 2)
                      {| index := 2; data := str "IHdv" |}))) /\
  map_to_list
    (chunksOf (fs (handleAddPdf Cases.rejects_chunk_2 true true 4 None 0
                     Samples.doc1 (Some Samples.hello_pdf) Samples.initial_state))
              Samples.doc1)
    ≡ₚ [(chunkId 0, {| index := 0; data := str "SGVs" |});
        (chunkId 1, {| index := 1; data := str "bG8s" |})].
Proof.
  destruct (upload_stops_at_first_rejection Cases.rejects_chunk_2 4 None 0
              Samples.doc1 Samples.hello_pdf Samples.initial_state 2)
    as (_ & _ & Hchunks & Herr & _).
  - reflexivity.
  - apply lookup_empty.
  - reflexivity.
  - vm_compute. lia.
  - intros [|[|m]] Hm; [reflexivity|reflexivity|lia].
  - reflexivity.
  - split; [exact Herr|exact Hchunks].
Defined.

(** ** What an upload and a delete leave alone *)

Lemma untouched_refl other f : untouched other f f.
Proof. now repeat split. Qed.

Lemma untouched_trans other f g h :
  untouched other f g -> untouched other g h -> untouched other f h.
Proof. intros (A1 & B1 & C1) (A2 & B2 & C2). repeat split; congruence. Qed.

Lemma untouched_set_chunk pdf c d other f :
  other <> pdf -> untouched other (set_chunk pdf c d f) f.
Proof.
  intros Hne. repeat split.
  unfold chunksOf, set_chunk. cbn [chunks]. now rewrite lookup_insert_ne.
Qed.

Lemma untouched_add_pdf pdf d other f :
  other <> pdf -> untouched other (add_pdf pdf d f) f.
Proof.
  intros Hne. repeat split.
  unfold add_pdf. cbn [pdfs]. now rewrite lookup_insert_ne.
Qed.

Lemma untouched_delete_chunk pdf c other f :
  other <> pdf -> untouched other (delete_chunk pdf c f) f.
Proof.
  intros Hne. repeat split.
  unfold chunksOf, delete_chunk. cbn [chunks]. now rewrite lookup_insert_ne.
Qed.

Lemma untouched_delete_annotations pdf other f :
  other <> pdf -> untouched other (delete_annotations pdf f) f.
Proof.
  intros Hne. repeat split.
  unfold delete_annotations. cbn [annotations]. now rewrite lookup_delete_ne.
Qed.

Lemma untouched_delete_pdf pdf other f :
  other <> pdf -> untouched other (delete_pdf pdf f) f.
Proof.
  intros Hne. repeat split.
  unfold delete_pdf. cbn [pdfs]. now rewrite lookup_delete_ne.
Qed.

(** [selectPdf] only reads the store; it sets the selection and leaves
    the list and the loading flag as they are. *)
Lemma selectPdf_ui rejects item st :
  selectedPdfId (ui (selectPdf rejects true item st)) = Some (item_id item) /\
  ui_pdfs (ui (selectPdf rejects true item st)) = ui_pdfs (ui st) /\
  loading (ui (selectPdf rejects true item st)) = loading (ui st) /\
  fs (selectPdf rejects true item st) = fs st.
Proof.
  unfold selectPdf, try_catch, selectPdf_body, bind, getChunksByIndex.
  cbn [negb fst snd].
  destruct (rejects _); [repeat split; reflexivity|].
  destruct (omap pushedData _); [repeat split; reflexivity|].
  destruct (Base64.atob _); repeat split; reflexivity.
Qed.

Lemma selectPdf_keeps_store rejects db item st :
  fs (selectPdf rejects db item st) = fs st.
Proof.
  destruct db; [apply selectPdf_ui|reflexivity].
Qed.

Lemma uploadLoop_untouched rejects k pdf s other n : forall i st,
  other <> pdf ->
  untouched other (fs (snd (uploadLoop rejects k pdf s n i st))) (fs st).
Proof.
  induction n as [|n IH]; intros i st Hne; [apply untouched_refl|].
  cbn [uploadLoop]. unfold bind at 1, setDoc, request.
  destruct (rejects _); [apply untouched_refl|].
  eapply untouched_trans; [now apply IH|]. cbn [fs setFs record].
  now apply untouched_set_chunk.
Qed.

(** X2. Whatever the store rejects and whatever file is chosen, an
    upload changes no record of any other document: their metadata,
    their chunks and their annotations are as before. *)
Theorem upload_touches_only_new_document rejects isFirebaseConfigured db
        k uid now newId file st other :
  other <> newId ->
  untouched other
    (fs (handleAddPdf rejects isFirebaseConfigured db k uid now newId file st))
    (fs st).
Proof.
  intros Hne. unfold handleAddPdf.
  destruct file as [file|]; [|apply untouched_refl].
  destruct (_ || _); [apply untouched_refl|].
  destruct (_ || _); [apply untouched_refl|].
  cbn [setLoading fs].
  unfold try_catch, handleAddPdf_body, bind at 1, addDoc, bind at 1, request, ret.
  destruct (rejects (AddPdf _ _)); [apply untouched_refl|].
  unfold bind at 1.
  match goal with
  | |- context [uploadLoop rejects k newId ?s ?n ?i ?st0] =>
      pose proof (uploadLoop_untouched rejects k newId s other n i st0 Hne) as Hloop;
      destruct (uploadLoop rejects k newId s n i st0) as [[[]|e] st1]
  end; cbn [snd] in Hloop.
  - unfold bind, update. cbn [fs setPdfs]. rewrite selectPdf_keeps_store.
    cbn [fs]. eapply untouched_trans; [exact Hloop|].
    cbn [fs setFs record setLoading setError]. now apply untouched_add_pdf.
  - cbn [fs setError]. eapply untouched_trans; [exact Hloop|].
    cbn [fs setFs record setLoading setError]. now apply untouched_add_pdf.
Qed.

Lemma upload_touches_only_new_document_witness :
  untouched Samples.doc1 (fs Cases.both_uploaded) (fs Samples.hello_uploaded).
Proof.
  apply (upload_touches_only_new_document reliable true true 4 None 7 Cases.doc2
           (Some Samples.hello_pdf) Samples.hello_uploaded Samples.doc1).
  discriminate.
Defined.

(** ** Reading goes by the [index] fields *)

(** The collection holding the chunks of a text under the document ids
    [key] assigns. *)
Definition keyed (key : N -> jsstring) (k : N) (s : jsstring) (j : N)
  : jsstring * ChunkDoc :=
  (key j, chunkDoc k s j).

Lemma keyed_sorted key k s l :
  Sorted N.lt l -> Sorted by_index (map (keyed key k s) l).
Proof.
  induction 1 as [|j l _ IH Hhd]; constructor; [assumption|].
  destruct Hhd as [|j' l Hlt]; constructor.
  unfold by_index, by_index_leb, keyed. cbn [fst snd index chunkDoc].
  now apply N.compare_lt_iff in Hlt as ->.
Qed.

Lemma pushed_keyed key k s l :
  (forall j, j ∈ l -> chunkAt k s j <> []) ->
  omap pushedData (map (keyed key k s) l) = map (chunkAt k s) l.
Proof.
  induction l as [|j l IH]; intros Hne; [reflexivity|].
  cbn [map omap list_omap]. unfold pushedData at 1. cbn [keyed snd chunkDoc data].
  destruct (chunkAt k s j) eqn:E.
  - exfalso. apply (Hne j); [left|assumption].
  - cbn [JS.truthy]. rewrite <- E. f_equal. apply IH.
    intros j' Hj'. apply Hne. now right.
Qed.

(** X3. Reading puts the chunks in the order of their [index] fields,
    whatever their document ids are: when the collection holds the
    chunks of a non-empty file under any distinct ids, the viewer shows
    exactly the bytes of the file. *)
Theorem select_orders_by_index_field k key file item st :
  1 <= k ->
  file_bytes file <> [] ->
  NoDup (map key (indices (N.to_nat (numChunksOf k file)) 0)) ->
  chunksOf (fs st) (item_id item) =
    list_to_map (map (keyed key k (base64Of file))
                     (indices (N.to_nat (numChunksOf k file)) 0)) ->
  selectedPdfUrl (ui (selectPdf reliable true item st)) =
    Some {| blob_bytes := file_bytes file;
            blob_type := JS.or_else (default [] (item_mimeType item))
                                    (str "application/pdf") |} /\
  error (ui (selectPdf reliable true item st)) = None.
Proof.
  intros Hk Hne Hkeys Hchunks.
  rewrite (selectPdf_run item st
             (map (keyed key k (base64Of file))
                  (indices (N.to_nat (numChunksOf k file)) 0))).
  2: { rewrite Hchunks. apply map_to_list_to_map.
       now rewrite <- list_fmap_compose. }
  2: { apply keyed_sorted, indices_sorted. }
  destruct (ceil_div_spec k Hk (JS.length (base64Of file))) as (Hle & Hlast & Hzero).
  fold (numChunksOf k file) in Hle, Hlast, Hzero.
  pose proof (length_base64Of file) as HL.
  assert (Hsize : 0 < file_size file).
  { unfold file_size. destruct (file_bytes file); [contradiction|cbn; lia]. }
  assert (Hn : 0 < numChunksOf k file) by (zify; Z.to_euclidean_division_equations; nia).
  rewrite pushed_keyed.
  2: { intros j Hj. apply (chunkAt_nonempty k Hk).
       apply elem_of_indices in Hj. unfold numChunksOf in Hj. lia. }
  rewrite (selectPdf_finish_blob _ _ _ (map fromCharCode (file_bytes file))).
  - cbn. now rewrite bytes_of_binary.
  - destruct (N.to_nat (numChunksOf k file)) eqn:E; [lia|discriminate].
  - rewrite (join_uploaded_chunks k file Hk). apply atob_base64Of.
Qed.

Lemma select_orders_by_index_field_witness :
  selectedPdfUrl (ui (selectPdf reliable true Samples.hello_item Cases.hello_reversed))
  = Some {| blob_bytes := Samples.bytes_of "Hello, world";
            blob_type := str "application/pdf" |}.
Proof.
  destruct (select_orders_by_index_field 4 Cases.reversed_key Samples.hello_pdf
              Samples.hello_item Cases.hello_reversed) as [H _].
  - lia.
  - discriminate.
  - apply (bool_decide_unpack _). vm_compute. exact I.
  - reflexivity.
  - exact H.
Defined.

(** ** A chunk that is not base64 *)

Lemma sextets_invalid c d :
  c ∈ d -> Base64.b64val c = None -> Base64.sextets d = None.
Proof.
  intros Hin Hc. induction d as [|x d IH]; [inversion Hin|].
  cbn [Base64.sextets]. apply elem_of_cons in Hin as [<-|Hin].
  - now rewrite Hc.
  - rewrite (IH Hin). now destruct (Base64.b64val x).
Qed.

Lemma elem_of_rev_iff {A} (c : A) l : c ∈ rev l <-> c ∈ l.
Proof. rewrite !list_elem_of_In. symmetry. apply in_rev. Qed.

Lemma strip_padding_keeps c d :
  c ∈ d -> c <> Base64.pad -> c ∈ Base64.strip_padding d.
Proof.
  intros Hin Hc. unfold Base64.strip_padding.
  destruct (JS.length d mod 4 =? 0); [|assumption].
  assert (Hrev : c ∈ rev d) by now apply elem_of_rev_iff.
  destruct (rev d) as [|c1 [|c2 r]] eqn:E; [assumption| |].
  - destruct (Ascii.eqb_spec c1 Base64.pad) as [->|]; [|assumption].
    apply list_elem_of_singleton in Hrev. contradiction.
  - destruct (Ascii.eqb_spec c1 Base64.pad) as [->|]; [|assumption].
    apply elem_of_cons in Hrev as [?|Hrev]; [contradiction|].
    destruct (Ascii.eqb_spec c2 Base64.pad) as [->|].
    + apply elem_of_cons in Hrev as [?|Hrev]; [contradiction|].
      now apply elem_of_rev_iff.
    + now apply elem_of_rev_iff.
Qed.

(** [atob] throws on every text that holds a character outside the
    alphabet. *)
Lemma atob_invalid c s : c ∈ s -> outside_alphabet c -> Base64.atob s = None.
Proof.
  intros Hin (Hval & Hpad & Hws). unfold Base64.atob.
  assert (H : c ∈ Base64.strip_padding (Base64.remove_whitespace s)).
  { apply strip_padding_keeps; [|assumption].
    unfold Base64.remove_whitespace. apply list_elem_of_In, filter_In.
    split; [now apply list_elem_of_In | now rewrite Hws]. }
  destruct (_ =? 1); [reflexivity|].
  now rewrite (sextets_invalid c _ H Hval).
Qed.

Lemma pushed_elem (e : jsstring * ChunkDoc) (l : list (jsstring * ChunkDoc)) :
  e ∈ l -> data (snd e) <> [] -> data (snd e) ∈ omap pushedData l.
Proof.
  intros Hin Hne. apply list_elem_of_omap. exists e. split; [assumption|].
  unfold pushedData. destruct (data (snd e)); [contradiction|reflexivity].
Qed.

(** X4. When some stored chunk of the document holds a character that
    is neither in the base64 alphabet nor padding nor white space,
    selecting the document fails with the decoder's error: the error
    line shows it, the selection moves to the document, and the viewer
    keeps the blob it showed before. *)
Theorem select_corrupt_chunk item st key d c :
  chunksOf (fs st) (item_id item) !! key = Some d ->
  c ∈ data d ->
  outside_alphabet c ->
  let st' := selectPdf reliable true item st in
  error (ui st') = Some (MessageOf InvalidCharacterError) /\
  selectedPdfId (ui st') = Some (item_id item) /\
  selectedPdfUrl (ui st') = selectedPdfUrl (ui st) /\
  fs st' = fs st.
Proof.
  intros Hd Hc Hout. cbv zeta.
  rewrite selectPdf_fs.
  rewrite (selectPdf_run item st
             (merge_sort by_index (map_to_list (chunksOf (fs st) (item_id item))))).
  2: { now rewrite merge_sort_Permutation. }
  2: { apply Sorted_merge_sort. apply _. }
  assert (Hin : data d ∈ omap pushedData
             (merge_sort by_index (map_to_list (chunksOf (fs st) (item_id item))))).
  { apply (pushed_elem (key, d)).
    - rewrite merge_sort_Permutation. now apply elem_of_map_to_list.
    - cbn. intros E. rewrite E in Hc. inversion Hc. }
  unfold selectPdf_finish.
  destruct (omap pushedData _) as [|p parts] eqn:E; [inversion Hin|].
  rewrite (atob_invalid c).
  - cbn. repeat split.
  - unfold JS.join. apply list_elem_of_In, in_concat. exists (data d).
    split; apply list_elem_of_In; assumption.
  - assumption.
Qed.

Lemma select_corrupt_chunk_witness :
  error (ui (selectPdf reliable true Samples.hello_item Cases.hello_corrupt))
  = Some (MessageOf InvalidCharacterError) /\
  selectedPdfUrl (ui (selectPdf reliable true Samples.hello_item Cases.hello_corrupt))
  = selectedPdfUrl (ui Cases.hello_corrupt).
Proof.
  destruct (select_corrupt_chunk Samples.hello_item Cases.hello_corrupt
              (chunkId 1) {| index := 1; data := str "bG*s" |} "*"%char)
    as (H1 & _ & H2 & _).
  - reflexivity.
  - cbn. right. right. left.
  - repeat split. discriminate.
  - split; [exact H1|exact H2].
Defined.

(** ** Deleting a document *)

Lemma untouched_unless rejects op effect other f :
  untouched other (effect f) f ->
  untouched other (unless_rejected rejects op effect f) f.
Proof. unfold unless_rejected. destruct (rejects op); auto using untouched_refl. Qed.

Lemma untouched_deletes rejects pdf other keys : forall f,
  other <> pdf ->
  untouched other
    (foldl (fun f c => unless_rejected rejects (DeleteChunk pdf c)
                         (delete_chunk pdf c) f) f keys) f.
Proof.
  induction keys as [|c keys IH]; intros f Hne; cbn [foldl];
    [apply untouched_refl|].
  eapply untouched_trans; [now apply IH|].
  now apply untouched_unless, untouched_delete_chunk.
Qed.

(** X5. Whatever the store rejects, deleting changes no record of a
    document other than the selected one. *)
Theorem delete_touches_only_selected rejects db confirmed st other :
  selectedPdfId (ui st) <> Some other ->
  untouched other (fs (handleDeleteSelectedPdf rejects db confirmed st)) (fs st).
Proof.
  intros Hsel. unfold handleDeleteSelectedPdf.
  destruct (negb db); [apply untouched_refl|].
  destruct (selectedPdfId (ui st)) as [[|c sel]|] eqn:E; try apply untouched_refl.
  destruct (negb confirmed); [apply untouched_refl|].
  assert (Hne : other <> c :: sel) by congruence.
  unfold try_catch.
  destruct (rejects (ListChunks (c :: sel))) eqn:Hlist.
  - rewrite handleDelete_body_rejected by assumption. apply untouched_refl.
  - rewrite handleDelete_body_run by assumption. cbv zeta.
    assert (H1 : forall keys, untouched other
       (unless_rejected rejects (DeleteAnnotations (c :: sel))
          (delete_annotations (c :: sel))
          (foldl (fun f c0 => unless_rejected rejects (DeleteChunk (c :: sel) c0)
                                (delete_chunk (c :: sel) c0) f) (fs st) keys))
       (fs st)).
    { intros keys. eapply untouched_trans.
      - now apply untouched_unless, untouched_delete_annotations.
      - now apply untouched_deletes. }
    destruct (rejects (DeletePdf (c :: sel))).
    + cbn [fs setError]. apply H1.
    + cbn [fs setSelectedPdfUrl setSelectedPdfId setPdfs setFs].
      eapply untouched_trans; [now apply untouched_delete_pdf | apply H1].
Qed.

Lemma delete_touches_only_selected_witness :
  selectedPdfId (ui Cases.both_uploaded) = Some Cases.doc2 /\
  untouched Samples.doc1
    (fs (handleDeleteSelectedPdf reliable true true Cases.both_uploaded))
    (fs Cases.both_uploaded).
Proof.
  split; [reflexivity|].
  apply (delete_touches_only_selected reliable true true Cases.both_uploaded
           Samples.doc1).
  change (selectedPdfId (ui Cases.both_uploaded)) with (Some Cases.doc2).
  discriminate.
Defined.

(** The state a confirmed delete on a reliable store ends in. *)
Lemma delete_reliable_state c sel st :
  selectedPdfId (ui st) = Some (c :: sel) ->
  handleDeleteSelectedPdf reliable true true st =
  let pdf := c :: sel in
  let keys := map fst (merge_sort by_key (map_to_list (chunksOf (fs st) pdf))) in
  setSelectedPdfUrl None
    (setSelectedPdfId None
       (setPdfs (List.filter (fun p => negb (bool_decide (item_id p = pdf))))
          (setFs (delete_pdf pdf)
             {| fs := delete_annotations pdf
                        (foldl (fun f c => unless_rejected reliable (DeleteChunk pdf c)
                                             (delete_chunk pdf c) f) (fs st) keys);
                log := log st ++ ListChunks pdf :: map (DeleteChunk pdf) keys
                              ++ [DeleteAnnotations pdf; DeletePdf pdf];
                ui := ui st |}))).
Proof.
  intros Hsel. unfold handleDeleteSelectedPdf. cbn [negb].
  rewrite Hsel. unfold try_catch. rewrite handleDelete_body_run by reflexivity.
  cbv zeta. change (reliable (DeletePdf (c :: sel))) with false. cbv iota.
  reflexivity.
Qed.

Lemma chunks_all_deleted pdf f :
  chunksOf
    (foldl (fun f c => unless_rejected reliable (DeleteChunk pdf c)
                         (delete_chunk pdf c) f) f
           (map fst (merge_sort by_key (map_to_list (chunksOf f pdf))))) pdf = ∅.
Proof.
  apply map_eq. intros key. rewrite lookup_empty, chunksOf_after_deletes.
  unfold reliable at 1. cbn [negb]. rewrite andb_true_r.
  case_bool_decide as Hin; [reflexivity|]. now apply listed_keys.
Qed.

(** X6. After a confirmed delete on a store that rejects nothing, no
    record of the document is left (metadata, chunks, annotations), the
    list no longer holds it, nothing is selected, and selecting the
    deleted document again shows no document and no error. *)
Theorem delete_then_select_shows_nothing c sel st item :
  selectedPdfId (ui st) = Some (c :: sel) ->
  item_id item = c :: sel ->
  let st1 := handleDeleteSelectedPdf reliable true true st in
  pdfs (fs st1) !! (c :: sel) = None /\
  chunksOf (fs st1) (c :: sel) = ∅ /\
  annotations (fs st1) !! (c :: sel) = None /\
  (forall p, p ∈ ui_pdfs (ui st1) <-> p ∈ ui_pdfs (ui st) /\ item_id p <> c :: sel) /\
  selectedPdfId (ui st1) = None /\
  selectedPdfUrl (ui st1) = None /\
  selectedPdfUrl (ui (selectPdf reliable true item st1)) = None /\
  error (ui (selectPdf reliable true item st1)) = None.
Proof.
  intros Hsel Hitem. cbv zeta. rewrite (delete_reliable_state c sel st Hsel).
  cbv zeta.
  assert (Hchunks : forall u l,
    chunksOf (fs (setSelectedPdfUrl None (setSelectedPdfId None (setPdfs
      (List.filter (fun p => negb (bool_decide (item_id p = c :: sel))))
      (setFs (delete_pdf (c :: sel))
        {| fs := delete_annotations (c :: sel)
             (foldl (fun f c0 => unless_rejected reliable (DeleteChunk (c :: sel) c0)
                       (delete_chunk (c :: sel) c0) f) (fs st)
                (map fst (merge_sort by_key
                   (map_to_list (chunksOf (fs st) (c :: sel))))));
           log := l; ui := u |}))))) (c :: sel) = ∅).
  { intros u l. apply chunks_all_deleted. }
  split; [|split; [|split; [|split; [|split; [|split]]]]].
  - cbn. apply lookup_delete_eq.
  - apply Hchunks.
  - cbn. apply lookup_delete_eq.
  - intros p. cbn [ui setSelectedPdfUrl setSelectedPdfId setPdfs setFs ui_pdfs].
    rewrite !list_elem_of_In, filter_In, negb_true_iff, bool_decide_eq_false.
    reflexivity.
  - reflexivity.
  - reflexivity.
  - rewrite (selectPdf_run item _ []).
    + cbn. split; reflexivity.
    + rewrite Hitem, Hchunks. now rewrite map_to_list_empty.
    + constructor.
Qed.

Lemma delete_then_select_shows_nothing_witness :
  chunksOf (fs (handleDeleteSelectedPdf reliable true true Samples.hello_uploaded))
           Samples.doc1 = ∅ /\
  selectedPdfUrl
    (ui (selectPdf reliable true Samples.hello_item
           (handleDeleteSelectedPdf reliable true true Samples.hello_uploaded)))
  = None.
Proof.
  destruct (delete_then_select_shows_nothing "d"%char (str "oc1")
              Samples.hello_uploaded Samples.hello_item)
    as (_ & H1 & _ & _ & _ & _ & H2 & _).
  - reflexivity.
  - reflexivity.
  - split; [exact H1|exact H2].
Defined.

Lemma untouched_uploads k pdf s other l : forall f,
  other <> pdf ->
  untouched other
    (foldl (fun f j => set_chunk pdf (chunkId j) (chunkDoc k s j) f) f l) f.
Proof.
  induction l as [|j l IH]; intros f Hne; cbn [foldl]; [apply untouched_refl|].
  eapply untouched_trans; [now apply IH|]. now apply untouched_set_chunk.
Qed.

Lemma uploaded_untouched k uid now newId file st other :
  other <> newId ->
  untouched other (fs (uploaded k uid now newId file st)) (fs st).
Proof.
  intros Hne. unfold uploaded. cbn [fs].
  eapply untouched_trans; [now apply untouched_uploads|].
  now apply untouched_add_pdf.
Qed.

(** X7. On a store that rejects nothing, uploading a file under an id
    the store does not know and then deleting it brings every document
    of the store, the new one included, back to the records it had, and
    the list back to its entries, with nothing selected. *)
Theorem upload_then_delete_restores k uid now newId file st :
  JS.includes (file_type file) (str "pdf") = true ->
  newId <> [] ->
  pdfs (fs st) !! newId = None ->
  chunks (fs st) !! newId = None ->
  annotations (fs st) !! newId = None ->
  (forall p, p ∈ ui_pdfs (ui st) -> item_id p <> newId) ->
  let st2 := handleDeleteSelectedPdf reliable true true
               (handleAddPdf reliable true true k uid now newId (Some file) st) in
  (forall other, untouched other (fs st2) (fs st)) /\
  ui_pdfs (ui st2) = ui_pdfs (ui st) /\
  selectedPdfId (ui st2) = None /\
  selectedPdfUrl (ui st2) = None.
Proof.
  intros Hpdf Hid Hp Hc Ha Hlist. cbv zeta.
  destruct newId as [|c sel]; [contradiction|].
  set (st1 := handleAddPdf reliable true true k uid now (c :: sel) (Some file) st).
  assert (Hfs1 : fs st1 = fs (uploaded k uid now (c :: sel) file st))
    by now apply handleAddPdf_fs.
  assert (Hui1 : selectedPdfId (ui st1) = Some (c :: sel) /\
                 ui_pdfs (ui st1) = itemOf k (c :: sel) file :: ui_pdfs (ui st)).
  { unfold st1. rewrite (handleAddPdf_run k uid now (c :: sel) file st Hpdf).
    cbn [setLoading ui selectedPdfId ui_pdfs].
    destruct (selectPdf_ui reliable (itemOf k (c :: sel) file)
                (setPdfs (fun prev => itemOf k (c :: sel) file :: prev)
                         (uploaded k uid now (c :: sel) file st)))
      as (-> & -> & _).
    split; reflexivity. }
  destruct Hui1 as [Hsel1 Hpdfs1].
  rewrite (delete_reliable_state c sel st1 Hsel1). cbv zeta.
  cbn [ui fs setSelectedPdfUrl setSelectedPdfId setPdfs setFs ui_pdfs
       selectedPdfId selectedPdfUrl].
  split; [|split; [|split; reflexivity]].
  - intros other. destruct (decide (other = c :: sel)) as [->|Hne].
    + split; [|split].
      * cbn. now rewrite lookup_delete_eq, Hp.
      * change (chunksOf (delete_pdf (c :: sel) (delete_annotations (c :: sel) ?f)) ?x)
          with (chunksOf f x).
        rewrite chunks_all_deleted. unfold chunksOf. now rewrite Hc.
      * cbn. now rewrite lookup_delete_eq, Ha.
    + eapply untouched_trans; [now apply untouched_delete_pdf|].
      eapply untouched_trans; [now apply untouched_delete_annotations|].
      eapply untouched_trans; [now apply untouched_deletes|].
      rewrite Hfs1. now apply uploaded_untouched.
  - rewrite Hpdfs1. cbn [List.filter item_id itemOf].
    rewrite bool_decide_eq_true_2 by reflexivity. cbn [negb].
    clear Hpdfs1. induction (ui_pdfs (ui st)) as [|p l IH]; [reflexivity|].
    cbn [List.filter]. rewrite bool_decide_eq_false_2 by (apply Hlist; left).
    cbn [negb]. f_equal. apply IH. intros q Hq. apply Hlist. now right.
Qed.

Lemma upload_then_delete_restores_witness :
  untouched Cases.doc2
    (fs (handleDeleteSelectedPdf reliable true true Cases.both_uploaded))
    (fs Samples.hello_uploaded) /\
  ui_pdfs (ui (handleDeleteSelectedPdf reliable true true Cases.both_uploaded))
  = ui_pdfs (ui Samples.hello_uploaded).
Proof.
  destruct (upload_then_delete_restores 4 None 7 Cases.doc2 Samples.hello_pdf
              Samples.hello_uploaded) as (H1 & H2 & _).
  - reflexivity.
  - discriminate.
  - reflexivity.
  - reflexivity.
  - reflexivity.
  - intros p Hp. vm_compute in Hp. apply list_elem_of_singleton in Hp. subst p.
    discriminate.
  - split; [apply H1|exact H2].
Defined.


(** ** Opening a project *)

Import Viewer.

#[export] Instance by_createdAt_desc_total : Total Viewer.by_createdAt_desc.
Proof.
  intros [k1 d1] [k2 d2].
  unfold Viewer.by_createdAt_desc, Viewer.by_createdAt_desc_leb.
  cbn [fst snd]. rewrite (N.compare_antisym (createdAt d1) (createdAt d2)).
  destruct (createdAt d1 ?= createdAt d2); cbn; auto.
  destruct (key_leb_total k1 k2); auto.
Qed.

#[export] Instance by_createdAt_desc_trans : Transitive Viewer.by_createdAt_desc.
Proof.
  intros [k1 d1] [k2 d2] [k3 d3].
  unfold Viewer.by_createdAt_desc, Viewer.by_createdAt_desc_leb.
  cbn [fst snd].
  destruct (N.compare_spec (createdAt d2) (createdAt d1)) as [E1|L1|G1];
    destruct (N.compare_spec (createdAt d3) (createdAt d2)) as [E2|L2|G2];
    try discriminate; intros H1 H2.
  - rewrite E2, E1, N.compare_refl. eauto using key_leb_trans.
  - rewrite <- E1. now apply N.compare_lt_iff in L2 as ->.
  - rewrite E2. now apply N.compare_lt_iff in L1 as ->.
  - assert (L : createdAt d3 < createdAt d1) by lia.
    now apply N.compare_lt_iff in L as ->.
Qed.

Lemma by_createdAt_desc_le e1 e2 :
  Viewer.by_createdAt_desc e1 e2 -> createdAt (snd e2) <= createdAt (snd e1).
Proof.
  unfold Viewer.by_createdAt_desc, Viewer.by_createdAt_desc_leb.
  destruct (N.compare_spec (createdAt (snd e2)) (createdAt (snd e1)));
    try discriminate; lia.
Qed.

(** The run of [load] when the listing arrives. *)
Lemma load_run rejects st :
  Viewer.load rejects true true None st =
  setLoading false
    (match rowsOf (fs st) with
     | first :: _ =>
         selectPdf rejects true first
           (setPdfs (fun _ => rowsOf (fs st)) (setError None (setLoading true st)))
     | [] =>
         setSelectedPdfUrl None
           (setSelectedPdfId None
              (setPdfs (fun _ => rowsOf (fs st)) (setError None (setLoading true st))))
     end).
Proof.
  unfold Viewer.load, Viewer.load_body, try_catch, bind at 1, Viewer.getPdfs.
  cbn [negb orb].
  cbn [fs setError setLoading]. fold (rowsOf (fs st)).
  unfold bind at 1, update at 1.
  destruct (rowsOf (fs st)); reflexivity.
Qed.

Lemma omap_lookup {A B} (f : A -> option B) (l : list A) : forall (i : nat) b,
  omap f l !! i = Some b -> exists i' x, l !! i' = Some x /\ f x = Some b.
Proof.
  intros i b H. apply list_elem_of_lookup_2, list_elem_of_omap in H as (x & Hx & E).
  apply list_elem_of_lookup_1 in Hx as [i' Hi']. eauto.
Qed.

(** [omap] keeps the order of what it keeps. *)
Lemma omap_lookup_lt {A B} (f : A -> option B) (l : list A) :
  forall (i j : nat) a b,
  (i < j)%nat -> omap f l !! i = Some a -> omap f l !! j = Some b ->
  exists i' j' x y,
    (i' < j')%nat /\ l !! i' = Some x /\ l !! j' = Some y /\
    f x = Some a /\ f y = Some b.
Proof.
  induction l as [|x l IH]; intros i j a b Hij Hi Hj; [discriminate|].
  cbn [omap list_omap] in Hi, Hj. destruct (f x) as [a0|] eqn:E.
  - destruct j as [|j]; [lia|]. cbn in Hj. destruct i as [|i].
    + cbn in Hi. injection Hi as ->.
      destruct (omap_lookup f l j b Hj) as (j' & y & Hy & Ey).
      exists 0%nat, (S j'), x, y. repeat split; try assumption; lia.
    + cbn in Hi. destruct (IH i j a b ltac:(lia) Hi Hj)
        as (i' & j' & x' & y' & Hlt & Hx' & Hy' & Ex & Ey).
      exists (S i'), (S j'), x', y'. repeat split; try assumption; lia.
  - destruct (IH i j a b Hij Hi Hj)
      as (i' & j' & x' & y' & Hlt & Hx' & Hy' & Ex & Ey).
    exists (S i'), (S j'), x', y'. repeat split; try assumption; lia.
Qed.

Lemma StronglySorted_lookup {A} (R : relation A) l (i j : nat) a b :
  StronglySorted R l -> (i < j)%nat ->
  l !! i = Some a -> l !! j = Some b -> R a b.
Proof.
  intros Hs. revert i j. induction Hs as [|x l Hl IH Hx]; intros i j Hij Hi Hj.
  - discriminate.
  - destruct j as [|j]; [lia|]. cbn in Hj. destruct i as [|i].
    + cbn in Hi. injection Hi as ->.
      rewrite Forall_forall in Hx. apply Hx. eapply list_elem_of_lookup_2, Hj.
    + cbn in Hi. apply (IH i j); [lia|assumption..].
Qed.

Lemma row_Some e p :
  Viewer.row e = Some p -> item_id p = fst e /\ name (snd e) <> [].
Proof.
  unfold Viewer.row. destruct (name (snd e)) eqn:E; cbn; [discriminate|].
  intros [= <-]. split; [reflexivity|discriminate].
Qed.

Lemma load_ui_pdfs rejects st :
  ui_pdfs (ui (Viewer.load rejects true true None st)) = rowsOf (fs st).
Proof.
  rewrite load_run.
  destruct (rowsOf (fs st)) as [|first rows] eqn:E; [reflexivity|].
  cbn [setLoading ui ui_pdfs].
  now destruct (selectPdf_ui rejects first
    (setPdfs (fun _ => first :: rows) (setError None (setLoading true st))))
    as (_ & -> & _).
Qed.

(** X8. When the listing arrives, opening a project lists exactly the
    stored documents that have a name, each once, a later [createdAt]
    before an earlier one; the first row is selected (no row: nothing
    is), the loading flag is reset and the store is not changed. *)
Theorem load_lists_named_documents rejects st :
  let st' := Viewer.load rejects true true None st in
  ui_pdfs (ui st') ≡ₚ omap Viewer.row (map_to_list (pdfs (fs st))) /\
  (forall (i j : nat) a b da db,
     (i < j)%nat ->
     ui_pdfs (ui st') !! i = Some a -> ui_pdfs (ui st') !! j = Some b ->
     pdfs (fs st) !! item_id a = Some da -> pdfs (fs st) !! item_id b = Some db ->
     createdAt db <= createdAt da) /\
  selectedPdfId (ui st') = item_id <$> head (ui_pdfs (ui st')) /\
  loading (ui st') = false /\
  fs st' = fs st.
Proof.
  cbv zeta. rewrite load_ui_pdfs. split; [|split; [|split; [|split]]].
  - unfold rowsOf. apply omap_Permutation, merge_sort_Permutation.
  - intros i j a b da db Hij Hi Hj Ha Hb. unfold rowsOf in Hi, Hj.
    destruct (omap_lookup_lt Viewer.row _ i j a b Hij Hi Hj)
      as (i' & j' & x & y & Hlt & Hx & Hy & Ex & Ey).
    assert (Hs : StronglySorted Viewer.by_createdAt_desc
                   (merge_sort Viewer.by_createdAt_desc (map_to_list (pdfs (fs st)))))
      by (apply StronglySorted_merge_sort; apply _).
    pose proof (StronglySorted_lookup _ _ _ _ _ _ Hs Hlt Hx Hy) as HR.
    apply by_createdAt_desc_le in HR.
    apply row_Some in Ex as [Ex _], Ey as [Ey _].
    apply list_elem_of_lookup_2 in Hx, Hy.
    rewrite merge_sort_Permutation in Hx, Hy.
    destruct x as [kx dx], y as [ky dy]. cbn [fst snd] in *.
    apply elem_of_map_to_list in Hx, Hy. congruence.
  - rewrite load_run.
    destruct (rowsOf (fs st)) as [|first rows] eqn:E; [reflexivity|].
    cbn [setLoading ui selectedPdfId head fmap option_fmap option_map].
    now destruct (selectPdf_ui rejects first
      (setPdfs (fun _ => first :: rows) (setError None (setLoading true st))))
      as (-> & _).
  - rewrite load_run. reflexivity.
  - rewrite load_run.
    destruct (rowsOf (fs st)) as [|first rows] eqn:E; [reflexivity|].
    cbn [setLoading fs].
    now destruct (selectPdf_ui rejects first
      (setPdfs (fun _ => first :: rows) (setError None (setLoading true st))))
      as (_ & _ & _ & ->).
Qed.

Lemma load_lists_named_documents_witness :
  map item_id (ui_pdfs (ui (Viewer.load reliable true true None Cases.both_uploaded)))
  = [Cases.doc2; Samples.doc1] /\
  createdAt (StoreFacts.metaOf 4 None 0 Samples.hello_pdf)
  <= createdAt (StoreFacts.metaOf 4 None 7 Samples.hello_pdf).
Proof.
  destruct (load_lists_named_documents reliable Cases.both_uploaded)
    as (_ & Hsorted & _).
  split; [reflexivity|].
  apply (Hsorted 0%nat 1%nat
           (StoreFacts.itemOf 4 Cases.doc2 Samples.hello_pdf)
           (StoreFacts.itemOf 4 Samples.doc1 Samples.hello_pdf)
           (StoreFacts.metaOf 4 None 7 Samples.hello_pdf)
           (StoreFacts.metaOf 4 None 0 Samples.hello_pdf));
    [lia|reflexivity..].
Defined.

(** The newest document heads the listing. *)
Lemma newest_first (m : gmap jsstring PdfDoc) newId d :
  m !! newId = None ->
  (forall other d', m !! other = Some d' -> createdAt d' < createdAt d) ->
  exists rest,
    merge_sort Viewer.by_createdAt_desc (map_to_list (<[newId := d]> m))
    = (newId, d) :: rest.
Proof.
  intros Hfresh Hnew.
  set (L := merge_sort Viewer.by_createdAt_desc (map_to_list (<[newId := d]> m))).
  assert (Hs : StronglySorted Viewer.by_createdAt_desc L)
    by (apply StronglySorted_merge_sort; apply _).
  assert (Hin : (newId, d) ∈ L).
  { unfold L. rewrite merge_sort_Permutation. apply elem_of_map_to_list.
    apply lookup_insert_eq. }
  destruct L as [|h t] eqn:E; [inversion Hin|].
  apply elem_of_cons in Hin as [<-|Hin]; [now exists t|exfalso].
  inversion Hs as [|? ? _ Hall]; subst.
  rewrite Forall_forall in Hall.
  pose proof (by_createdAt_desc_le _ _ (Hall _ Hin)) as Hle. cbn [snd] in Hle.
  assert (Hh : h ∈ map_to_list (<[newId := d]> m)).
  { rewrite <- (merge_sort_Permutation Viewer.by_createdAt_desc). fold L.
    rewrite E. left. }
  destruct h as [kh dh]. apply elem_of_map_to_list in Hh. cbn [snd] in Hle.
  destruct (decide (kh = newId)) as [->|Hne].
  - rewrite lookup_insert_eq in Hh. injection Hh as <-.
    assert (Hnd : NoDup (map fst ((newId, d) :: t))).
    { rewrite <- E. unfold L.
      rewrite (merge_sort_Permutation Viewer.by_createdAt_desc).
      apply NoDup_fst_map_to_list. }
    cbn in Hnd. apply NoDup_cons in Hnd as [Hnot _]. apply Hnot.
    apply list_elem_of_fmap. now exists (newId, d).
  - rewrite lookup_insert_ne in Hh by congruence.
    specialize (Hnew _ _ Hh). lia.
Qed.

(** X9. After a non-empty, named file has been uploaded at a server
    time later than that of every stored document, opening the project
    again lists it first, selects it and shows exactly its bytes. *)
Theorem reload_after_upload_shows_file k uid now newId file st :
  1 <= k ->
  JS.includes (file_type file) (str "pdf") = true ->
  file_name file <> [] ->
  file_bytes file <> [] ->
  pdfs (fs st) !! newId = None ->
  chunks (fs st) !! newId = None ->
  (forall other d, pdfs (fs st) !! other = Some d -> createdAt d < now) ->
  let st1 := handleAddPdf reliable true true k uid now newId (Some file) st in
  let st2 := Viewer.load reliable true true None st1 in
  head (ui_pdfs (ui st2)) = Some (itemOf k newId file) /\
  selectedPdfId (ui st2) = Some newId /\
  selectedPdfUrl (ui st2)
  = Some {| blob_bytes := file_bytes file; blob_type := file_type file |} /\
  error (ui st2) = None.
Proof.
  intros Hk Hpdf Hname Hbytes Hp Hc Hnew. cbv zeta.
  set (st1 := handleAddPdf reliable true true k uid now newId (Some file) st).
  assert (Hfs1 : fs st1 = fs (uploaded k uid now newId file st))
    by now apply handleAddPdf_fs.
  assert (Hrows : exists rows, rowsOf (fs st1) = itemOf k newId file :: rows).
  { unfold rowsOf. rewrite Hfs1. unfold uploaded. cbn [fs].
    rewrite pdfs_uploads. cbn [add_pdf pdfs].
    destruct (newest_first (pdfs (fs st)) newId (metaOf k uid now file) Hp)
      as [rest ->]; [exact Hnew|].
    cbn [omap list_omap]. unfold Viewer.row at 1. cbn [fst snd metaOf name].
    destruct (file_name file) eqn:E; [contradiction|].
    cbn [JS.truthy]. eexists. unfold itemOf. rewrite E. reflexivity. }
  destruct Hrows as [rows Hrows].
  rewrite load_run, Hrows.
  set (st0 := setPdfs (fun _ => itemOf k newId file :: rows)
                      (setError None (setLoading true st1))).
  assert (Hsel : selectPdf reliable true (itemOf k newId file) st0 =
    selectPdf_finish (itemOf k newId file)
      (map (chunkAt k (base64Of file)) (indices (N.to_nat (numChunksOf k file)) 0))
      (record (ListChunksByIndex newId)
         (setError None (setSelectedPdfId (Some newId) st0)))).
  { rewrite (selectPdf_run _ _
               (map (entry k (base64Of file))
                    (indices (N.to_nat (numChunksOf k file)) 0))).
    - rewrite pushed_entries; [reflexivity|].
      intros j Hj. apply (chunkAt_nonempty k Hk).
      apply elem_of_indices in Hj. unfold numChunksOf in Hj. lia.
    - unfold st0. cbn [fs setPdfs setError setLoading itemOf item_id].
      rewrite Hfs1. now apply uploaded_chunks.
    - apply entries_sorted, indices_sorted. }
  rewrite Hsel.
  destruct (ceil_div_spec k Hk (JS.length (base64Of file))) as (Hle & Hlast & Hzero).
  fold (numChunksOf k file) in Hle, Hlast, Hzero.
  pose proof (length_base64Of file) as HL.
  assert (Hsize : 0 < file_size file).
  { unfold file_size. destruct (file_bytes file); [contradiction|cbn; lia]. }
  assert (Hn : 0 < numChunksOf k file) by (zify; Z.to_euclidean_division_equations; nia).
  rewrite (selectPdf_finish_blob _ _ _ (map fromCharCode (file_bytes file))).
  - cbn. rewrite bytes_of_binary. repeat split.
    do 2 f_equal. unfold mimeOf.
    apply (includes_truthy _ (str "pdf")) in Hpdf; [|discriminate].
    destruct (file_type file); [discriminate|reflexivity].
  - destruct (N.to_nat (numChunksOf k file)) eqn:E; [lia|discriminate].
  - rewrite (join_uploaded_chunks k file Hk). apply atob_base64Of.
Qed.

Lemma reload_after_upload_shows_file_witness :
  selectedPdfId (ui (Viewer.load reliable true true None Cases.both_uploaded))
  = Some Cases.doc2 /\
  selectedPdfUrl (ui (Viewer.load reliable true true None Cases.both_uploaded))
  = Some {| blob_bytes := Samples.bytes_of "Hello, world";
            blob_type := str "application/pdf" |}.
Proof.
  destruct (reload_after_upload_shows_file 4 None 7 Cases.doc2 Samples.hello_pdf
              Samples.hello_uploaded) as (_ & H1 & H2 & _).
  - lia.
  - reflexivity.
  - discriminate.
  - discriminate.
  - reflexivity.
  - reflexivity.
  - intros other d Hd.
    destruct (decide (other = Samples.doc1)) as [->|Hne].
    + vm_compute in Hd. injection Hd as <-. cbn. lia.
    + exfalso. revert Hd.
      change (pdfs (fs Samples.hello_uploaded))
        with (<[Samples.doc1 := StoreFacts.metaOf 4 None 0 Samples.hello_pdf]>
                (∅ : gmap jsstring PdfDoc)).
      rewrite lookup_insert_ne by congruence. now rewrite lookup_empty.
  - split; [exact H1|exact H2].
Defined.

(** ** Chunk keys and chunk counts *)

(** X10. For every index a loop counter can take, that is up to
    [Number.MAX_SAFE_INTEGER], the key of a chunk is a string of at
    least six digits that denotes its index, also from 1,000,000 on
    where it grows beyond six: two chunks have the same key only when
    they have the same index. *)
Theorem chunk_keys_never_collide i j :
  i <= MAX_SAFE_INTEGER ->
  j <= MAX_SAFE_INTEGER ->
  (chunkId i = chunkId j <-> i = j) /\
  value (chunkId i) = i /\
  Forall is_digit (chunkId i) /\
  6 <= JS.length (chunkId i).
Proof.
  intros _ _.
  split; [split; [apply chunkId_inj | now intros ->]|].
  split; [apply chunkId_value|]. split; [apply chunkId_digits|].
  rewrite chunkId_unfold. destruct (6 <=? JS.length (toString i)) eqn:E.
  - now apply N.leb_le in E.
  - apply N.leb_gt in E. unfold JS.length in *.
    rewrite length_app, length_replicate. lia.
Qed.

Lemma chunk_keys_never_collide_witness :
  chunkId 1000000 <> chunkId 999999 /\ value (chunkId 1000000) = 1000000.
Proof.
  destruct (chunk_keys_never_collide 1000000 999999) as ([H _] & Hv & _).
  - unfold MAX_SAFE_INTEGER. vm_compute. discriminate.
  - unfold MAX_SAFE_INTEGER. vm_compute. discriminate.
  - split; [|exact Hv]. intros E. apply H in E. discriminate.
Defined.

(** X11. With the chunk bound of the source, 500,000 characters, an
    upload to a store that rejects nothing writes one chunk per started
    block of 375,000 bytes of the file: that many [setDoc] requests, in
    index order, between the metadata request and the listing; that
    many documents in the chunk collection of the new document; and
    that number in the [numChunks] field of its metadata. *)
Theorem chunks_per_file uid now newId file st :
  JS.includes (file_type file) (str "pdf") = true ->
  chunks (fs st) !! newId = None ->
  let st' := handleAddPdf reliable true true CHUNK_SIZE uid now newId (Some file) st in
  let n := JS.ceil_div (file_size file) 375000 in
  log st' =
    log st ++
    AddPdf newId (metaOf CHUNK_SIZE uid now file) ::
    map (fun i => SetChunk newId (chunkId i)
                    (chunkDoc CHUNK_SIZE (base64Of file) i))
        (indices (N.to_nat n) 0)
    ++ [ListChunksByIndex newId] /\
  map_to_list (chunksOf (fs st') newId)
    ≡ₚ map (entry CHUNK_SIZE (base64Of file)) (indices (N.to_nat n) 0) /\
  N.of_nat (List.length (map_to_list (chunksOf (fs st') newId))) = n /\
  numChunks <$> pdfs (fs st') !! newId = Some n.
Proof.
  intros Hpdf Hfresh. cbv zeta.
  assert (Hn : numChunksOf CHUNK_SIZE file = JS.ceil_div (file_size file) 375000).
  { unfold numChunksOf. rewrite length_base64Of. unfold CHUNK_SIZE, JS.ceil_div.
    set (s := file_size file).
    destruct (N.eqb_spec ((4 * ((s + 2) / 3)) mod 500000) 0) as [E1|E1];
      destruct (N.eqb_spec (s mod 375000) 0) as [E2|E2];
      zify; Z.to_euclidean_division_equations; lia. }
  rewrite <- Hn.
  rewrite (handleAddPdf_log CHUNK_SIZE uid now newId file st Hpdf).
  rewrite (handleAddPdf_fs CHUNK_SIZE uid now newId file st Hpdf).
  pose proof (uploaded_chunks CHUNK_SIZE uid now newId file st Hfresh) as Hchunks.
  split; [reflexivity|]. split; [exact Hchunks|]. split.
  - rewrite Hchunks, length_map, length_indices. apply N2Nat.id.
  - unfold uploaded. cbn [fs]. rewrite pdfs_uploads. cbn [add_pdf pdfs].
    rewrite lookup_insert_eq. reflexivity.
Qed.

Lemma chunks_per_file_witness :
  N.of_nat (List.length (map_to_list
     (chunksOf (fs (handleAddPdf reliable true true CHUNK_SIZE None 0 Samples.doc1
                      (Some Samples.large_pdf) Samples.initial_state))
               Samples.doc1))) = 3.
Proof.
  assert (Hsize : file_size Samples.large_pdf = 750001).
  { unfold file_size, Samples.large_pdf. cbn [file_bytes].
    now rewrite length_replicate, N2Nat.id. }
  destruct (chunks_per_file None 0 Samples.doc1 Samples.large_pdf
              Samples.initial_state) as (_ & _ & H & _).
  - reflexivity.
  - apply lookup_empty.
  - rewrite H, Hsize. vm_compute. reflexivity.
Defined.

(** * Further properties of the annotation editor *)

Import Annotations Editor.

(** ** Adding, moving and removing highlights *)

Lemma removeHighlight_elem i prev h :
  h ∈ removeHighlight i prev <-> h ∈ prev /\ id h <> i.
Proof.
  unfold removeHighlight. rewrite !list_elem_of_In, filter_In.
  now rewrite bool_decide_eq_true.
Qed.

Lemma removeHighlight_absent i prev :
  (forall h, h ∈ prev -> id h <> i) -> removeHighlight i prev = prev.
Proof.
  induction prev as [|h prev IH]; intros Hall; [reflexivity|].
  cbn. rewrite bool_decide_eq_true_2 by (apply Hall; left).
  f_equal. apply IH. intros h' Hh'. apply Hall. now right.
Qed.

(** X12. Removing a highlight id removes every highlight with that id
    and nothing else: the others stay, in their order, and removing the
    same id again changes nothing. *)
Theorem removeHighlight_removes_exactly i prev :
  (forall h, h ∈ removeHighlight i prev <-> h ∈ prev /\ id h <> i) /\
  sublist (removeHighlight i prev) prev /\
  removeHighlight i (removeHighlight i prev) = removeHighlight i prev.
Proof.
  split; [intros h; apply removeHighlight_elem|]. split.
  - unfold removeHighlight. induction prev as [|h prev IH]; cbn; [constructor|].
    destruct (bool_decide _); now constructor.
  - apply removeHighlight_absent. intros h Hh.
    now apply removeHighlight_elem in Hh.
Qed.

(** X13. Adding a highlight under an id no highlight has and removing
    that id again gives back the list as it was. *)
Theorem remove_after_add_restores random highlight commentText m prev :
  (forall h, h ∈ prev -> id h <> random) ->
  removeHighlight random (addHighlightWithMeta random highlight commentText m prev)
  = prev.
Proof.
  intros Hfresh. unfold addHighlightWithMeta.
  cbn [removeHighlight List.filter id].
  change (List.filter _ prev) with (removeHighlight random prev).
  rewrite bool_decide_eq_false_2 by (intros H; now apply H).
  now apply removeHighlight_absent.
Qed.

Lemma remove_after_add_restores_witness :
  removeHighlight (str "e")
    (addHighlightWithMeta (str "e") EditorCases.selection (str "check")
       defaultMeta EditorCases.all_highlights)
  = EditorCases.all_highlights.
Proof.
  apply (remove_after_add_restores (str "e") EditorCases.selection (str "check")
           defaultMeta EditorCases.all_highlights).
  intros h Hh. unfold EditorCases.all_highlights in Hh.
  repeat (apply elem_of_cons in Hh as [->|Hh]; [discriminate|]).
  inversion Hh.
Defined.

Lemma ids_updateHighlight i p c prev :
  map id (updateHighlight i p c prev) = map id prev.
Proof.
  unfold updateHighlight. rewrite map_map. apply map_ext.
  intros h. now destruct (bool_decide _).
Qed.

Lemma ids_appendReply i r prev :
  map id (appendReply i r prev) = map id prev.
Proof.
  unfold appendReply. rewrite map_map. apply map_ext.
  intros h. now destruct (bool_decide _).
Qed.

Lemma ids_removeHighlight i prev :
  sublist (map id (removeHighlight i prev)) (map id prev).
Proof.
  unfold removeHighlight. induction prev as [|h prev IH]; cbn; [constructor|].
  destruct (bool_decide _); cbn; now constructor.
Qed.

(** X14. When no two highlights share an id, none do after a highlight
    is moved, removed or replied to, nor after one is added under an id
    that is not in use. *)
Theorem ids_stay_unique random highlight commentText m i p c r prev :
  NoDup (map id prev) ->
  NoDup (map id (updateHighlight i p c prev)) /\
  NoDup (map id (removeHighlight i prev)) /\
  NoDup (map id (appendReply i r prev)) /\
  (random ∉ map id prev ->
   NoDup (map id (addHighlightWithMeta random highlight commentText m prev))).
Proof.
  intros Hnd. rewrite ids_updateHighlight, ids_appendReply.
  repeat split; try assumption.
  - eapply sublist_NoDup; [eassumption | apply ids_removeHighlight].
  - intros Hfresh. cbn. now constructor.
Qed.

Lemma ids_stay_unique_witness :
  NoDup (map id (removeHighlight (str "c") EditorCases.all_highlights)) /\
  NoDup (map id (addHighlightWithMeta (str "e") EditorCases.selection
                   (str "check") defaultMeta EditorCases.all_highlights)).
Proof.
  destruct (ids_stay_unique (str "e") EditorCases.selection (str "check")
              defaultMeta (str "c") EditorCases.moved EditorCases.retyped
              Samples.reply_old EditorCases.all_highlights)
    as (_ & H1 & _ & H2).
  - apply (bool_decide_unpack _). vm_compute. exact I.
  - split; [exact H1|]. apply H2.
    apply (bool_decide_unpack _). vm_compute. exact I.
Defined.

(** X15. Moving a highlight changes its position and content only: at
    every place of the list the id, the comment and the meta data, the
    replies among them, are as before, and a highlight with another id
    is not changed at all. *)
Theorem update_keeps_comment_and_replies i p c prev (n : nat) h :
  prev !! n = Some h ->
  exists h',
    updateHighlight i p c prev !! n = Some h' /\
    id h' = id h /\ comment h' = comment h /\ meta h' = meta h /\
    repliesOf h' = repliesOf h /\
    (id h = i -> position h' = p /\ content h' = c) /\
    (id h <> i -> h' = h).
Proof.
  intros Hn. unfold updateHighlight. rewrite list_lookup_fmap, Hn. cbn.
  eexists. split; [reflexivity|].
  destruct (decide (id h = i)) as [E|E].
  - rewrite bool_decide_eq_true_2 by assumption. cbn. unfold repliesOf. cbn.
    repeat split; congruence.
  - rewrite bool_decide_eq_false_2 by assumption. repeat split; congruence.
Qed.

Lemma update_keeps_comment_and_replies_witness :
  exists h',
    updateHighlight (str "a") EditorCases.moved EditorCases.retyped
      EditorCases.all_highlights !! 2%nat = Some h' /\
    position h' = EditorCases.moved /\
    repliesOf h' = [Samples.reply_old].
Proof.
  destruct (update_keeps_comment_and_replies (str "a") EditorCases.moved
              EditorCases.retyped EditorCases.all_highlights 2%nat
              Samples.highlight_a eq_refl)
    as (h' & H1 & _ & _ & _ & H2 & H3 & _).
  exists h'. split; [exact H1|]. split; [|exact H2].
  now destruct (H3 eq_refl).
Defined.

Lemma appendReply_absent i r prev :
  i ∉ map id prev -> appendReply i r prev = prev.
Proof.
  induction prev as [|h prev IH]; intros Hi; [reflexivity|].
  cbn in Hi. apply not_elem_of_cons in Hi as [Hh Hi].
  cbn. rewrite bool_decide_eq_true_2 by congruence.
  f_equal. now apply IH.
Qed.

(** X16. When no two highlights share an id, a reply to an id in the
    list adds exactly one reply to the list as a whole; a reply to an
    id that is not in the list changes nothing. *)
Theorem reply_adds_one_or_nothing i r prev :
  NoDup (map id prev) ->
  (i ∈ map id prev ->
   replyCount (appendReply i r prev) = S (replyCount prev)) /\
  (i ∉ map id prev -> appendReply i r prev = prev).
Proof.
  intros Hnd. split; [|apply appendReply_absent].
  induction prev as [|h prev IH]; intros Hi; [inversion Hi|].
  cbn in Hnd. apply NoDup_cons in Hnd as [Hh Hnd].
  cbn [appendReply map]. fold (appendReply i r prev).
  destruct (decide (id h = i)) as [E|E].
  - rewrite bool_decide_eq_false_2 by (intros H; now apply H).
    rewrite appendReply_absent by (now rewrite <- E).
    unfold replyCount. cbn [map sum_list]. unfold repliesOf at 1. cbn.
    reflexivity.
  - rewrite bool_decide_eq_true_2 by assumption.
    cbn in Hi. apply elem_of_cons in Hi as [Hi|Hi]; [congruence|].
    unfold replyCount in *. cbn [map sum_list]. rewrite (IH Hnd Hi). lia.
Qed.

Lemma reply_adds_one_or_nothing_witness :
  replyCount (appendReply (str "b") Samples.reply_old EditorCases.all_highlights)
  = 2%nat /\
  appendReply (str "z") Samples.reply_old EditorCases.all_highlights
  = EditorCases.all_highlights.
Proof.
  destruct (reply_adds_one_or_nothing (str "b") Samples.reply_old
              EditorCases.all_highlights) as [H1 _].
  - apply (bool_decide_unpack _). vm_compute. exact I.
  - destruct (reply_adds_one_or_nothing (str "z") Samples.reply_old
                EditorCases.all_highlights) as [_ H2].
    + apply (bool_decide_unpack _). vm_compute. exact I.
    + split.
      * rewrite H1; [reflexivity|].
        apply (bool_decide_unpack _). vm_compute. exact I.
      * apply H2. apply (bool_decide_unpack _). vm_compute. exact I.
Defined.

(** ** The visible list *)

Lemma compareHighlights_le a b :
  (compareHighlights a b <= 0)%Z <-> precedes a b.
Proof.
  unfold compareHighlights, precedes.
  destruct (Z.eqb_spec (severityRank (severityOf b) - severityRank (severityOf a)) 0);
    cbn [negb]; lia.
Qed.

Lemma precedes_total a b : precedes a b \/ precedes b a.
Proof. unfold precedes. lia. Qed.

Lemma precedes_trans a b c : precedes a b -> precedes b c -> precedes a c.
Proof. unfold precedes. lia. Qed.

Lemma insert_by_Permutation {A} (cmp : A -> A -> Z) x l :
  insert_by cmp x l ≡ₚ x :: l.
Proof.
  induction l as [|y l IH]; cbn; [reflexivity|].
  destruct (cmp x y <=? 0)%Z; [reflexivity|].
  rewrite IH. apply Permutation_swap.
Qed.

Lemma sort_Permutation {A} (cmp : A -> A -> Z) l : sort cmp l ≡ₚ l.
Proof.
  induction l as [|x l IH]; cbn; [reflexivity|].
  fold (sort cmp l). now rewrite insert_by_Permutation, IH.
Qed.

Lemma insert_by_sorted x l :
  StronglySorted precedes l ->
  StronglySorted precedes (insert_by compareHighlights x l).
Proof.
  induction 1 as [|y l Hl IH Hy]; cbn.
  - repeat constructor.
  - destruct (Z.leb_spec (compareHighlights x y) 0) as [Hle|Hgt].
    + apply compareHighlights_le in Hle.
      constructor; [now constructor|].
      constructor; [assumption|].
      eapply Forall_impl; [exact Hy|]. intros z. now apply precedes_trans.
    + assert (Hyx : precedes y x).
      { destruct (precedes_total x y) as [H|H]; [|assumption].
        apply compareHighlights_le in H. lia. }
      constructor; [assumption|].
      rewrite insert_by_Permutation. now constructor.
Qed.

Lemma sort_sorted l : StronglySorted precedes (sort compareHighlights l).
Proof.
  induction l as [|x l IH]; cbn; [constructor|].
  now apply insert_by_sorted.
Qed.

(** X17. The visible list holds exactly the highlights that pass the
    severity filter, each as often as the list of highlights holds it,
    ordered by severity rank from high to low and, within one rank, by
    page number from low to high. *)
Theorem visible_sorted_and_complete severityFilter highlights :
  visibleHighlights severityFilter highlights
    ≡ₚ List.filter (passesFilter severityFilter) highlights /\
  (forall (i j : nat) a b,
     (i < j)%nat ->
     visibleHighlights severityFilter highlights !! i = Some a ->
     visibleHighlights severityFilter highlights !! j = Some b ->
     precedes a b).
Proof.
  split; [apply sort_Permutation|].
  intros i j a b Hij Hi Hj.
  exact (StronglySorted_lookup precedes _ i j a b (sort_sorted _) Hij Hi Hj).
Qed.

Lemma visible_sorted_and_complete_witness :
  visibleHighlights (str "all") EditorCases.all_highlights
  = [EditorCases.highlight_d; Samples.highlight_a; EditorCases.highlight_c;
     Samples.highlight_b] /\
  precedes EditorCases.highlight_d Samples.highlight_a.
Proof.
  destruct (visible_sorted_and_complete (str "all") EditorCases.all_highlights)
    as [_ H].
  split; [reflexivity|].
  apply (H 0%nat 1%nat); [lia|reflexivity..].
Defined.

(** X18. A highlight without meta data counts as "medium" for the
    filter, so the filter "medium" shows it, but it has rank 0 in the
    order: under "all" it comes after every highlight of severity
    "low". *)
Theorem missing_meta_is_medium_but_ranks_last highlights h h' (i j : nat) :
  meta h = None ->
  severityOf h' = Some (str "low") ->
  visibleHighlights (str "all") highlights !! i = Some h ->
  visibleHighlights (str "all") highlights !! j = Some h' ->
  h ∈ visibleHighlights (str "medium") highlights /\ (j < i)%nat.
Proof.
  intros Hmeta Hlow Hi Hj.
  assert (Hin : h ∈ highlights).
  { apply list_elem_of_lookup_2 in Hi.
    unfold visibleHighlights in Hi. rewrite sort_Permutation in Hi.
    apply list_elem_of_In, filter_In in Hi as [Hi _]. now apply list_elem_of_In. }
  assert (Hr : severityRank (severityOf h) = 0%Z).
  { unfold severityOf. now rewrite Hmeta. }
  assert (Hr' : severityRank (severityOf h') = 1%Z) by now rewrite Hlow.
  split.
  - unfold visibleHighlights. rewrite sort_Permutation.
    apply list_elem_of_In, filter_In. split; [now apply list_elem_of_In|].
    unfold passesFilter, severityOf. rewrite Hmeta. reflexivity.
  - destruct (lt_eq_lt_dec i j) as [[Hlt|Heq]|Hgt]; [| |assumption].
    + pose proof (StronglySorted_lookup precedes _ i j h h'
                    (sort_sorted _) Hlt Hi Hj) as [H|[H1 H2]]; lia.
    + subst j. rewrite Hi in Hj. injection Hj as <-.
      unfold severityOf in Hlow. now rewrite Hmeta in Hlow.
Qed.

Lemma missing_meta_is_medium_but_ranks_last_witness :
  Samples.highlight_b ∈ visibleHighlights (str "medium") EditorCases.all_highlights /\
  (2 < 3)%nat.
Proof.
  apply (missing_meta_is_medium_but_ranks_last EditorCases.all_highlights
           Samples.highlight_b EditorCases.highlight_c 3%nat 2%nat);
    reflexivity.
Defined.

(** ** Saving and loading annotations *)

(** X19. When the store accepts the write and the read, what a handler
    saves is what loading shows next: the list the handler computed,
    with no error, whatever was stored before; the annotations of every
    other document stay as they were. *)
Theorem saved_is_reloaded rejects pdfId now f st :
  rejects (SetAnnotations pdfId
             {| highlights := f (ed_highlights st); updatedAt := now |}) = false ->
  rejects (GetAnnotations pdfId) = false ->
  let st' := Editor.load rejects true true pdfId
               (commit rejects true true pdfId now f st) in
  ed_highlights st' = f (ed_highlights st) /\
  ed_error st' = None /\
  forall other, other <> pdfId ->
    annotations (ed_fs st') !! other = annotations (ed_fs st) !! other.
Proof.
  intros Hset Hget. unfold commit, persistHighlights, Editor.load, setHighlights.
  cbn [negb orb ed_fs ed_log ed_highlights ed_isLoading ed_error].
  rewrite Hset, Hget.
  cbn [ed_fs ed_log ed_highlights ed_isLoading ed_error annotations].
  rewrite lookup_insert_eq. cbn [highlights].
  repeat split. intros other Hne. now apply lookup_insert_ne.
Qed.

Lemma saved_is_reloaded_witness :
  ed_highlights
    (Editor.load EditorCases.accepts_all true true Samples.doc1
       (commit EditorCases.accepts_all true true Samples.doc1 9
          (removeHighlight (str "d")) EditorCases.editor_state))
  = [].
Proof.
  destruct (saved_is_reloaded EditorCases.accepts_all Samples.doc1 9
              (removeHighlight (str "d")) EditorCases.editor_state)
    as (H & _); [reflexivity..|].
  exact H.
Defined.

(** X20. When the store rejects the write, the handler still shows the
    changed list and sets no error, the store keeps what it held, and
    loading afterwards shows the list stored before the change. *)
Theorem rejected_save_is_silent rejects pdfId now f st :
  rejects (SetAnnotations pdfId
             {| highlights := f (ed_highlights st); updatedAt := now |}) = true ->
  rejects (GetAnnotations pdfId) = false ->
  let st1 := commit rejects true true pdfId now f st in
  ed_highlights st1 = f (ed_highlights st) /\
  ed_error st1 = ed_error st /\
  ed_fs st1 = ed_fs st /\
  ed_highlights (Editor.load rejects true true pdfId st1) =
    match annotations (ed_fs st) !! pdfId with
    | Some d => highlights d
    | None => []
    end.
Proof.
  intros Hset Hget. unfold commit, persistHighlights, Editor.load, setHighlights.
  cbn [negb orb ed_fs ed_log ed_highlights ed_isLoading ed_error].
  rewrite Hset, Hget.
  cbn [ed_fs ed_log ed_highlights ed_isLoading ed_error annotations].
  repeat split.
Qed.

Lemma rejected_save_is_silent_witness :
  ed_highlights (commit EditorCases.rejects_saves true true Samples.doc1 9
                   (removeHighlight (str "d")) EditorCases.editor_state) = [] /\
  ed_error (commit EditorCases.rejects_saves true true Samples.doc1 9
              (removeHighlight (str "d")) EditorCases.editor_state) = None /\
  ed_highlights
    (Editor.load EditorCases.rejects_saves true true Samples.doc1
       (commit EditorCases.rejects_saves true true Samples.doc1 9
          (removeHighlight (str "d")) EditorCases.editor_state))
  = [EditorCases.highlight_d].
Proof.
  destruct (rejected_save_is_silent EditorCases.rejects_saves Samples.doc1 9
              (removeHighlight (str "d")) EditorCases.editor_state)
    as (H1 & H2 & _ & H3); [reflexivity..|].
  split; [exact H1|]. split; [exact H2|exact H3].
Defined.

(** X21. After a confirmed delete of the selected document on a store
    that rejects nothing, loading the annotations of that document
    shows an empty list. *)
Theorem deleted_document_has_no_annotations rejects c sel st est :
  selectedPdfId (ui st) = Some (c :: sel) ->
  ed_fs est = fs (handleDeleteSelectedPdf reliable true true st) ->
  rejects (GetAnnotations (c :: sel)) = false ->
  ed_highlights (Editor.load rejects true true (c :: sel) est) = [] /\
  ed_error (Editor.load rejects true true (c :: sel) est) = None.
Proof.
  intros Hsel Hfs Hget. unfold Editor.load. cbn [negb orb]. rewrite Hget.
  cbn [ed_highlights ed_error]. rewrite Hfs.
  rewrite (delete_reliable_state c sel st Hsel). cbv zeta.
  cbn [fs setSelectedPdfUrl setSelectedPdfId setPdfs setFs delete_pdf
       delete_annotations annotations].
  now rewrite lookup_delete_eq.
Qed.

Lemma deleted_document_has_no_annotations_witness :
  annotations (fs EditorCases.hello_annotated) !! Samples.doc1
  = Some {| highlights := [EditorCases.highlight_d]; updatedAt := 1 |} /\
  ed_highlights
    (Editor.load EditorCases.accepts_all true true Samples.doc1
       {| ed_fs := fs (handleDeleteSelectedPdf reliable true true
                         EditorCases.hello_annotated);
          ed_log := []; ed_highlights := [EditorCases.highlight_d];
          ed_isLoading := false; ed_error := None |})
  = [].
Proof.
  split; [reflexivity|].
  apply (deleted_document_has_no_annotations EditorCases.accepts_all
           "d"%char (str "oc1") EditorCases.hello_annotated
           {| ed_fs := fs (handleDeleteSelectedPdf reliable true true
                             EditorCases.hello_annotated);
              ed_log := []; ed_highlights := [EditorCases.highlight_d];
              ed_isLoading := false; ed_error := None |});
    reflexivity.
Defined.


(** * Further properties of the suggestion client *)

Import AI.

(** ** The text taken from an answer *)

Lemma nonempty_Some o s : nonempty o = Some s -> o = Some s /\ s <> [].
Proof. destruct o as [[|c r]|]; cbn; try discriminate. now intros [= <-]. Qed.

Lemma nodeText_nonempty c s : nodeText c = Some s -> s <> [].
Proof.
  unfold nodeText.
  destruct (node_text c) as [[[|ch t]|[[|ch t]|]]|];
    try (intros H; apply nonempty_Some in H; tauto);
    now intros [= <-].
Qed.

Lemma firstText_nonempty l s : firstText l = Some s -> s <> [].
Proof.
  induction l as [|c l IH]; cbn; [discriminate|].
  destruct (nodeText c) eqn:E; [|assumption].
  intros [= <-]. eapply nodeText_nonempty, E.
Qed.

Lemma firstItemText_nonempty l s :
  firstItemText l = Returned (Some s) -> s <> [].
Proof.
  induction l as [|c l IH]; cbn; [discriminate|].
  destruct (default (Yields []) (item_content c)) as [content|]; [|discriminate].
  destruct (firstText content) eqn:E; [|assumption].
  intros [= <-]. eapply firstText_nonempty, E.
Qed.

(** X22. [extractOutputText] never returns the empty string: whatever
    the shape of the answer, it finds a text of at least one character
    or nothing, or it throws. *)
Theorem extractOutputText_never_empty res s :
  extractOutputText res = Returned (Some s) -> s <> [].
Proof.
  unfold extractOutputText. destruct res as [r|]; [|discriminate].
  destruct (nonempty (output_text r)) eqn:E1.
  { intros [= <-]. now apply nonempty_Some in E1. }
  destruct (match output r with
            | Some o => o
            | None => default (Yields []) (outputs r)
            end) as [items|]; [|discriminate].
  destruct (firstItemText items) as [[t|]|] eqn:E2; [| |discriminate].
  - intros [= <-]. eapply firstItemText_nonempty, E2.
  - intros [= H]. now apply nonempty_Some in H.
Qed.

Lemma extractOutputText_never_empty_witness : str "ok" <> [].
Proof.
  apply (extractOutputText_never_empty
           (Some {| output_text := Some [];
                    output := Some (Yields [{| item_content := Some (Yields
                      [{| node_text := Some (TextObject (Some []));
                          node_content := Some (str "ok");
                          node_value := None |}]) |}]);
                    outputs := None; choices := None |})
           (str "ok")).
  reflexivity.
Defined.



(** ** When the fallback request is made *)

Lemma parseComment_Thrown JSON_parse content excerpt :
  parseComment JSON_parse content excerpt = Thrown <->
  exists raw, jsonSlice content = Some raw /\
              (JSON_parse raw = None \/ JSON_parse raw = Some JNull).
Proof.
  unfold parseComment, jsonSlice.
  destruct (nonempty content) as [c|].
  2: { split; [discriminate|]. now intros (raw & H & _). }
  destruct (indexOf c "{"%char) as [s|].
  2: { split; [discriminate|]. now intros (raw & H & _). }
  destruct (lastIndexOf c "}"%char) as [e|].
  2: { split; [discriminate|]. now intros (raw & H & _). }
  destruct (JSON_parse (JS.slice c s (e + 1))) as [parsed|] eqn:E.
  - split.
    + intros H. eexists. split; [reflexivity|]. right. rewrite E. f_equal.
      destruct parsed; cbn in H; try discriminate. reflexivity.
    + intros (raw & [= <-] & [H|H]); rewrite E in H; [discriminate|].
      injection H as ->. reflexivity.
  - split; [|reflexivity]. intros _. eexists. split; [reflexivity|]. now left.
Qed.

Lemma parseComment_no_slice JSON_parse content excerpt :
  jsonSlice content = None ->
  parseComment JSON_parse content excerpt = Returned None.
Proof.
  unfold parseComment, jsonSlice.
  destruct (nonempty content) as [c|]; [|reflexivity].
  destruct (indexOf c "{"%char) as [s|]; [|reflexivity].
  destruct (lastIndexOf c "}"%char) as [e|]; [discriminate|reflexivity].
Qed.

(** The requests of the fallback path, whatever it resolves to. *)
Lemma comment_fallback_trace env chat_create JSON_parse params apiKey v :
  fst (match chat_create (commentFallback env apiKey params) with
       | Resolves chat =>
           match parseComment JSON_parse (chatContent chat) (commentExcerpt params) with
           | Returned r =>
               ([commentPrimary env apiKey params; commentFallback env apiKey params], r)
           | Thrown =>
               ([commentPrimary env apiKey params; commentFallback env apiKey params], v)
           end
       | Rejects =>
           ([commentPrimary env apiKey params; commentFallback env apiKey params], v)
       end) = [commentPrimary env apiKey params; commentFallback env apiKey params].
Proof.
  destruct (chat_create _); [|reflexivity].
  destruct (parseComment _ _ _); reflexivity.
Qed.

(** X24. With a credential, [suggestComment] issues the primary
    request first and at most the fallback request after it, and it
    issues the fallback exactly when something in its [try] block
    throws: the primary request is rejected, or reading the answer
    throws (a loop over a value that cannot be iterated), or the text
    between the first "{" and the last "}" of the answer does not
    parse or parses to [null]. *)
Theorem fallback_exactly_on_failure env responses_create chat_create JSON_parse
        params apiKey :
  first_truthy (sc_apiKey params) (VITE_OPENAI_API_KEY env) = Some apiKey ->
  let primary := commentPrimary env apiKey params in
  let fallback := commentFallback env apiKey params in
  let trace := fst (suggestComment env responses_create chat_create JSON_parse params) in
  (trace = [primary] \/ trace = [primary; fallback]) /\
  (trace = [primary; fallback] <->
   responses_create primary = Rejects \/
   exists resp,
     responses_create primary = Resolves resp /\
     (extractOutputText (Some resp) = Thrown \/
      exists content raw,
        extractOutputText (Some resp) = Returned content /\
        jsonSlice content = Some raw /\
        (JSON_parse raw = None \/ JSON_parse raw = Some JNull))).
Proof.
  intros Hkey. cbv zeta. unfold suggestComment. rewrite Hkey.
  destruct (responses_create (commentPrimary env apiKey params)) as [resp|] eqn:Ep.
  - destruct (extractOutputText (Some resp)) as [content|] eqn:Ex.
    + destruct (parseComment JSON_parse content (commentExcerpt params))
        as [r|] eqn:E.
      * cbn [fst]. split; [now left|]. split; [discriminate|].
        intros [H|(resp' & [= <-] & [H|(content' & raw & Hc & Hraw)])];
          [discriminate|congruence|].
        assert (content' = content) by congruence. subst content'.
        assert (HT : parseComment JSON_parse content (commentExcerpt params)
                     = Thrown).
        { apply parseComment_Thrown. eauto. }
        congruence.
      * rewrite comment_fallback_trace. split; [now right|].
        split; [|reflexivity]. intros _. right. exists resp.
        split; [reflexivity|]. right.
        apply parseComment_Thrown in E as (raw & H1 & H2). eauto.
    + rewrite comment_fallback_trace. split; [now right|].
      split; [|reflexivity]. intros _. right. exists resp.
      split; [reflexivity|]. now left.
  - rewrite comment_fallback_trace. split; [now right|].
    split; [|reflexivity]. intros _. now left.
Qed.

Lemma fallback_exactly_on_failure_witness :
  fst (suggestComment Samples.env_with_key
         (Samples.primary_answers (str "{oops}"))
         (Samples.chat_answers Samples.urgent_json) Samples.parse_samples
         (Samples.comment_params None))
  = [commentPrimary Samples.env_with_key (str "sk-test") (Samples.comment_params None);
     commentFallback Samples.env_with_key (str "sk-test") (Samples.comment_params None)]
  /\
  fst (suggestComment Samples.env_with_key
         (ChatCases.primary_sends ChatCases.not_iterable)
         (Samples.chat_answers Samples.urgent_json) Samples.parse_samples
         (Samples.comment_params None))
  = [commentPrimary Samples.env_with_key (str "sk-test") (Samples.comment_params None);
     commentFallback Samples.env_with_key (str "sk-test") (Samples.comment_params None)].
Proof.
  split.
  - destruct (fallback_exactly_on_failure Samples.env_with_key
                (Samples.primary_answers (str "{oops}"))
                (Samples.chat_answers Samples.urgent_json) Samples.parse_samples
                (Samples.comment_params None) (str "sk-test") eq_refl)
      as [_ [_ H]].
    apply H. right. exists (Samples.answer_with (str "{oops}")).
    split; [reflexivity|]. right. exists (Some (str "{oops}")), (str "{oops}").
    split; [reflexivity|]. split; [reflexivity|]. left. reflexivity.
  - destruct (fallback_exactly_on_failure Samples.env_with_key
                (ChatCases.primary_sends ChatCases.not_iterable)
                (Samples.chat_answers Samples.urgent_json) Samples.parse_samples
                (Samples.comment_params None) (str "sk-test") eq_refl)
      as [_ [_ H]].
    apply H. right. exists ChatCases.not_iterable.
    split; [reflexivity|]. left. reflexivity.
Defined.

(** X25. When the primary request resolves and its answer is read
    without an exception, but has no text, or a text with no "{" or no
    "}", [suggestComment] resolves to [null] after that one request: the
    fallback is not tried. *)
Theorem no_json_object_no_fallback env responses_create chat_create JSON_parse
        params apiKey resp content :
  first_truthy (sc_apiKey params) (VITE_OPENAI_API_KEY env) = Some apiKey ->
  responses_create (commentPrimary env apiKey params) = Resolves resp ->
  extractOutputText (Some resp) = Returned content ->
  jsonSlice content = None ->
  suggestComment env responses_create chat_create JSON_parse params
  = ([commentPrimary env apiKey params], None).
Proof.
  intros Hkey Hp Hx Hslice. unfold suggestComment. rewrite Hkey, Hp, Hx.
  now rewrite parseComment_no_slice.
Qed.

Lemma no_json_object_no_fallback_witness :
  suggestComment Samples.env_with_key
    (Samples.primary_answers (str "I cannot help with that."))
    (Samples.chat_answers Samples.urgent_json) Samples.parse_samples
    (Samples.comment_params None)
  = ([commentPrimary Samples.env_with_key (str "sk-test")
        (Samples.comment_params None)], None).
Proof.
  apply (no_json_object_no_fallback Samples.env_with_key
           (Samples.primary_answers (str "I cannot help with that."))
           (Samples.chat_answers Samples.urgent_json) Samples.parse_samples
           (Samples.comment_params None) (str "sk-test")
           (Samples.answer_with (str "I cannot help with that."))
           (Some (str "I cannot help with that.")));
    reflexivity.
Defined.

(** X26. [suggestNextFocus] has no fallback: without a credential it
    issues no request, with one it issues exactly the primary request,
    and when that request is rejected it resolves to [null]. *)
Theorem suggestNextFocus_single_request env responses_create JSON_parse params :
  let result := suggestNextFocus env responses_create JSON_parse params in
  match first_truthy (nf_apiKey params) (VITE_OPENAI_API_KEY env) with
  | None => result = ([], None)
  | Some apiKey =>
      fst result = [focusPrimary env apiKey params] /\
      (responses_create (focusPrimary env apiKey params) = Rejects ->
       snd result = None)
  end.
Proof.
  cbv zeta. unfold suggestNextFocus.
  destruct (first_truthy _ _) as [apiKey|]; [|reflexivity].
  destruct (responses_create _) as [resp|]; [|now split].
  destruct (extractOutputText _) as [content|]; [|split; [reflexivity|discriminate]].
  destruct (parseNextFocus _ _); split; try reflexivity; discriminate.
Qed.

(** ** The requests of [askExpert] *)

Ltac pick_request :=
  lazymatch goal with
  | |- context [match ?call ?p with Resolves _ => _ | Rejects => _ end] => exists p
  end.

(** X27. With a credential, [askExpert] calls the search service first
    and exactly when the trimmed question starts with "@search", in
    lower case; it then issues the primary request, with reasoning
    effort "high" exactly when the question starts with "@think" and
    "minimal" otherwise. When that request resolves and its answer is
    read without an exception, the text read is the result and nothing
    more is requested; when it is rejected, or reading its answer
    throws, the chat request follows, and nothing else. *)
Theorem askExpert_requests env responses_create chat_create fetch
        encodeURIComponent params apiKey :
  first_truthy (ae_apiKey params) (VITE_OPENAI_API_KEY env) = Some apiKey ->
  let raw := JS.trim (ae_question params) in
  let search :=
    if JS.startsWith raw (str "@search")
    then [Fetch (str "https://api.duckduckgo.com/?q="
                 ++ encodeURIComponent (JS.trim (stripCommand raw))
                 ++ str "&format=json&no_html=1&skip_disambig=1")]
    else [] in
  let effort := if JS.startsWith raw (str "@think") then str "high" else str "minimal" in
  exists primary,
    isResponses effort primary /\
    (forall resp content,
       responses_create primary = Resolves resp ->
       extractOutputText (Some resp) = Returned content ->
       askExpert env responses_create chat_create fetch encodeURIComponent params
       = (search ++ [primary], content)) /\
    (responses_create primary = Rejects \/
     (exists resp, responses_create primary = Resolves resp /\
                   extractOutputText (Some resp) = Thrown) ->
     exists chat, isChat chat /\
     fst (askExpert env responses_create chat_create fetch encodeURIComponent params)
     = search ++ [primary; chat]).
Proof.
  intros Hkey. cbv zeta. unfold askExpert. rewrite Hkey.
  assert (Hs : forall q,
    fst (searchWebDuckDuckGo fetch encodeURIComponent q) =
    [Fetch (str "https://api.duckduckgo.com/?q=" ++ encodeURIComponent q
            ++ str "&format=json&no_html=1&skip_disambig=1")]).
  { intros q. unfold searchWebDuckDuckGo. destruct (fetch _) as [res|]; [|reflexivity].
    destruct (negb (ok res)); [reflexivity|]. now destruct (body res). }
  destruct (JS.startsWith (JS.trim (ae_question params)) (str "@search")) eqn:Es.
  - specialize (Hs (JS.trim (stripCommand (JS.trim (ae_question params))))).
    destruct (searchWebDuckDuckGo _ _ _) as [searched appendix].
    cbn [fst] in Hs. subst searched.
    pick_request. split; [repeat eexists|]. split.
    + intros resp content -> ->. reflexivity.
    + intros [->|(resp & -> & ->)]; pick_request;
        (split; [repeat eexists|]); destruct (chat_create _); reflexivity.
  - pick_request. split; [repeat eexists|]. split.
    + intros resp content -> ->. reflexivity.
    + intros [->|(resp & -> & ->)]; pick_request;
        (split; [repeat eexists|]); destruct (chat_create _); reflexivity.
Qed.

Lemma askExpert_requests_witness :
  exists primary chat,
    isResponses (str "minimal") primary /\ isChat chat /\
    fst (askExpert Samples.env_with_key
           (ChatCases.primary_sends ChatCases.not_iterable)
           Samples.chat_rejects Samples.fetch_rejects Samples.encode_identity
           Samples.ask_params)
    = [Fetch (str "https://api.duckduckgo.com/?q=rebar&format=json&no_html=1&skip_disambig=1");
       primary; chat].
Proof.
  destruct (askExpert_requests Samples.env_with_key
              (ChatCases.primary_sends ChatCases.not_iterable)
              Samples.chat_rejects Samples.fetch_rejects Samples.encode_identity
              Samples.ask_params (str "sk-test") eq_refl)
    as (primary & Hp & _ & H).
  destruct H as (chat & Hc & Htrace).
  - right. exists ChatCases.not_iterable. split; reflexivity.
  - exists primary, chat. split; [exact Hp|]. split; [exact Hc|exact Htrace].
Defined.

Lemma lastTen_app {A} (old recent : list A) :
  List.length recent = 10%nat -> lastTen (old ++ recent) = recent.
Proof.
  intros H. unfold lastTen. rewrite length_app, H.
  replace (List.length old + 10 - 10)%nat with (List.length old) by lia.
  now rewrite drop_app_length.
Qed.

(** X28. Only the last ten messages of the history reach the prompt:
    a history that ends in ten given messages gives the same requests
    and the same answer as those ten messages alone, whatever comes
    before them. *)
Theorem askExpert_history_window env responses_create chat_create fetch
        encodeURIComponent params old recent :
  List.length recent = 10%nat ->
  askExpert env responses_create chat_create fetch encodeURIComponent
            (with_history params (old ++ recent))
  = askExpert env responses_create chat_create fetch encodeURIComponent
              (with_history params recent).
Proof.
  intros Hlen. unfold askExpert, with_history.
  cbn [ae_pdfText ae_question ae_model ae_apiKey ae_abortSignal ae_history].
  assert (E : match old ++ recent with
              | m :: h =>
                  str "Chat history (most recent last):" ++ newline ++
                  joinWith newline (map historyLine (lastTen (m :: h))) ++
                  newline ++ newline
              | [] => []
              end =
              match recent with
              | m :: h =>
                  str "Chat history (most recent last):" ++ newline ++
                  joinWith newline (map historyLine (lastTen (m :: h))) ++
                  newline ++ newline
              | [] => []
              end).
  { pose proof (lastTen_app old recent Hlen) as H1.
    pose proof (lastTen_app [] recent Hlen) as H2. cbn [app] in H2.
    destruct recent as [|m h]; [discriminate|].
    destruct (old ++ m :: h) as [|m' h'] eqn:E.
    - now destruct old.
    - now rewrite H1, H2. }
  rewrite E. reflexivity.
Qed.

Lemma askExpert_history_window_witness :
  askExpert Samples.env_with_key (Samples.primary_answers (str "ok"))
    Samples.chat_rejects Samples.fetch_rejects Samples.encode_identity
    (with_history Samples.ask_params (ChatCases.old ++ ChatCases.recent))
  = askExpert Samples.env_with_key (Samples.primary_answers (str "ok"))
      Samples.chat_rejects Samples.fetch_rejects Samples.encode_identity
      (with_history Samples.ask_params ChatCases.recent).
Proof.
  apply (askExpert_history_window Samples.env_with_key
           (Samples.primary_answers (str "ok")) Samples.chat_rejects
           Samples.fetch_rejects Samples.encode_identity Samples.ask_params
           ChatCases.old ChatCases.recent).
  reflexivity.
Defined.

(** ** What [suggestComment] reads of its texts *)

(** X29. [suggestComment] reads only the first 160,000 characters of
    the document text and the first 4,000 of the highlighted text: two
    calls that agree on these prefixes and on the other parameters issue
    the same requests and resolve to the same value. *)
Theorem suggestComment_reads_prefixes env responses_create chat_create JSON_parse
        params t1 t2 h1 h2 :
  JS.slice t1 0 160000 = JS.slice t2 0 160000 ->
  JS.slice h1 0 4000 = JS.slice h2 0 4000 ->
  suggestComment env responses_create chat_create JSON_parse (with_texts params t1 h1)
  = suggestComment env responses_create chat_create JSON_parse (with_texts params t2 h2).
Proof.
  intros Ht Hh.
  assert (Ee : commentExcerpt (with_texts params t1 h1)
               = commentExcerpt (with_texts params t2 h2)) by exact Hh.
  assert (Ep : forall apiKey, commentPrimary env apiKey (with_texts params t1 h1)
               = commentPrimary env apiKey (with_texts params t2 h2)).
  { intros apiKey. unfold commentPrimary, commentPromptOf, commentModel, commentPrompt.
    rewrite Ee. cbn [with_texts sc_pdfText sc_projectName sc_pageNumber sc_model].
    now rewrite Ht. }
  assert (Ef : forall apiKey, commentFallback env apiKey (with_texts params t1 h1)
               = commentFallback env apiKey (with_texts params t2 h2)).
  { intros apiKey. unfold commentFallback, commentPromptOf, commentModel, commentPrompt.
    rewrite Ee. cbn [with_texts sc_pdfText sc_projectName sc_pageNumber sc_model].
    now rewrite Ht. }
  unfold suggestComment. cbn [with_texts sc_apiKey].
  destruct (first_truthy _ _) as [apiKey|]; [|reflexivity].
  now rewrite !Ep, !Ef, !Ee.
Qed.

Lemma suggestComment_reads_prefixes_witness :
  ChatCases.long_x <> ChatCases.long_y /\
  suggestComment Samples.env_with_key (Samples.primary_answers Samples.partial_answer)
    Samples.chat_rejects Samples.parse_samples
    (with_texts (Samples.comment_params None) (str "General notes.") ChatCases.long_x)
  = suggestComment Samples.env_with_key (Samples.primary_answers Samples.partial_answer)
      Samples.chat_rejects Samples.parse_samples
      (with_texts (Samples.comment_params None) (str "General notes.") ChatCases.long_y).
Proof.
  split.
  - intros E. apply (f_equal (drop 4000)) in E. vm_compute in E. discriminate.
  - apply (suggestComment_reads_prefixes Samples.env_with_key
             (Samples.primary_answers Samples.partial_answer)
             Samples.chat_rejects Samples.parse_samples
             (Samples.comment_params None)
             (str "General notes.") (str "General notes.")
             ChatCases.long_x ChatCases.long_y).
    + reflexivity.
    + vm_compute. reflexivity.
Defined.

(** ** The expert box *)

Lemma turns_ok_exchange l q a :
  turns_ok l -> q <> [] -> a <> [] ->
  turns_ok (l ++ [{| role := user; content := q |};
                  {| role := assistant; content := a |}]).
Proof.
  intros [Hev Hturns] Hq Ha. split.
  - rewrite length_app. cbn [List.length].
    destruct Hev as [n Hn]. exists (S n). lia.
  - intros i m Hi.
    apply lookup_app_Some in Hi as [Hin|[Hge Hout]]; [now apply Hturns|].
    assert (Hlen : Nat.even (List.length l) = true) by now apply Nat.even_spec.
    destruct (i - List.length l)%nat as [|[|k]] eqn:Ek;
      cbn in Hout; [| |discriminate]; injection Hout as <-; cbn [role content].
    + replace i with (List.length l) by lia. rewrite Hlen. now split.
    + replace i with (S (List.length l)) by lia.
      rewrite Nat.even_succ, <- Nat.negb_even, Hlen. now split.
Qed.

(** X30. A call of [ask] that no other call overlaps keeps the
    conversation well formed: when the turns alternate, the user
    first, and no message is empty, they still do afterwards; a blank
    question changes nothing and issues no request; any other question
    is appended, trimmed, followed by one non-empty answer, and the
    input is cleared. Nothing keeps a second call from starting before
    the first has settled, and then both questions come before both
    answers: the turns no longer alternate. *)
Theorem ask_keeps_turns env responses_create chat_create fetch
        encodeURIComponent pdfText st :
  turns_ok (ExpertBox.messages st) ->
  let result := ExpertBox.ask env responses_create chat_create fetch
                  encodeURIComponent pdfText st in
  turns_ok (ExpertBox.messages (snd result)) /\
  (JS.trim (ExpertBox.query st) = [] -> result = ([], st)) /\
  (JS.trim (ExpertBox.query st) <> [] ->
   exists answer,
     ExpertBox.messages (snd result) =
       ExpertBox.messages st ++
       [{| role := user; content := JS.trim (ExpertBox.query st) |};
        {| role := assistant; content := answer |}] /\
     ExpertBox.query (snd result) = []) /\
  (forall params1 st1 typed params2 st2 res1 res2,
     ExpertBox.askStart env pdfText st = Some (params1, st1) ->
     ExpertBox.askStart env pdfText (ExpertBox.setQuery typed st1)
       = Some (params2, st2) ->
     exists answer1 answer2,
       ExpertBox.messages (ExpertBox.askSettle res2 (ExpertBox.askSettle res1 st2))
       = ExpertBox.messages st ++
         [{| role := user; content := JS.trim (ExpertBox.query st) |};
          {| role := user; content := JS.trim typed |};
          {| role := assistant; content := answer1 |};
          {| role := assistant; content := answer2 |}] /\
       ~ turns_ok (ExpertBox.messages
                     (ExpertBox.askSettle res2 (ExpertBox.askSettle res1 st2)))).
Proof.
  intros Hok. cbv zeta. unfold ExpertBox.ask, ExpertBox.askStart.
  split; [|split; [|split]].
  - destruct (JS.trim (ExpertBox.query st)) as [|c r] eqn:Eq; [exact Hok|].
    destruct (askExpert _ _ _ _ _ _) as [requests res].
    cbn [snd ExpertBox.askSettle ExpertBox.messages].
    rewrite <- app_assoc. apply turns_ok_exchange; [assumption|discriminate|].
    destruct res as [[|c' r']|]; discriminate.
  - intros ->. reflexivity.
  - intros Hne. destruct (JS.trim (ExpertBox.query st)) as [|c r] eqn:Eq;
      [contradiction|].
    destruct (askExpert _ _ _ _ _ _) as [requests res].
    cbn [snd ExpertBox.askSettle ExpertBox.messages ExpertBox.query].
    eexists. split; [|reflexivity]. now rewrite <- app_assoc.
  - intros params1 st1 typed params2 st2 res1 res2 H1 H2.
    destruct (JS.trim (ExpertBox.query st)) as [|c r] eqn:Eq; [discriminate|].
    injection H1 as <- <-.
    cbn [ExpertBox.setQuery ExpertBox.query ExpertBox.messages] in H2.
    destruct (JS.trim typed) as [|c2 r2] eqn:Eq2; [discriminate|].
    injection H2 as <- <-.
    cbn [ExpertBox.askSettle ExpertBox.messages].
    eexists. eexists. split; [now rewrite <- !app_assoc|].
    intros [_ Hturns].
    destruct Hok as [Hev _].
    assert (Hlen : Nat.even (List.length (ExpertBox.messages st)) = true)
      by now apply Nat.even_spec.
    destruct (Hturns (S (List.length (ExpertBox.messages st)))
                {| role := user; content := c2 :: r2 |}) as [Hrole _].
    + rewrite <- !app_assoc. cbn [app].
      rewrite lookup_app_r by lia.
      now replace (S (List.length (ExpertBox.messages st))
                   - List.length (ExpertBox.messages st))%nat with 1%nat by lia.
    + rewrite Nat.even_succ, <- Nat.negb_even, Hlen in Hrole. discriminate.
Qed.

Lemma ask_keeps_turns_witness :
  turns_ok
    (ExpertBox.messages
       (snd (ExpertBox.ask Samples.env_without_key Samples.primary_rejects
               Samples.chat_rejects Samples.fetch_rejects Samples.encode_identity
               (str "General notes.") ChatCases.box))) /\
  ExpertBox.messages
    (snd (ExpertBox.ask Samples.env_without_key Samples.primary_rejects
            Samples.chat_rejects Samples.fetch_rejects Samples.encode_identity
            (str "General notes.") ChatCases.box))
  = [ChatCases.turn user "what slab?"; ChatCases.turn assistant "(no answer)"].
Proof.
  destruct (ask_keeps_turns Samples.env_without_key Samples.primary_rejects
              Samples.chat_rejects Samples.fetch_rejects Samples.encode_identity
              (str "General notes.") ChatCases.box) as (H & _).
  - split; [exists 0%nat; reflexivity|]. intros i m Hi. destruct i; discriminate.
  - split; [exact H|reflexivity].
Defined.
